(** * NTU graduation-credit calculator: credit / GPA aggregation and
      chronological ordering

    Shallow embedding of

    - [src/types.ts]: [Course], [GRADE_POINTS], [GraduationRequirements];
    - the [SummaryCard] component of [src/App.tsx]: the [reduce] that
      accumulates credits per bucket, the [forEach] that accumulates the
      grade-point pools, and the two [toFixed(2)] GPA strings;
    - the [CourseTable] component of [src/App.tsx]: [compareSemesters] and the
      comparator handed to [Array.prototype.sort] in [renderSection];
    - [handleUpdateCourse] of the [App] component.

    A JavaScript [number] is an IEEE 754 binary64 value.  Credits, grade
    points, the accumulators and the numbers read from a semester label are
    therefore primitive floats
    ([PrimFloat.float], the same binary64 format with round-to-nearest-even),
    so that every sum, product and quotient below is the one the program
    computes, bit for bit.  Strings are byte strings; the source texts are
    UTF-8, and the only operations on them are equality tests and splitting
    at non-digit characters, which do not depend on the encoding. *)

From Stdlib Require Import ZArith List Bool String Ascii Lia.
From Stdlib Require Import Floats Uint63 DecimalString Permutation Sorted.
From Stdlib Require DecimalFacts DecimalN.
Import ListNotations.

Set Warnings "-inexact-float".

Local Open Scope string_scope.
Local Open Scope Z_scope.

(** ** Decimal rendering of integers *)

Module Decimal10.

Definition digits (n : Z) : string :=
  NilZero.string_of_uint (N.to_uint (Z.to_N n)).

Fixpoint zeros (k : nat) : string :=
  match k with
  | O => ""
  | S k' => String "0" (zeros k')
  end.

End Decimal10.

(** ** [Number.prototype.toFixed(2)] *)

Module JSNumber.

(** The exact value of a finite binary64 number [m * 2^e] as a fraction
    [num / den] with [den] a power of two. *)
Definition num (m : positive) (e : Z) : Z := Z.pos m * 2 ^ Z.max 0 e.
Definition den (e : Z) : Z := 2 ^ Z.max 0 (- e).

(** ECMA-262, Number.prototype.toFixed, step 10.a with [f = 2]: "let n be an
    integer for which n / 10^f - x is as close to zero as possible; if there
    are two such n, pick the larger n".  That integer is
    [floor (100 * x + 1/2)]. *)
Definition hundredths (m : positive) (e : Z) : Z :=
  (200 * num m e + den e) / (2 * den e).

(** Steps 10.b-10.c: the decimal digits of [n], left-padded with zeros to
    three characters, with a point before the last two. *)
Definition fixed_digits (n : Z) : string :=
  let m := Decimal10.digits n in
  let k := String.length m in
  let m' := if (k <=? 2)%nat then Decimal10.zeros (3 - k) ++ m else m in
  let k' := String.length m' in
  substring 0 (k' - 2) m' ++ "." ++ substring (k' - 2) 2 m'.

(** Number::toString for a finite value [v >= 10^21] (an integer, since
    binary64 has 53 significant bits): the shortest decimal significand [s]
    of [k] digits such that [s * 10^(n-k)] rounds to the number, the closest
    one when several exist, printed in exponent notation. *)
Definition Z2SF (z : Z) : spec_float := binary_normalize prec emax z 0 false.

Definition roundtrips (m : positive) (e : Z) (c : Z) : bool :=
  match SFcompare (Z2SF c) (S754_finite false m e) with
  | Some Eq => true
  | _ => false
  end.

Definition shortest_at (m : positive) (e : Z) (v : Z) (n0 k : Z) : option Z :=
  let p := 10 ^ (n0 - k) in
  let lo := (v / p) * p in
  let hi := lo + p in
  match roundtrips m e lo, roundtrips m e hi with
  | true, true => Some (if v - lo <=? hi - v then lo else hi)
  | true, false => Some lo
  | false, true => Some hi
  | false, false => None
  end.

Fixpoint shortest (m : positive) (e : Z) (v : Z) (n0 : Z) (ks : list Z) : Z :=
  match ks with
  | [] => v
  | k :: ks' =>
      match shortest_at m e v n0 k with
      | Some c => c
      | None => shortest m e v n0 ks'
      end
  end.

Fixpoint strip_zeros (rev_digits : list ascii) : list ascii :=
  match rev_digits with
  | "0"%char :: r => strip_zeros r
  | _ => rev_digits
  end.

Definition exponent_notation (m : positive) (e : Z) : string :=
  let v := num m e in
  let n0 := Z.of_nat (String.length (Decimal10.digits v)) in
  let c := shortest m e v n0 (map Z.of_nat (seq 1 17)) in
  let d := Decimal10.digits c in
  let s := rev (strip_zeros (rev (list_ascii_of_string d))) in
  let expo := "e+" ++ Decimal10.digits (Z.of_nat (String.length d) - 1) in
  match s with
  | [] => d
  | [a] => String a expo
  | a :: frac => String a ("." ++ string_of_list_ascii frac ++ expo)
  end.

(** Number.prototype.toFixed with [fractionDigits = 2].  Non-finite numbers
    print as Number::toString prints them (step 6); a negative number prints
    a minus sign and its absolute value (step 9); [-0] prints as [0.00]. *)
Definition toFixed2 (x : float) : string :=
  match Prim2SF x with
  | S754_nan => "NaN"
  | S754_infinity false => "Infinity"
  | S754_infinity true => "-Infinity"
  | S754_zero _ => "0.00"
  | S754_finite s m e =>
      (if s then "-" else "") ++
      (if 10 ^ 21 * den e <=? num m e then exponent_notation m e
       else fixed_digits (hundredths m e))
  end.

End JSNumber.

(** ** Data model ([src/types.ts]) *)

(** [CourseCategory] and [Grade] are string-literal union types; at run time
    a course loaded from the remote basket carries arbitrary strings, and the
    aggregation code compares them with [===].  They stay strings here. *)
Definition CommonRequired : string := "共同必修".
Definition DeptRequired : string := "系訂必修".
Definition DesignatedElective : string := "指定選修".
Definition GeneralElective : string := "一般選修".
Definition GeneralEducation : string := "通識".
Definition PhysicalEducation : string := "體育".
Definition Other : string := "其他".

(** [isCurrent?: boolean] is an optional field: [None] is the absent field. *)
Record Course : Type := {
  id : string;
  semester : string;
  name : string;
  credits : float;
  category : string;
  grade : string;
  isCurrent : option bool
}.

(** Truthiness of [course.isCurrent] in [if (course.isCurrent)]. *)
Definition truthy (b : option bool) : bool :=
  match b with
  | Some true => true
  | _ => false
  end.

Definition GRADE_POINTS : list (string * float) :=
  [ ("A+", 4.3); ("A", 4.0); ("A-", 3.7);
    ("B+", 3.3); ("B", 3.0); ("B-", 2.7);
    ("C+", 2.3); ("C", 2.0); ("C-", 1.7);
    ("F", 0); ("Pass", -1) ]%float.

(** [GRADE_POINTS[g]]: [None] is [undefined].  (Keys inherited from
    [Object.prototype], such as ["constructor"], yield a function or an object
    there; each of them fails [points >= 0] just as [undefined] does.) *)
Fixpoint lookup (g : string) (table : list (string * float)) : option float :=
  match table with
  | [] => None
  | (k, v) :: rest => if String.eqb k g then Some v else lookup g rest
  end.

Record GraduationRequirements : Type := {
  req_total : float;
  req_commonRequired : float;
  req_deptRequired : float;
  req_designatedElective : float;
  req_generalElective : float;
  req_generalEducation : float
}.

(** [ACCOUNTING_111_REQUIREMENTS] of [src/App.tsx]. *)
Definition ACCOUNTING_111_REQUIREMENTS : GraduationRequirements :=
  {| req_total := 133; req_commonRequired := 9; req_deptRequired := 69;
     req_designatedElective := 21; req_generalElective := 19;
     req_generalEducation := 15 |}%float.

(** ** Aggregation engine ([SummaryCard]) *)

Record Bucket : Type := { earned : float; projected : float }.

Record Totals : Type := {
  total : Bucket;
  commonRequired : Bucket;
  deptRequired : Bucket;
  designatedElective : Bucket;
  generalElective : Bucket;
  generalEducation : Bucket
}.

Definition emptyBucket : Bucket := {| earned := 0; projected := 0 |}%float.

Definition initialAcc : Totals :=
  {| total := emptyBucket; commonRequired := emptyBucket;
     deptRequired := emptyBucket; designatedElective := emptyBucket;
     generalElective := emptyBucket; generalEducation := emptyBucket |}.

(** The five property names [targetKey] ranges over. *)
Inductive TargetKey : Type :=
  | KCommonRequired | KDeptRequired | KDesignatedElective
  | KGeneralElective | KGeneralEducation.

Definition targetKey (cat : string) : TargetKey :=
  if String.eqb cat CommonRequired then KCommonRequired
  else if String.eqb cat DeptRequired then KDeptRequired
  else if String.eqb cat DesignatedElective then KDesignatedElective
  else if String.eqb cat GeneralElective then KGeneralElective
  else if String.eqb cat GeneralEducation then KGeneralEducation
  else KGeneralElective.

Definition getBucket (k : TargetKey) (acc : Totals) : Bucket :=
  match k with
  | KCommonRequired => commonRequired acc
  | KDeptRequired => deptRequired acc
  | KDesignatedElective => designatedElective acc
  | KGeneralElective => generalElective acc
  | KGeneralEducation => generalEducation acc
  end.

Definition setBucket (k : TargetKey) (b : Bucket) (acc : Totals) : Totals :=
  match k with
  | KCommonRequired =>
      {| total := total acc; commonRequired := b;
         deptRequired := deptRequired acc;
         designatedElective := designatedElective acc;
         generalElective := generalElective acc;
         generalEducation := generalEducation acc |}
  | KDeptRequired =>
      {| total := total acc; commonRequired := commonRequired acc;
         deptRequired := b;
         designatedElective := designatedElective acc;
         generalElective := generalElective acc;
         generalEducation := generalEducation acc |}
  | KDesignatedElective =>
      {| total := total acc; commonRequired := commonRequired acc;
         deptRequired := deptRequired acc;
         designatedElective := b;
         generalElective := generalElective acc;
         generalEducation := generalEducation acc |}
  | KGeneralElective =>
      {| total := total acc; commonRequired := commonRequired acc;
         deptRequired := deptRequired acc;
         designatedElective := designatedElective acc;
         generalElective := b;
         generalEducation := generalEducation acc |}
  | KGeneralEducation =>
      {| total := total acc; commonRequired := commonRequired acc;
         deptRequired := deptRequired acc;
         designatedElective := designatedElective acc;
         generalElective := generalElective acc;
         generalEducation := b |}
  end.

Definition setTotal (b : Bucket) (acc : Totals) : Totals :=
  {| total := b; commonRequired := commonRequired acc;
     deptRequired := deptRequired acc;
     designatedElective := designatedElective acc;
     generalElective := generalElective acc;
     generalEducation := generalEducation acc |}.

Definition addProjected (c : float) (b : Bucket) : Bucket :=
  {| earned := earned b; projected := (projected b + c)%float |}.

Definition addEarned (c : float) (b : Bucket) : Bucket :=
  {| earned := (earned b + c)%float; projected := projected b |}.

(** The callback of [courses.reduce]. *)
Definition reducer (acc : Totals) (course : Course) : Totals :=
  if String.eqb (category course) PhysicalEducation then acc
  else
    let k := targetKey (category course) in
    if truthy (isCurrent course) then
      let acc1 := setBucket k (addProjected (credits course) (getBucket k acc)) acc in
      setTotal (addProjected (credits course) (total acc1)) acc1
    else
      let acc1 := setBucket k (addEarned (credits course) (getBucket k acc)) acc in
      setTotal (addEarned (credits course) (total acc1)) acc1.

(** [courses.reduce(reducer, JSON.parse(JSON.stringify(initialAcc)))]: the
    accumulator starts from a fresh deep copy, so [initialAcc] itself is never
    written to. *)
Definition totals (courses : list Course) : Totals :=
  fold_left reducer courses initialAcc.

(** The four [let] accumulators of the GPA pass. *)
Record GpaPools : Type := {
  earnedPoints : float;
  earnedCredits : float;
  projectedPoints : float;
  projectedCredits : float
}.

Definition emptyPools : GpaPools :=
  {| earnedPoints := 0; earnedCredits := 0;
     projectedPoints := 0; projectedCredits := 0 |}%float.

(** [points >= 0 && course.credits > 0 && course.category !== '體育'] *)
Definition countsForGPA (course : Course) : option float :=
  match lookup (grade course) GRADE_POINTS with
  | Some points =>
      if ((0 <=? points)%float && (0 <? credits course)%float
          && negb (String.eqb (category course) PhysicalEducation))%bool
      then Some points else None
  | None => None
  end.

(** The callback of [courses.forEach]. *)
Definition gpaStep (st : GpaPools) (course : Course) : GpaPools :=
  match countsForGPA course with
  | Some points =>
      if truthy (isCurrent course) then
        {| earnedPoints := earnedPoints st;
           earnedCredits := earnedCredits st;
           projectedPoints := (projectedPoints st + points * credits course)%float;
           projectedCredits := (projectedCredits st + credits course)%float |}
      else
        {| earnedPoints := (earnedPoints st + points * credits course)%float;
           earnedCredits := (earnedCredits st + credits course)%float;
           projectedPoints := projectedPoints st;
           projectedCredits := projectedCredits st |}
  | None => st
  end.

Definition gpaPools (courses : list Course) : GpaPools :=
  fold_left gpaStep courses emptyPools.

Definition gpaString (points weight : float) : string :=
  if (0 <? weight)%float then JSNumber.toFixed2 (points / weight)%float
  else "0.00".

Definition currentGPA_of (st : GpaPools) : string :=
  gpaString (earnedPoints st) (earnedCredits st).

Definition projectedGPA_of (st : GpaPools) : string :=
  let totalProjectedPoints := (earnedPoints st + projectedPoints st)%float in
  let totalProjectedCredits := (earnedCredits st + projectedCredits st)%float in
  gpaString totalProjectedPoints totalProjectedCredits.

(** What [SummaryCard] derives from the course list before rendering. *)
Record ProgressReport : Type := {
  buckets : Totals;
  currentGPA : string;
  projectedGPA : string
}.

(** The requirements only feed the progress bars ([isMet] below); no stored
    field of the report reads them. *)
Definition computeProgress (courses : list Course)
    (requirements : GraduationRequirements) : ProgressReport :=
  {| buckets := totals courses;
     currentGPA := currentGPA_of (gpaPools courses);
     projectedGPA := projectedGPA_of (gpaPools courses) |}.

(** [renderProgressBar]: the two completion flags of one bar. *)
Definition isMet (b : Bucket) (max : float) : bool := (max <=? earned b)%float.
Definition isMetProjected (b : Bucket) (max : float) : bool :=
  (max <=? earned b + projected b)%float.

(** ** Binary64 representation of whole numbers *)

(** [z * 2^k] on positive significands ([k <= 0] leaves [z] alone). *)
Definition pshl (z : positive) (k : Z) : positive :=
  match k with
  | Zpos p => Pos.iter xO z p
  | _ => z
  end.

(** The binary64 representation of a positive integer below [2^53]: the
    significand shifted to 53 bits, the exponent lowered by as much. *)
Definition canon (sx : bool) (z : positive) : spec_float :=
  let d := Z.pos (digits2_pos z) in
  S754_finite sx (pshl z (53 - d)) (d - 53).

(** ** Whole-number credits

    Sums of binary64 numbers are exact as long as every operand and every
    partial sum is an integer below [2^53].  [Z2F] is the binary64 number of a
    non-negative integer, [unitsOf] the integer part of a non-negative
    binary64 number. *)
Definition Z2F (n : Z) : float := of_uint63 (Uint63.of_Z n).

Definition unitsOf (x : float) : Z :=
  match Prim2SF x with
  | S754_finite false m e =>
      if 0 <=? e then Z.pos m * 2 ^ e else Z.pos m / 2 ^ (- e)
  | _ => 0
  end.

Definition wholeNumber (x : float) : Prop := x = Z2F (unitsOf x).

(** Courses that reach the credit accumulators (everything but 體育). *)
Definition creditBearing (course : Course) : bool :=
  negb (String.eqb (category course) PhysicalEducation).

Definition unitSum (courses : list Course) : Z :=
  fold_right (fun c acc => unitsOf (credits c) + acc) 0 courses.

Definition TargetKey_eqb (a b : TargetKey) : bool :=
  match a, b with
  | KCommonRequired, KCommonRequired
  | KDeptRequired, KDeptRequired
  | KDesignatedElective, KDesignatedElective
  | KGeneralElective, KGeneralElective
  | KGeneralEducation, KGeneralEducation => true
  | _, _ => false
  end.

(** The courses added to the [earned] ([cur = false]) or [projected]
    ([cur = true]) sum of [total], and of bucket [k]. *)
Definition inTotal (cur : bool) (course : Course) : bool :=
  creditBearing course && Bool.eqb (truthy (isCurrent course)) cur.

Definition inBucket (k : TargetKey) (cur : bool) (course : Course) : bool :=
  inTotal cur course && TargetKey_eqb (targetKey (category course)) k.

(** The courses that enter the earned ([cur = false]) or the projected
    ([cur = true]) grade-point pool. *)
Definition inPool (cur : bool) (course : Course) : bool :=
  match countsForGPA course with
  | Some _ => Bool.eqb (truthy (isCurrent course)) cur
  | None => false
  end.

(** The accumulator after a list of whole-credit courses: every field is the
    binary64 number of the integer sum of the credits that went into it. *)
Definition wholeTotals (l : list Course) (acc : Totals) : Prop :=
  (forall (k : TargetKey) (cur : bool),
      (if cur then projected else earned) (getBucket k acc)
      = Z2F (unitSum (filter (inBucket k cur) l))) /\
  (forall cur : bool,
      (if cur then projected else earned) (total acc)
      = Z2F (unitSum (filter (inTotal cur) l))).

(** The two halves of the GPA state evolve independently of each other, and
    each only reads the courses of its own pool. *)
Definition poolPart (cur : bool) (st : GpaPools) : float * float :=
  if cur then (projectedPoints st, projectedCredits st)
  else (earnedPoints st, earnedCredits st).

(** The closed sets of the data model. *)
Definition letter_grades : list string :=
  ["A+"; "A"; "A-"; "B+"; "B"; "B-"; "C+"; "C"; "C-"; "F"].

Definition credit_categories : list string :=
  [CommonRequired; DeptRequired; DesignatedElective; GeneralElective;
   GeneralEducation].

Definition known_categories : list string :=
  credit_categories ++ [PhysicalEducation; Other].

(** Sum of one field over the five credit-bearing buckets, in the order the
    bars are rendered. *)
Definition sumBuckets (field : Bucket -> float) (t : Totals) : float :=
  (field (commonRequired t) + field (deptRequired t)
   + field (designatedElective t) + field (generalElective t)
   + field (generalEducation t))%float.

(** ** Chronological ordering ([CourseTable]) *)

Definition isDigit (c : ascii) : bool :=
  ((48 <=? nat_of_ascii c) && (nat_of_ascii c <=? 57))%nat.

(** [sem.split(/[^0-9]/)]: every non-digit character is a separator, so the
    result always has one more piece than there are separators. *)
Fixpoint split (s : string) : list string :=
  match s with
  | EmptyString => [EmptyString]
  | String c rest =>
      if isDigit c then
        match split rest with
        | tok :: toks => String c tok :: toks
        | [] => [String c EmptyString]
        end
      else EmptyString :: split rest
  end.

Definition digitValue (c : ascii) : Z := Z.of_nat (nat_of_ascii c) - 48.

(** The mathematical integer written by the leading decimal digits. *)
Fixpoint parseDigits (acc : Z) (s : string) : Z :=
  match s with
  | String c rest => if isDigit c then parseDigits (10 * acc + digitValue c) rest else acc
  | EmptyString => acc
  end.

(** The Number value of a non-negative mathematical integer: the nearest
    binary64 number, ties to even, and Infinity beyond the range. *)
Definition numberOf (z : Z) : float := SF2Prim (JSNumber.Z2SF z).

(** [parseInt(tok, 10)] on a piece produced by [split] (no white space, no
    sign): NaN when the piece does not start with a digit, otherwise the
    Number of the integer written by its leading digits.  An integer of
    sixteen or more digits is rounded (9007199254740993 reads as
    9007199254740992), and one of 309 or more digits is Infinity.  (ECMA-262
    lets an implementation replace the digits after the twentieth by zeros
    before rounding; the rounding of the integer itself is taken here.) *)
Definition parseInt (tok : string) : float :=
  match tok with
  | String c _ => if isDigit c then numberOf (parseDigits 0 tok) else nan
  | EmptyString => nan
  end.

(** [.map(s => parseInt(s, 10)).filter(n => !isNaN(n))] *)
Definition numbers (toks : list string) : list float :=
  filter (fun n => negb (PrimFloat.is_nan n)) (map parseInt toks).

(** [arr[i] || 0]: an index past the end reads [undefined]; [undefined],
    NaN, 0 and -0 are falsy. *)
Definition orZero (l : list float) (i : nat) : float :=
  match nth_error l i with
  | Some v =>
      if (PrimFloat.is_nan v || PrimFloat.is_zero v)%bool then 0%float else v
  | None => 0%float
  end.

Definition yearOf (sem : string) : float := orZero (numbers (split sem)) 0.
Definition termOf (sem : string) : float := orZero (numbers (split sem)) 1.

(** [!==] on two Numbers is the negation of the binary64 equality (NaN
    differs from itself, 0 equals -0), and [-] is the binary64
    subtraction: Infinity - Infinity is NaN. *)
Definition compareSemesters (semA semB : string) : float :=
  let splitA := numbers (split semA) in
  let splitB := numbers (split semB) in
  let yearA := orZero splitA 0 in
  let yearB := orZero splitB 0 in
  if negb (yearA =? yearB)%float then (yearA - yearB)%float
  else
    let termA := orZero splitA 1 in
    let termB := orZero splitB 1 in
    (termA - termB)%float.

(** The binary64 representation of an integer of magnitude below [2^53]. *)
Definition signedCanon (z : Z) : spec_float :=
  match z with
  | 0 => S754_zero false
  | Z.pos p => canon false p
  | Z.neg p => canon true p
  end.

(** The integers written by the pieces that start with a digit. *)
Fixpoint tokenValues (toks : list string) : list Z :=
  match toks with
  | [] => []
  | tok :: rest =>
      match tok with
      | String c _ =>
          if isDigit c then parseDigits 0 tok :: tokenValues rest
          else tokenValues rest
      | EmptyString => tokenValues rest
      end
  end.

(** The numeric tokens of a label, read off directly: the values of its
    maximal runs of decimal digits, from left to right.  [open] is the value
    of the run being read, if any. *)
Fixpoint digitRuns (open : option Z) (s : string) : list Z :=
  match s with
  | EmptyString =>
      match open with
      | Some n => [n]
      | None => []
      end
  | String c rest =>
      if isDigit c then
        let n := match open with Some n => n | None => 0 end in
        digitRuns (Some (10 * n + digitValue c)) rest
      else
        match open with
        | Some n => n :: digitRuns None rest
        | None => digitRuns None rest
        end
  end.

Fixpoint hasDigit (s : string) : bool :=
  match s with
  | EmptyString => false
  | String c rest => isDigit c || hasDigit rest
  end.

(** The integers written by the first and by the second digit run of a
    label, 0 when the run is missing. *)
Definition yearNumber (sem : string) : Z := nth 0 (digitRuns None sem) 0.
Definition termNumber (sem : string) : Z := nth 1 (digitRuns None sem) 0.

(** Labels whose year and term are held exactly by a binary64 number: both
    below [2^53], as every number of up to fifteen digits is. *)
Definition exactLabel (sem : string) : bool :=
  (yearNumber sem <? 2 ^ 53) && (termNumber sem <? 2 ^ 53).

(** The parse the specification describes: the label is cut once, at its
    first run of non-digit characters; the piece before the cut is the year
    token and the piece after it the term token, and a token that does not
    start with a digit counts as 0. *)
Fixpoint afterDigits (s : string) : string :=
  match s with
  | String c rest => if isDigit c then afterDigits rest else s
  | EmptyString => EmptyString
  end.

Fixpoint afterSeparators (s : string) : string :=
  match s with
  | String c rest => if isDigit c then s else afterSeparators rest
  | EmptyString => EmptyString
  end.

Definition specYear (sem : string) : Z := parseDigits 0 sem.
Definition specTerm (sem : string) : Z :=
  parseDigits 0 (afterSeparators (afterDigits sem)).

(** What the comparator of [renderSection] returns: the difference computed
    by [compareSemesters], or the number returned by [localeCompare]. *)
Inductive CompareResult : Type :=
  | SemesterDifference (d : float)
  | NameOrder (z : Z).

(** How [Array.prototype.sort] reads a comparator result (ECMA-262,
    SortCompare): NaN is read as +0, and of a number only its sign matters. *)
Definition sortCompare (v : CompareResult) : Z :=
  match v with
  | SemesterDifference d =>
      if (d <? 0)%float then -1 else if (0 <? d)%float then 1 else 0
  | NameOrder z => z
  end.

Definition notANumber (v : CompareResult) : bool :=
  match v with
  | SemesterDifference d => PrimFloat.is_nan d
  | NameOrder _ => false
  end.

Section Ordering.

(** [String.prototype.localeCompare] is supplied by the host's collation:
    negative, zero or positive. *)
Variable localeCompare : string -> string -> Z.

(** The comparator of [renderSection]. *)
Definition compareForDisplay (a b : Course) : CompareResult :=
  let semDiff := compareSemesters (semester a) (semester b) in
  if negb (semDiff =? 0)%float then SemesterDifference semDiff
  else NameOrder (localeCompare (name a) (name b)).

(** [Array.prototype.sort] is stable (ECMAScript 2019): a later element
    overtakes an earlier one only when the comparator says the earlier one
    comes after it.  For a consistent comparator every stable sort returns
    the same list; insertion from the right is taken as its definition. *)
Fixpoint insert (x : Course) (sorted : list Course) : list Course :=
  match sorted with
  | [] => [x]
  | y :: rest =>
      if sortCompare (compareForDisplay x y) <=? 0 then x :: sorted
      else y :: insert x rest
  end.

Definition sort (courses : list Course) : list Course :=
  fold_right insert [] courses.

End Ordering.

(** A collation used to run examples: byte-wise lexicographic order. *)
Definition byteCompare (a b : string) : Z :=
  match String.compare a b with
  | Lt => -1
  | Eq => 0
  | Gt => 1
  end.

(** ** Editing ([App]) *)

(** [prev.map((c) => (c.id === updatedCourse.id ? updatedCourse : c))] *)
Definition handleUpdateCourse (updatedCourse : Course) (prev : list Course)
    : list Course :=
  map (fun c => if String.eqb (id c) (id updatedCourse) then updatedCourse else c)
      prev.

(** ** Sample courses *)

Definition mkCourse (i sem n : string) (cr : float) (cat g : string)
    (cur : option bool) : Course :=
  {| id := i; semester := sem; name := n; credits := cr; category := cat;
     grade := g; isCurrent := cur |}.

Definition sample_calculus : Course :=
  mkCourse "a" "111-1" "Calculus" 3 CommonRequired "B+" None.
Definition sample_swimming : Course :=
  mkCourse "pe" "112-1" "Swimming" 4 PhysicalEducation "A" (Some true).
Definition sample_service : Course :=
  mkCourse "b" "111-2" "Service Learning" 7 CommonRequired "Pass" None.
Definition sample_legacy : Course :=
  mkCourse "u" "110-2" "Seminar" 2 "Unknown" "A" (Some false).
Definition sample_internship : Course :=
  mkCourse "i" "113-1" "Internship" 6 DeptRequired "A" (Some true).
Definition sample_legacy_current : Course :=
  mkCourse "v" "113-1" "Field Work" 4 "Unknown" "A" (Some true).

(** Completed courses with fractional credits, in two buckets. *)
Definition fractional_courses : list Course :=
  [ mkCourse "f1" "112-1" "Workshop I" 0.3 DeptRequired "Pass" None;
    mkCourse "f2" "112-1" "Workshop II" 0.2 CommonRequired "Pass" None;
    mkCourse "f3" "112-2" "Workshop III" 0.1 CommonRequired "Pass" None ].

(** Three completed courses whose grade points average to 3.925. *)
Definition tie_courses : list Course :=
  [ mkCourse "t1" "111-1" "Economics" 1 DeptRequired "A+" None;
    mkCourse "t2" "111-1" "Statistics" 1 DeptRequired "A" None;
    mkCourse "t3" "111-2" "Commercial Law" 2 DeptRequired "A-" None ].

Definition tie_courses_reordered : list Course :=
  [ mkCourse "t3" "111-2" "Commercial Law" 2 DeptRequired "A-" None;
    mkCourse "t1" "111-1" "Economics" 1 DeptRequired "A+" None;
    mkCourse "t2" "111-1" "Statistics" 1 DeptRequired "A" None ].

(** Two labels that start with letters, and a label whose year and term
    both exceed the binary64 range. *)
Definition prefixed_later : Course :=
  mkCourse "p1" "AY111-2" "Algebra" 3 DeptRequired "A" None.
Definition prefixed_earlier : Course :=
  mkCourse "p2" "AY111-1" "Biology" 3 DeptRequired "A" None.

Fixpoint nines (k : nat) : string :=
  match k with
  | O => EmptyString
  | S k' => String "9" (nines k')
  end.

Definition overflowing_course : Course :=
  mkCourse "o1" (nines 400 ++ "-" ++ nines 400) "Archive" 3 DeptRequired "A" None.

(** The same term written with two different separators. *)
Definition dash_label_course : Course :=
  mkCourse "d1" "111-1" "Calculus" 3 CommonRequired "A" None.
Definition slash_label_course : Course :=
  mkCourse "d2" "111/1" "Calculus" 3 CommonRequired "B" None.

(** ** Course list operations ([App]) *)

(** [setCourses((prev) => [...prev, course])] *)
Definition handleAddCourse (course : Course) (prev : list Course) : list Course :=
  prev ++ [course].


(** [confirmed] is the answer to [window.confirm]. *)
Definition handleDeleteCourse (confirmed : bool) (i : string) (prev : list Course)
    : list Course :=
  if confirmed then filter (fun c => negb (String.eqb (id c) i)) prev else prev.

(** ** Row editing ([CourseTable]) *)

(** A call [handleEditChange(field, value)]: the key and the value it sets.
    The table's inputs issue every key but [id]. *)
Inductive CourseField : Type :=
  | FId (v : string)
  | FSemester (v : string)
  | FName (v : string)
  | FCredits (v : float)
  | FCategory (v : string)
  | FGrade (v : string)
  | FIsCurrent (v : bool).

(** [{ ...course, [field]: value }] *)
Definition setField (c : Course) (f : CourseField) : Course :=
  match f with
  | FId v => mkCourse v (semester c) (name c) (credits c) (category c) (grade c) (isCurrent c)
  | FSemester v => mkCourse (id c) v (name c) (credits c) (category c) (grade c) (isCurrent c)
  | FName v => mkCourse (id c) (semester c) v (credits c) (category c) (grade c) (isCurrent c)
  | FCredits v => mkCourse (id c) (semester c) (name c) v (category c) (grade c) (isCurrent c)
  | FCategory v => mkCourse (id c) (semester c) (name c) (credits c) v (grade c) (isCurrent c)
  | FGrade v => mkCourse (id c) (semester c) (name c) (credits c) (category c) v (isCurrent c)
  | FIsCurrent v => mkCourse (id c) (semester c) (name c) (credits c) (category c) (grade c) (Some v)
  end.

Definition touchesId (f : CourseField) : bool :=
  match f with
  | FId _ => true
  | _ => false
  end.

Record EditState : Type := {
  editingId : option string;
  editValues : option Course
}.

Definition startEdit (course : Course) : EditState :=
  {| editingId := Some (id course); editValues := Some course |}.

Definition cancelEdit : EditState :=
  {| editingId := None; editValues := None |}.

Definition handleEditChange (f : CourseField) (st : EditState) : EditState :=
  match editValues st with
  | Some v => {| editingId := editingId st; editValues := Some (setField v f) |}
  | None => st
  end.

(** [saveEdit] hands the edited copy to [onUpdate], which is
    [handleUpdateCourse], and closes the editor. *)
Definition saveEdit (st : EditState) (courses : list Course)
    : EditState * list Course :=
  match editValues st with
  | Some v => (cancelEdit, handleUpdateCourse v courses)
  | None => (st, courses)
  end.

(** ** Grouping and sections ([CourseTable]) *)

(** The keys of the [groupedCourses] literal, in source order. *)
Definition groupKeys : list string :=
  [CommonRequired; DeptRequired; DesignatedElective; GeneralElective;
   GeneralEducation; PhysicalEducation; Other].

(** [groupedCourses] is an ordinary object, so a key it does not own is
    looked up on [Object.prototype].  These are the property names of
    [Object.prototype] (ECMA-262, with Annex B); each holds a function or an
    object, all truthy, none with a [push] method. *)
Definition objectPrototypeKeys : list string :=
  ["constructor"; "hasOwnProperty"; "isPrototypeOf"; "propertyIsEnumerable";
   "toLocaleString"; "toString"; "valueOf"; "__proto__";
   "__defineGetter__"; "__defineSetter__"; "__lookupGetter__";
   "__lookupSetter__"].

Definition memberb (k : string) (keys : list string) : bool :=
  existsb (String.eqb k) keys.

Definition Groups : Type := list (string * list Course).

Definition emptyGroups : Groups := map (fun k => (k, [])) groupKeys.

(** [groups[key].push(course)] on an own key. *)
Fixpoint pushInto (key : string) (course : Course) (groups : Groups) : Groups :=
  match groups with
  | [] => []
  | (k, l) :: rest =>
      if String.eqb k key then (k, (l ++ [course])%list) :: rest
      else (k, l) :: pushInto key course rest
  end.

(** The callback of [courses.forEach]; [None] is the TypeError raised by
    calling the missing [push] of an inherited property. *)
Definition groupStep (groups : Groups) (course : Course) : option Groups :=
  if memberb (category course) groupKeys then
    Some (pushInto (category course) course groups)
  else if memberb (category course) objectPrototypeKeys then None
  else Some (pushInto Other course groups).

Fixpoint groupFrom (groups : Groups) (courses : list Course) : option Groups :=
  match courses with
  | [] => Some groups
  | c :: rest =>
      match groupStep groups c with
      | Some groups' => groupFrom groups' rest
      | None => None
      end
  end.

Definition groupedCourses (courses : list Course) : option Groups :=
  groupFrom emptyGroups courses.

(** [groupedCourses[category]] for an own key. *)
Fixpoint groupOf (key : string) (groups : Groups) : list Course :=
  match groups with
  | [] => []
  | (k, l) :: rest => if String.eqb k key then l else groupOf key rest
  end.

(** The order of the [renderSection] calls. *)
Definition sectionOrder : list string :=
  [CommonRequired; PhysicalEducation; DeptRequired; DesignatedElective;
   GeneralElective; GeneralEducation; Other].

(** What the table shows: the empty notice, or the rendered sections, each
    with its category and its rows. *)
Inductive TableView : Type :=
  | NoRecords
  | Sections (sections : list (string * list Course)).

Section Table.

Variable localeCompare : string -> string -> Z.

(** [renderSection]: [None] is the [null] returned for an empty category. *)
Definition renderSection (groups : Groups) (category : string)
    : option (string * list Course) :=
  let categoryCourses := sort localeCompare (groupOf category groups) in
  match categoryCourses with
  | [] => None
  | _ => Some (category, categoryCourses)
  end.

Fixpoint renderSections (groups : Groups) (categories : list string)
    : list (string * list Course) :=
  match categories with
  | [] => []
  | k :: rest =>
      match renderSection groups k with
      | Some section => section :: renderSections groups rest
      | None => renderSections groups rest
      end
  end.

(** The body of [CourseTable]; [None] is a render aborted by the TypeError. *)
Definition courseTable (courses : list Course) : option TableView :=
  match courses with
  | [] => Some NoRecords
  | _ =>
      match groupedCourses courses with
      | Some groups => Some (Sections (renderSections groups sectionOrder))
      | None => None
      end
  end.

End Table.

Definition rowsOf (view : TableView) : list Course :=
  match view with
  | NoRecords => []
  | Sections sections => List.concat (map snd sections)
  end.

(** ** Views of the accumulators *)

(** The [earned] ([cur = false]) or [projected] ([cur = true]) number of a
    bucket, and those numbers for the total and the five buckets. *)
Definition sideOf (cur : bool) (b : Bucket) : float :=
  if cur then projected b else earned b.

Definition sideView (cur : bool) (acc : Totals) : list float :=
  [sideOf cur (total acc); sideOf cur (commonRequired acc);
   sideOf cur (deptRequired acc); sideOf cur (designatedElective acc);
   sideOf cur (generalElective acc); sideOf cur (generalEducation acc)].

(** Whether the GPA pass reads the course at all. *)
Definition gpaCounted (course : Course) : bool :=
  match countsForGPA course with
  | Some _ => true
  | None => false
  end.

Definition inProgress (course : Course) : bool := truthy (isCurrent course).
Definition completed (course : Course) : bool := negb (truthy (isCurrent course)).

(** A binary64 number without the sign bit: +0, a positive number,
    +Infinity (or NaN), but not -0. *)
Definition SFsignClear (x : spec_float) : bool :=
  match x with
  | S754_zero s | S754_infinity s | S754_finite s _ _ => negb s
  | S754_nan => true
  end.

Definition signClear (x : float) : bool := SFsignClear (Prim2SF x).

Definition poolsSignClear (st : GpaPools) : bool :=
  signClear (earnedPoints st) && signClear (earnedCredits st)
  && signClear (projectedPoints st) && signClear (projectedCredits st).

(** The section a course is listed under: its own category when that is one
    of the seven keys, 其他 otherwise. *)
Definition displayKey (course : Course) : string :=
  if memberb (category course) groupKeys then category course else Other.

(** Whether a section is rendered: its group is not empty. *)
Definition hasRows (groups : Groups) (k : string) : bool :=
  match groupOf k groups with
  | [] => false
  | _ => true
  end.

(** The categories under which at least one course is listed, in the order
    of the sections. *)
Definition shownCategories (courses : list Course) : list string :=
  filter (fun k => existsb (fun c => String.eqb (displayKey c) k) courses)
         sectionOrder.

(** ** Transcript import ([TranscriptImportModal]) *)

(** One element of the JSON array returned by the extraction call, as far as
    the mapping reads it; [None] is a missing property. *)
Module Item.
Record t : Type := {
  semester : option string;
  name : option string;
  credits : option float;
  grade : option string
}.
End Item.

(** [ParsedCourse], the row type of the review stage. *)
Module Parsed.
Record t : Type := {
  tempId : string;
  semester : string;
  name : string;
  credits : float;
  grade : string;
  category : string;
  isCurrent : bool
}.
End Parsed.

(** A call [handleFieldChange(id, field, value)]: the key and its value.
    The review table's inputs issue every key but [tempId]. *)
Inductive ParsedField : Type :=
  | PTempId (v : string)
  | PSemester (v : string)
  | PName (v : string)
  | PCredits (v : float)
  | PGrade (v : string)
  | PCategory (v : string)
  | PIsCurrent (v : bool).

(** [{ ...c, [field]: value }] *)
Definition setParsedField (c : Parsed.t) (f : ParsedField) : Parsed.t :=
  match f with
  | PTempId v =>
      Parsed.Build_t v (Parsed.semester c) (Parsed.name c) (Parsed.credits c)
        (Parsed.grade c) (Parsed.category c) (Parsed.isCurrent c)
  | PSemester v =>
      Parsed.Build_t (Parsed.tempId c) v (Parsed.name c) (Parsed.credits c)
        (Parsed.grade c) (Parsed.category c) (Parsed.isCurrent c)
  | PName v =>
      Parsed.Build_t (Parsed.tempId c) (Parsed.semester c) v (Parsed.credits c)
        (Parsed.grade c) (Parsed.category c) (Parsed.isCurrent c)
  | PCredits v =>
      Parsed.Build_t (Parsed.tempId c) (Parsed.semester c) (Parsed.name c) v
        (Parsed.grade c) (Parsed.category c) (Parsed.isCurrent c)
  | PGrade v =>
      Parsed.Build_t (Parsed.tempId c) (Parsed.semester c) (Parsed.name c)
        (Parsed.credits c) v (Parsed.category c) (Parsed.isCurrent c)
  | PCategory v =>
      Parsed.Build_t (Parsed.tempId c) (Parsed.semester c) (Parsed.name c)
        (Parsed.credits c) (Parsed.grade c) v (Parsed.isCurrent c)
  | PIsCurrent v =>
      Parsed.Build_t (Parsed.tempId c) (Parsed.semester c) (Parsed.name c)
        (Parsed.credits c) (Parsed.grade c) (Parsed.category c) v
  end.

(** The [valid] array of [mapGrade] and the markers of its last test. *)
Definition validGrades : list string := letter_grades ++ ["Pass"].
Definition passMarkers : list string := ["通過"; "免修"; "抵免"; "P"; "PASS"].

(** [s.includes(sub)] *)
Fixpoint includes (s sub : string) : bool :=
  if String.prefix sub s then true
  else
    match s with
    | EmptyString => false
    | String _ rest => includes rest sub
    end.

(** [value || fallback] on a string that may be missing: the empty string is
    falsy. *)
Definition orString (value : option string) (fallback : string) : string :=
  match value with
  | None | Some EmptyString => fallback
  | Some v => v
  end.

(** [Number(value) || 0] on a number that may be missing: [Number(undefined)]
    is NaN, and NaN, 0 and -0 are falsy. *)
Definition numberOrZero (value : option float) : float :=
  match value with
  | None => 0%float
  | Some v => if (PrimFloat.is_nan v || PrimFloat.is_zero v)%bool then 0%float else v
  end.

(** A number in a template literal: an integer below [10^21] prints in
    decimal notation. *)
Definition numberString (z : Z) : string :=
  if z <? 0 then "-" ++ Decimal10.digits (- z) else Decimal10.digits z.

Fixpoint allDigits (s : string) : bool :=
  match s with
  | EmptyString => true
  | String c rest => isDigit c && allDigits rest
  end.

Section TranscriptImport.

(** [String.prototype.trim] and [String.prototype.toUpperCase] are the
    host's; [clock idx] is what [Date.now()] returns while the element at
    [idx] is mapped, and [generateId k] what the [k]-th call of [generateId]
    returns. *)
Variable trim : string -> string.
Variable toUpperCase : string -> string.
Variable clock : nat -> Z.
Variable generateId : nat -> string.

Definition mapGrade (raw : option string) : string :=
  match raw with
  | None | Some EmptyString => "Pass"
  | Some r =>
      let g := toUpperCase (trim r) in
      if memberb g validGrades then g
      else if existsb (fun x => includes g x) passMarkers then "Pass"
      else "Pass"
  end.

(** The callback of [data.map] in [handleAnalyze]. *)
Definition mapItem (item : Item.t) (idx : nat) : Parsed.t :=
  {| Parsed.tempId :=
       "parsed-" ++ numberString (Z.of_nat idx) ++ "-" ++ numberString (clock idx);
     Parsed.semester := orString (Item.semester item) "111-1";
     Parsed.name := orString (Item.name item) "Unknown Course";
     Parsed.credits := numberOrZero (Item.credits item);
     Parsed.grade := mapGrade (Item.grade item);
     Parsed.category := GeneralElective;
     Parsed.isCurrent := false |}.

Fixpoint mapItemsFrom (idx : nat) (data : list Item.t) : list Parsed.t :=
  match data with
  | [] => []
  | item :: rest => mapItem item idx :: mapItemsFrom (S idx) rest
  end.

(** The rows [handleAnalyze] hands to the review stage; [None] is the
    "No courses found" error raised on an empty array. *)
Definition analyzedRows (data : list Item.t) : option (list Parsed.t) :=
  match data with
  | [] => None
  | _ => Some (mapItemsFrom 0 data)
  end.

Definition handleFieldChange (i : string) (f : ParsedField)
    (prev : list Parsed.t) : list Parsed.t :=
  map (fun c => if String.eqb (Parsed.tempId c) i then setParsedField c f else c)
      prev.

Definition handleRemoveRow (i : string) (prev : list Parsed.t) : list Parsed.t :=
  filter (fun c => negb (String.eqb (Parsed.tempId c) i)) prev.

(** [c.name && !isNaN(c.credits)] *)
Definition validRow (c : Parsed.t) : bool :=
  negb (String.eqb (Parsed.name c) "") && negb (PrimFloat.is_nan (Parsed.credits c)).

Definition toCourse (c : Parsed.t) (newId : string) : Course :=
  mkCourse newId (Parsed.semester c) (Parsed.name c) (Parsed.credits c)
    (Parsed.category c) (Parsed.grade c) (Some (Parsed.isCurrent c)).

Fixpoint toCoursesFrom (k : nat) (rows : list Parsed.t) : list Course :=
  match rows with
  | [] => []
  | c :: rest => toCourse c (generateId k) :: toCoursesFrom (S k) rest
  end.

(** [finalCourses] of [handleConfirmImport]. *)
Definition finalCourses (parsedCourses : list Parsed.t) : list Course :=
  toCoursesFrom 0 (filter validRow parsedCourses).


End TranscriptImport.

(** The six inputs of a review row call [handleFieldChange] with the fields
    semester, name, credits, grade, category and isCurrent - never with
    [tempId]. *)
Definition editsTempId (f : ParsedField) : bool :=
  match f with
  | PTempId _ => true
  | _ => false
  end.

(** The states of [parsedCourses]: the empty list (initially and after the
    modal is closed), the rows set by an analysis, and what field changes
    and row removals make of them. *)
Inductive reviewTable (trim toUpperCase : string -> string)
    : list Parsed.t -> Prop :=
  | cleared : reviewTable trim toUpperCase []
  | analysed (clock : nat -> Z) (data : list Item.t) :
      reviewTable trim toUpperCase (mapItemsFrom trim toUpperCase clock 0 data)
  | fieldChanged (rows : list Parsed.t) (i : string) (f : ParsedField) :
      reviewTable trim toUpperCase rows -> editsTempId f = false ->
      reviewTable trim toUpperCase (handleFieldChange i f rows)
  | rowRemoved (rows : list Parsed.t) (i : string) :
      reviewTable trim toUpperCase rows ->
      reviewTable trim toUpperCase (handleRemoveRow i rows).

(** Host functions used to run examples: ASCII letters to upper case, and
    blanks stripped at both ends. *)
Definition asciiUpperChar (c : ascii) : ascii :=
  let n := nat_of_ascii c in
  if ((97 <=? n) && (n <=? 122))%nat then ascii_of_nat (n - 32) else c.

Fixpoint asciiUpper (s : string) : string :=
  match s with
  | EmptyString => EmptyString
  | String c rest => String (asciiUpperChar c) (asciiUpper rest)
  end.

Fixpoint dropBlanks (s : string) : string :=
  match s with
  | String " " rest => dropBlanks rest
  | _ => s
  end.

Definition reverseString (s : string) : string :=
  string_of_list_ascii (rev (list_ascii_of_string s)).

Definition asciiTrim (s : string) : string :=
  reverseString (dropBlanks (reverseString (dropBlanks s))).

Definition sample_items : list Item.t :=
  [ {| Item.semester := Some "111-1"; Item.name := Some "Accounting";
       Item.credits := Some 3%float; Item.grade := Some " a+ " |};
    {| Item.semester := None; Item.name := Some "";
       Item.credits := None; Item.grade := Some "通過" |} ].

(** ** The GPA figures as the specification words them *)








(** * Properties *)

(** Rounding cases that separate binary64 from decimal arithmetic: 1.005 and
    9.995 lie just below the tie, 8.345 just above it. *)
Example toFixed2_examples :
  map JSNumber.toFixed2 [4.3; 1.005; 8.345; 9.995; 99.995; -0.001; 1e21]%float
  = ["4.30"; "1.00"; "8.35"; "9.99"; "100.00"; "-0.00"; "1e+21"].
Proof. vm_compute. reflexivity. Qed.

(** ** Worked example *)

(** C1: for the two-course list (3 credits A+ completed, 3 credits B in
    progress, both department-required; identifiers, semesters and names
    arbitrary) and any requirements, the report has
    [deptRequired.earned = 3], [deptRequired.projected = 3],
    [currentGPA = "4.30"] and [projectedGPA = "3.65"]. *)
Theorem example_report :
  forall (id1 sem1 name1 id2 sem2 name2 : string)
         (requirements : GraduationRequirements),
    let courses :=
      [ {| id := id1; semester := sem1; name := name1; credits := 3;
           category := DeptRequired; grade := "A+"; isCurrent := Some false |};
        {| id := id2; semester := sem2; name := name2; credits := 3;
           category := DeptRequired; grade := "B"; isCurrent := Some true |} ]%float in
    let r := computeProgress courses requirements in
    earned (deptRequired (buckets r)) = 3%float /\
    projected (deptRequired (buckets r)) = 3%float /\
    currentGPA r = "4.30" /\
    projectedGPA r = "3.65".
Proof.
  intros. subst r courses. vm_compute. repeat split.
Qed.

(** ** Exact binary64 arithmetic on whole numbers *)

Module Binary64.

Lemma iter_pos_iter {A} (f : A -> A) (p : positive) (x : A) :
  iter_pos f p x = Pos.iter f x p.
Proof.
  revert x. induction p as [p IH | p IH | ]; intros x; simpl.
  - rewrite !IH. rewrite <- Pos.iter_swap. rewrite <- Pos.iter_swap. reflexivity.
  - rewrite !IH. reflexivity.
  - reflexivity.
Qed.

Lemma pos_iter_xO (z p : positive) :
  Z.pos (Pos.iter xO z p) = Z.pos z * 2 ^ Z.pos p.
Proof.
  induction p as [ | p IH] using Pos.peano_ind.
  - simpl. lia.
  - rewrite Pos.iter_succ, Pos2Z.inj_succ, Z.pow_succ_r by lia.
    change (Z.pos (Pos.iter xO z p)~0) with (2 * Z.pos (Pos.iter xO z p)). lia.
Qed.

Lemma pshl_value (z : positive) (k : Z) :
  0 <= k -> Z.pos (pshl z k) = Z.pos z * 2 ^ k.
Proof.
  destruct k as [ | p | p]; intros Hk; simpl pshl.
  - simpl. lia.
  - apply pos_iter_xO.
  - lia.
Qed.

Lemma digits2_pos_bounds (z : positive) :
  2 ^ (Z.pos (digits2_pos z) - 1) <= Z.pos z < 2 ^ Z.pos (digits2_pos z).
Proof.
  induction z as [z IH | z IH | ]; simpl digits2_pos.
  - rewrite Pos2Z.inj_succ. change (Z.pos z~1) with (2 * Z.pos z + 1).
    replace (Z.succ (Z.pos (digits2_pos z)) - 1) with (Z.succ (Z.pos (digits2_pos z) - 1)) by lia.
    rewrite !Z.pow_succ_r by lia. lia.
  - rewrite Pos2Z.inj_succ. change (Z.pos z~0) with (2 * Z.pos z).
    replace (Z.succ (Z.pos (digits2_pos z)) - 1) with (Z.succ (Z.pos (digits2_pos z) - 1)) by lia.
    rewrite !Z.pow_succ_r by lia. lia.
  - simpl. lia.
Qed.

Lemma digits2_pos_unique (z : positive) (d : Z) :
  2 ^ (d - 1) <= Z.pos z < 2 ^ d -> Z.pos (digits2_pos z) = d.
Proof.
  intros [Hlo Hhi].
  destruct (digits2_pos_bounds z) as [Glo Ghi].
  assert (Hd : 0 < d).
  { destruct (Z_lt_le_dec 0 d) as [ | Hle]; [assumption | ].
    assert (d = 0 \/ d < 0) as [-> | Hneg] by lia.
    - simpl in Hhi. lia.
    - rewrite Z.pow_neg_r in Hhi by assumption. lia. }
  destruct (Z.lt_trichotomy (Z.pos (digits2_pos z)) d) as [Hlt | [Heq | Hgt]].
  - assert (2 ^ Z.pos (digits2_pos z) <= 2 ^ (d - 1)) by (apply Z.pow_le_mono_r; lia). lia.
  - assumption.
  - assert (2 ^ d <= 2 ^ (Z.pos (digits2_pos z) - 1)) by (apply Z.pow_le_mono_r; lia). lia.
Qed.

Lemma digits2_pos_pshl (z : positive) (k : Z) :
  0 <= k -> Z.pos (digits2_pos (pshl z k)) = Z.pos (digits2_pos z) + k.
Proof.
  intros Hk. apply digits2_pos_unique.
  rewrite pshl_value by assumption.
  destruct (digits2_pos_bounds z) as [Glo Ghi].
  replace (Z.pos (digits2_pos z) + k - 1) with ((Z.pos (digits2_pos z) - 1) + k) by lia.
  rewrite !Z.pow_add_r by lia.
  assert (0 < 2 ^ k) by (apply Z.pow_pos_nonneg; lia).
  nia.
Qed.

Lemma pshl_pshl (z : positive) (a b : Z) :
  0 <= a -> 0 <= b -> pshl (pshl z a) b = pshl z (a + b).
Proof.
  intros Ha Hb. apply Pos2Z.inj.
  rewrite !pshl_value by lia. rewrite Z.pow_add_r by lia. ring.
Qed.

Lemma shr_even (m p : positive) :
  Pos.iter shr_1 {| shr_m := Z.pos (Pos.iter xO m p); shr_r := false; shr_s := false |} p
  = {| shr_m := Z.pos m; shr_r := false; shr_s := false |}.
Proof.
  induction p as [ | p IH] using Pos.peano_ind.
  - reflexivity.
  - rewrite Pos.iter_succ_r. rewrite Pos.iter_succ. simpl shr_1. exact IH.
Qed.

(** A 53-bit significand followed by [n] zero bits rounds to itself. *)
Lemma round_aux_exact (sx : bool) (m : positive) (n E : Z) :
  Z.pos (digits2_pos m) = 53 -> 0 <= n ->
  -1074 <= E + n <= 971 ->
  binary_round_aux prec emax sx (Z.pos (pshl m n)) E loc_Exact
  = S754_finite sx m (E + n).
Proof.
  intros Hd Hn HE.
  unfold binary_round_aux.
  assert (Hshr : shr_fexp prec emax (Z.pos (pshl m n)) E loc_Exact
                 = ({| shr_m := Z.pos m; shr_r := false; shr_s := false |}, E + n)).
  { unfold shr_fexp, Zdigits2. rewrite digits2_pos_pshl by assumption. rewrite Hd.
    unfold fexp, SpecFloat.emin, prec, emax.
    replace (Z.max (53 + n + E - 53) (3 - 1024 - 53) - E) with n by lia.
    simpl shr_record_of_loc.
    destruct n as [ | p | p]; [ | | lia].
    - simpl. f_equal. lia.
    - unfold shr. rewrite iter_pos_iter. simpl pshl. rewrite shr_even. reflexivity. }
  rewrite Hshr. simpl shr_m. simpl loc_of_shr_record. simpl round_nearest_even.
  assert (Hshr2 : shr_fexp prec emax (Z.pos m) (E + n) loc_Exact
                 = ({| shr_m := Z.pos m; shr_r := false; shr_s := false |}, E + n)).
  { unfold shr_fexp, Zdigits2. rewrite Hd.
    unfold fexp, SpecFloat.emin, prec, emax.
    replace (Z.max (53 + (E + n) - 53) (3 - 1024 - 53) - (E + n)) with 0 by lia.
    reflexivity. }
  rewrite Hshr2. simpl shr_m.
  unfold prec, emax.
  destruct (Z.leb_spec (E + n) (1024 - 53)); [reflexivity | lia].
Qed.

Lemma binary_round_exact (sx : bool) (z : positive) (k : Z) :
  Z.pos z < 2 ^ 53 -> 0 <= k <= 1074 ->
  binary_round prec emax sx (pshl z k) (- k) = canon sx z.
Proof.
  intros Hz Hk.
  pose proof (digits2_pos_bounds z) as [Glo Ghi].
  assert (Hd : Z.pos (digits2_pos z) <= 53).
  { destruct (Z_le_gt_dec (Z.pos (digits2_pos z)) 53) as [ | Hgt]; [assumption | ].
    assert (2 ^ 53 <= 2 ^ (Z.pos (digits2_pos z) - 1)) by (apply Z.pow_le_mono_r; lia). lia. }
  set (d := Z.pos (digits2_pos z)) in *.
  assert (Hd0 : 0 < d) by (unfold d; lia).
  unfold binary_round.
  rewrite digits2_pos_pshl by lia. fold d.
  replace (fexp prec emax (d + k + - k)) with (d - 53)
    by (unfold fexp, SpecFloat.emin, prec, emax; lia).
  unfold shl_align.
  remember (d - 53 - - k) as t eqn:Ht.
  assert (Hm : Z.pos (digits2_pos (pshl z (53 - d))) = 53)
    by (rewrite digits2_pos_pshl by lia; fold d; lia).
  destruct t as [ | p | p].
  - replace (pshl z k) with (pshl (pshl z (53 - d)) 0)
      by (rewrite pshl_pshl by lia; f_equal; lia).
    rewrite round_aux_exact by lia.
    unfold canon. fold d. f_equal. lia.
  - replace (pshl z k) with (pshl (pshl z (53 - d)) (Z.pos p))
      by (rewrite pshl_pshl by lia; f_equal; lia).
    rewrite round_aux_exact by lia.
    unfold canon. fold d. f_equal. lia.
  - replace (Pos.iter xO (pshl z k) p) with (pshl (pshl z (53 - d)) 0).
    + rewrite round_aux_exact by lia.
      unfold canon. fold d. f_equal. lia.
    + change (Pos.iter xO (pshl z k) p) with (pshl (pshl z k) (Z.pos p)).
      rewrite !pshl_pshl by lia. f_equal. lia.
Qed.


Lemma shl_align_fst (m : positive) (e e' : Z) :
  e' <= e -> fst (shl_align m e e') = pshl m (e - e').
Proof.
  intros He. unfold shl_align.
  remember (e' - e) as t eqn:Ht.
  destruct t as [ | p | p]; simpl fst.
  - replace (e - e') with 0 by lia. reflexivity.
  - lia.
  - replace (e - e') with (Z.pos p) by lia. reflexivity.
Qed.

Lemma digits_below (z : positive) :
  Z.pos z < 2 ^ 53 -> 0 < Z.pos (digits2_pos z) <= 53.
Proof.
  intros Hz. pose proof (digits2_pos_bounds z) as [Glo Ghi].
  split; [lia | ].
  destruct (Z_le_gt_dec (Z.pos (digits2_pos z)) 53) as [ | Hgt]; [assumption | ].
  assert (2 ^ 53 <= 2 ^ (Z.pos (digits2_pos z) - 1)) by (apply Z.pow_le_mono_r; lia). lia.
Qed.

Lemma SFadd_canon (a b : positive) :
  Z.pos a + Z.pos b < 2 ^ 53 ->
  SF64add (canon false a) (canon false b) = canon false (a + b).
Proof.
  intros Hab.
  destruct (digits_below a) as [Ha0 Ha]; [lia | ].
  destruct (digits_below b) as [Hb0 Hb]; [lia | ].
  unfold SF64add, SFadd, canon.
  set (da := Z.pos (digits2_pos a)) in *.
  set (db := Z.pos (digits2_pos b)) in *.
  set (ez := Z.min (da - 53) (db - 53)).
  rewrite !shl_align_fst by (unfold ez; lia).
  rewrite !pshl_pshl by (unfold ez; lia).
  unfold cond_Zopp.
  replace (53 - da + (da - 53 - ez)) with (- ez) by lia.
  replace (53 - db + (db - 53 - ez)) with (- ez) by lia.
  assert (Hsum : Z.pos (pshl a (- ez)) + Z.pos (pshl b (- ez))
                 = Z.pos (pshl (a + b) (- ez))).
  { rewrite !pshl_value by (unfold ez; lia). rewrite Pos2Z.inj_add. ring. }
  rewrite Hsum. unfold binary_normalize.
  replace ez with (- - ez) at 2 by lia.
  apply binary_round_exact; [rewrite Pos2Z.inj_add; lia | unfold ez; lia].
Qed.

Lemma Z2SF_pos (z : positive) :
  Z.pos z < 2 ^ 53 -> binary_normalize prec emax (Z.pos z) 0 false = canon false z.
Proof.
  intros Hz. unfold binary_normalize.
  apply (binary_round_exact false z 0); [assumption | lia].
Qed.

End Binary64.


Lemma Prim2SF_Z2F (n : Z) :
  0 <= n < 2 ^ 53 -> Prim2SF (Z2F n) = binary_normalize prec emax n 0 false.
Proof.
  intros Hn. unfold Z2F. rewrite of_uint63_spec.
  rewrite Uint63.of_Z_spec. rewrite Z.mod_small; [reflexivity | ].
  unfold wB, size. simpl Z.of_nat.
  assert (2 ^ 53 < 2 ^ 63) by (apply Z.pow_lt_mono_r; lia). lia.
Qed.

Theorem Z2F_add (a b : Z) :
  0 <= a -> 0 <= b -> a + b < 2 ^ 53 -> (Z2F a + Z2F b)%float = Z2F (a + b).
Proof.
  intros Ha Hb Hab.
  apply Prim2SF_inj. rewrite FloatAxioms.add_spec.
  rewrite !Prim2SF_Z2F by lia.
  destruct a as [ | a | a]; [ | | lia]; destruct b as [ | b | b]; try lia.
  - reflexivity.
  - simpl Z.add. rewrite Binary64.Z2SF_pos by lia. reflexivity.
  - rewrite Z.add_0_r. rewrite Binary64.Z2SF_pos by lia. reflexivity.
  - rewrite !Binary64.Z2SF_pos by lia.
    rewrite <- Pos2Z.inj_add. rewrite Binary64.Z2SF_pos by (rewrite Pos2Z.inj_add; lia).
    apply Binary64.SFadd_canon. assumption.
Qed.

(** Every whole number below [2^53] is a [wholeNumber] credit value. *)
Lemma unitsOf_Z2F (n : Z) : 0 <= n < 2 ^ 53 -> unitsOf (Z2F n) = n.
Proof.
  intros Hn. unfold unitsOf. rewrite Prim2SF_Z2F by assumption.
  destruct n as [ | z | z]; [reflexivity | | lia].
  rewrite Binary64.Z2SF_pos by lia. unfold canon.
  destruct (Binary64.digits_below z ltac:(lia)) as [Hd0 Hd].
  set (d := Z.pos (digits2_pos z)) in *.
  rewrite Binary64.pshl_value by lia.
  destruct (Z.leb_spec 0 (d - 53)).
  - replace (d - 53) with 0 by lia. replace (53 - d) with 0 by lia.
    simpl. lia.
  - replace (- (d - 53)) with (53 - d) by lia.
    apply Z.div_mul. apply Z.pow_nonzero; lia.
Qed.

Lemma wholeNumber_Z2F (n : Z) : 0 <= n < 2 ^ 53 -> wholeNumber (Z2F n).
Proof. intros Hn. unfold wholeNumber. rewrite unitsOf_Z2F by assumption. reflexivity. Qed.

(** ** Aggregation: one more course *)

Lemma totals_snoc (courses : list Course) (c : Course) :
  totals (courses ++ [c]) = reducer (totals courses) c.
Proof. unfold totals. rewrite fold_left_app. reflexivity. Qed.

Lemma gpaPools_snoc (courses : list Course) (c : Course) :
  gpaPools (courses ++ [c]) = gpaStep (gpaPools courses) c.
Proof. unfold gpaPools. rewrite fold_left_app. reflexivity. Qed.

Lemma lookup_keys (g : string) (table : list (string * float)) (p : float) :
  lookup g table = Some p -> In g (map fst table).
Proof.
  induction table as [ | [k v] rest IH]; simpl; [discriminate | ].
  destruct (String.eqb_spec k g) as [-> | Hne]; intros H.
  - left; reflexivity.
  - right; apply IH; exact H.
Qed.

Lemma ungraded_not_counted (c : Course) :
  grade c = "Pass" \/ ~ In (grade c) letter_grades ->
  countsForGPA c = None.
Proof.
  intros Hg. unfold countsForGPA.
  destruct (lookup (grade c) GRADE_POINTS) as [p | ] eqn:Hl; [ | reflexivity].
  assert (Hpass : grade c = "Pass").
  { destruct Hg as [Hg | Hg]; [exact Hg | ].
    apply lookup_keys in Hl. simpl in Hl.
    destruct Hl as [H|[H|[H|[H|[H|[H|[H|[H|[H|[H|[H|[]]]]]]]]]]]];
      try (symmetry; exact H);
      exfalso; apply Hg; rewrite <- H; simpl; tauto. }
  rewrite Hpass in Hl. vm_compute in Hl. injection Hl as <-.
  reflexivity.
Qed.

(** C3: appending a 體育 course, whatever its credits and its in-progress
    flag, leaves the whole report unchanged: every bucket, the total and both
    GPA figures. *)
Theorem physical_education_ignored :
  forall (courses : list Course) (c : Course)
         (requirements : GraduationRequirements),
    category c = PhysicalEducation ->
    computeProgress (courses ++ [c]) requirements
    = computeProgress courses requirements.
Proof.
  intros courses c requirements Hpe.
  unfold computeProgress.
  rewrite totals_snoc, gpaPools_snoc.
  assert (Hr : reducer (totals courses) c = totals courses).
  { unfold reducer. rewrite Hpe, String.eqb_refl. reflexivity. }
  assert (Hg : gpaStep (gpaPools courses) c = gpaPools courses).
  { unfold gpaStep, countsForGPA. rewrite Hpe, String.eqb_refl.
    destruct (lookup (grade c) GRADE_POINTS) as [p | ]; [ | reflexivity].
    rewrite andb_false_r. reflexivity. }
  rewrite Hr, Hg. reflexivity.
Qed.

Lemma physical_education_ignored_witness :
  category sample_swimming = PhysicalEducation /\
  computeProgress ([sample_calculus] ++ [sample_swimming]) ACCOUNTING_111_REQUIREMENTS
  = computeProgress [sample_calculus] ACCOUNTING_111_REQUIREMENTS.
Proof.
  split; [reflexivity | ].
  apply (physical_education_ignored [sample_calculus] sample_swimming
           ACCOUNTING_111_REQUIREMENTS).
  reflexivity.
Defined.

(** C4: appending a course graded Pass, or graded with anything outside the
    letter grades, leaves both GPA figures unchanged, whatever its credits. *)
Theorem ungraded_course_keeps_gpa :
  forall (courses : list Course) (c : Course)
         (requirements : GraduationRequirements),
    grade c = "Pass" \/ ~ In (grade c) letter_grades ->
    currentGPA (computeProgress (courses ++ [c]) requirements)
    = currentGPA (computeProgress courses requirements) /\
    projectedGPA (computeProgress (courses ++ [c]) requirements)
    = projectedGPA (computeProgress courses requirements).
Proof.
  intros courses c requirements Hg.
  unfold computeProgress; simpl.
  rewrite gpaPools_snoc. unfold gpaStep.
  rewrite (ungraded_not_counted c Hg). split; reflexivity.
Qed.

Lemma ungraded_course_keeps_gpa_witness :
  (grade sample_service = "Pass" \/ ~ In (grade sample_service) letter_grades) /\
  currentGPA (computeProgress ([sample_calculus] ++ [sample_service])
                ACCOUNTING_111_REQUIREMENTS)
  = currentGPA (computeProgress [sample_calculus] ACCOUNTING_111_REQUIREMENTS) /\
  projectedGPA (computeProgress ([sample_calculus] ++ [sample_service])
                  ACCOUNTING_111_REQUIREMENTS)
  = projectedGPA (computeProgress [sample_calculus] ACCOUNTING_111_REQUIREMENTS).
Proof.
  split; [left; reflexivity | ].
  apply (ungraded_course_keeps_gpa [sample_calculus] sample_service
           ACCOUNTING_111_REQUIREMENTS).
  left; reflexivity.
Defined.

(** What [reducer] does with a course that is not skipped, read off the
    fields: the credits are added to one side of the bucket [targetKey]
    names and of [total], and nothing else changes. *)
Lemma reducer_credits (acc : Totals) (c : Course) (k : TargetKey) :
  category c <> PhysicalEducation -> targetKey (category c) = k ->
  (isCurrent c = Some true ->
   projected (getBucket k (reducer acc c))
   = (projected (getBucket k acc) + credits c)%float /\
   projected (total (reducer acc c)) = (projected (total acc) + credits c)%float /\
   earned (getBucket k (reducer acc c)) = earned (getBucket k acc) /\
   earned (total (reducer acc c)) = earned (total acc)) /\
  (isCurrent c <> Some true ->
   earned (getBucket k (reducer acc c))
   = (earned (getBucket k acc) + credits c)%float /\
   earned (total (reducer acc c)) = (earned (total acc) + credits c)%float /\
   projected (getBucket k (reducer acc c)) = projected (getBucket k acc) /\
   projected (total (reducer acc c)) = projected (total acc)) /\
  (forall k' : TargetKey, k' <> k -> getBucket k' (reducer acc c) = getBucket k' acc).
Proof.
  intros Hpe Hk. unfold reducer.
  destruct (String.eqb_spec (category c) PhysicalEducation); [contradiction | ].
  rewrite Hk. clear Hk Hpe.
  split; [ | split].
  - intros Hcur. rewrite Hcur. destruct k; simpl; repeat split.
  - intros Hcur.
    assert (Ht : truthy (isCurrent c) = false)
      by (destruct (isCurrent c) as [[ | ] | ]; [contradiction | reflexivity ..]).
    rewrite Ht. destruct k; simpl; repeat split.
  - intros k' Hk'.
    destruct (truthy (isCurrent c)), k, k'; simpl; try reflexivity; contradiction.
Qed.

Lemma unrecognized_targetKey (cat : string) :
  cat = Other \/ ~ In cat known_categories ->
  cat <> PhysicalEducation /\ targetKey cat = KGeneralElective.
Proof.
  intros Hcat.
  assert (Hnot : ~ In cat (credit_categories ++ [PhysicalEducation])).
  { destruct Hcat as [Ho | Hu].
    - rewrite Ho. vm_compute. intros H.
      repeat (destruct H as [H | H]; [discriminate H | ]). exact H.
    - intros H. apply Hu. unfold known_categories.
      apply in_app_or in H. apply in_or_app.
      destruct H as [H | H]; [left; exact H | right].
      destruct H as [H | []]. left; exact H. }
  assert (Hne : forall k, In k (credit_categories ++ [PhysicalEducation]) ->
                          String.eqb cat k = false).
  { intros k Hk. destruct (String.eqb_spec cat k) as [E | ]; [ | reflexivity].
    exfalso. apply Hnot. rewrite E. exact Hk. }
  split.
  - intros E. apply Hnot. rewrite E. simpl. tauto.
  - unfold targetKey.
    rewrite (Hne CommonRequired), (Hne DeptRequired),
      (Hne DesignatedElective), (Hne GeneralElective), (Hne GeneralEducation)
      by (simpl; tauto).
    reflexivity.
Qed.

(** C5: a course whose category is 其他 or no known category at all is
    credited to [generalElective] and to [total]: when it is in progress its
    credits are added to the two projected sums and the earned sums stay,
    otherwise they are added to the two earned sums and the projected sums
    stay; the four other buckets are untouched. *)
Theorem unrecognized_category_is_general_elective :
  forall (courses : list Course) (c : Course),
    category c = Other \/ ~ In (category c) known_categories ->
    let before := totals courses in
    let after := totals (courses ++ [c]) in
    (isCurrent c = Some true ->
     projected (generalElective after)
     = (projected (generalElective before) + credits c)%float /\
     projected (total after) = (projected (total before) + credits c)%float /\
     earned (generalElective after) = earned (generalElective before) /\
     earned (total after) = earned (total before)) /\
    (isCurrent c <> Some true ->
     earned (generalElective after)
     = (earned (generalElective before) + credits c)%float /\
     earned (total after) = (earned (total before) + credits c)%float /\
     projected (generalElective after) = projected (generalElective before) /\
     projected (total after) = projected (total before)) /\
    commonRequired after = commonRequired before /\
    deptRequired after = deptRequired before /\
    designatedElective after = designatedElective before /\
    generalEducation after = generalEducation before.
Proof.
  intros courses c Hcat before after. subst before after.
  rewrite totals_snoc.
  destruct (unrecognized_targetKey (category c) Hcat) as [Hpe Hk].
  destruct (reducer_credits (totals courses) c KGeneralElective Hpe Hk)
    as (Hcur & Hdone & Hrest).
  split; [exact Hcur | ]. split; [exact Hdone | ].
  split; [exact (Hrest KCommonRequired ltac:(discriminate)) | ].
  split; [exact (Hrest KDeptRequired ltac:(discriminate)) | ].
  split; [exact (Hrest KDesignatedElective ltac:(discriminate)) | ].
  exact (Hrest KGeneralEducation ltac:(discriminate)).
Qed.

Lemma unrecognized_category_is_general_elective_witness :
  (category sample_legacy_current = Other \/
   ~ In (category sample_legacy_current) known_categories) /\
  isCurrent sample_legacy_current = Some true /\
  projected (generalElective (totals ([sample_legacy] ++ [sample_legacy_current])))
  = 4%float /\
  projected (total (totals ([sample_legacy] ++ [sample_legacy_current]))) = 4%float /\
  earned (generalElective (totals ([sample_legacy] ++ [sample_legacy_current])))
  = 2%float /\
  (category sample_legacy = Other \/ ~ In (category sample_legacy) known_categories) /\
  isCurrent sample_legacy <> Some true /\
  earned (generalElective (totals ([sample_calculus] ++ [sample_legacy]))) = 2%float /\
  earned (total (totals ([sample_calculus] ++ [sample_legacy]))) = 5%float /\
  projected (total (totals ([sample_calculus] ++ [sample_legacy]))) = 0%float.
Proof.
  assert (Hc : category sample_legacy_current = Other \/
               ~ In (category sample_legacy_current) known_categories).
  { right. vm_compute. intros H.
    repeat (destruct H as [H | H]; [discriminate H | ]). exact H. }
  assert (Hcur : isCurrent sample_legacy_current = Some true) by reflexivity.
  assert (Hl : category sample_legacy = Other \/
               ~ In (category sample_legacy) known_categories).
  { right. vm_compute. intros H.
    repeat (destruct H as [H | H]; [discriminate H | ]). exact H. }
  assert (Hdone : isCurrent sample_legacy <> Some true) by discriminate.
  destruct (unrecognized_category_is_general_elective [sample_legacy]
              sample_legacy_current Hc) as (Hprojected & _).
  destruct (Hprojected Hcur) as (Hp1 & Hp2 & Hp3 & _).
  destruct (unrecognized_category_is_general_elective [sample_calculus]
              sample_legacy Hl) as (_ & Hearned & _).
  destruct (Hearned Hdone) as (He1 & He2 & _ & He4).
  split; [exact Hc | ]. split; [exact Hcur | ].
  split; [rewrite Hp1; reflexivity | ]. split; [rewrite Hp2; reflexivity | ].
  split; [rewrite Hp3; reflexivity | ].
  split; [exact Hl | ]. split; [exact Hdone | ].
  split; [rewrite He1; reflexivity | ]. split; [rewrite He2; reflexivity | ].
  rewrite He4. reflexivity.
Defined.

(** ** GPA strings *)





(** ** Editing a course *)

Lemma update_nth (u : Course) (prev : list Course) (i : nat) :
  nth_error (handleUpdateCourse u prev) i
  = option_map (fun c => if String.eqb (id c) (id u) then u else c)
               (nth_error prev i).
Proof. unfold handleUpdateCourse. apply nth_error_map. Qed.

(** C10: [handleUpdateCourse] keeps the length and the order of the list;
    position by position it puts the updated course where the identifier
    matches and keeps the old course elsewhere; the identifiers of the list
    are the same afterwards; and a list without that identifier is returned
    as it was. *)
Theorem update_replaces_matching_id :
  forall (u : Course) (prev : list Course),
    List.length (handleUpdateCourse u prev) = List.length prev /\
    (forall (i : nat) (c : Course),
        nth_error prev i = Some c ->
        (id c = id u -> nth_error (handleUpdateCourse u prev) i = Some u) /\
        (id c <> id u -> nth_error (handleUpdateCourse u prev) i = Some c)) /\
    map id (handleUpdateCourse u prev) = map id prev /\
    ((forall c : Course, In c prev -> id c <> id u) ->
     handleUpdateCourse u prev = prev).
Proof.
  intros u prev. repeat split.
  - unfold handleUpdateCourse. apply length_map.
  - intros Heq. rewrite update_nth, H. simpl.
    rewrite Heq, String.eqb_refl. reflexivity.
  - intros Hne. rewrite update_nth, H. simpl.
    destruct (String.eqb_spec (id c) (id u)); [contradiction | reflexivity].
  - unfold handleUpdateCourse. rewrite map_map. apply map_ext.
    intros c. destruct (String.eqb_spec (id c) (id u)) as [E | ];
      [symmetry; exact E | reflexivity].
  - intros Hfresh. unfold handleUpdateCourse.
    rewrite <- (map_id prev) at 2. apply map_ext_in.
    intros c Hc. destruct (String.eqb_spec (id c) (id u)) as [E | ];
      [exfalso; exact (Hfresh c Hc E) | reflexivity].
Qed.

Lemma update_replaces_matching_id_witness :
  let u := mkCourse "b" "111-2" "Service Learning" 1 CommonRequired "A" None in
  nth_error [sample_calculus; sample_service; sample_legacy] 1 = Some sample_service /\
  id sample_service = id u /\
  nth_error (handleUpdateCourse u [sample_calculus; sample_service; sample_legacy]) 1
  = Some u.
Proof.
  intros u.
  assert (H : nth_error [sample_calculus; sample_service; sample_legacy] 1
              = Some sample_service) by reflexivity.
  split; [exact H | ]. split; [reflexivity | ].
  destruct (update_replaces_matching_id u
              [sample_calculus; sample_service; sample_legacy])
    as (_ & Hnth & _).
  destruct (Hnth 1%nat sample_service H) as [Hsame _].
  apply Hsame. reflexivity.
Defined.

(** ** Bucket sums against the total *)

(** C2 as stated fails on fractional credits.  With 0.3 credits in
    [deptRequired] followed by 0.2 and 0.1 credits in [commonRequired],
    [total.earned] is accumulated as (0.3 + 0.2) + 0.1 = 0.6, while the
    buckets hold 0.2 + 0.1 = 0.30000000000000004 and 0.3, whose sum is
    0.6000000000000001 (the three other buckets are 0). *)
Lemma bucket_sum_differs_from_total :
  earned (total (totals fractional_courses)) = 0.6%float /\
  earned (commonRequired (totals fractional_courses)) = 0.30000000000000004%float /\
  earned (deptRequired (totals fractional_courses)) = 0.3%float /\
  sumBuckets earned (totals fractional_courses) = 0.6000000000000001%float /\
  sumBuckets earned (totals fractional_courses)
  <> earned (total (totals fractional_courses)).
Proof.
  repeat (split; [vm_compute; reflexivity | ]).
  intros H. apply (f_equal Prim2SF) in H. vm_compute in H. discriminate H.
Qed.

Lemma unitsOf_nonneg (x : float) : 0 <= unitsOf x.
Proof.
  unfold unitsOf.
  destruct (Prim2SF x) as [ | | | [ | ] m e]; try lia.
  destruct (Z.leb_spec 0 e).
  - assert (0 <= 2 ^ e) by (apply Z.pow_nonneg; lia). nia.
  - apply Z.div_pos; [lia | apply Z.pow_pos_nonneg; lia].
Qed.

Lemma unitSum_app (l1 l2 : list Course) :
  unitSum (l1 ++ l2) = unitSum l1 + unitSum l2.
Proof. induction l1 as [ | c l1 IH]; simpl; [reflexivity | rewrite IH; lia]. Qed.

Lemma unitSum_nonneg (l : list Course) : 0 <= unitSum l.
Proof.
  induction l as [ | c l IH]; simpl; [lia | ].
  pose proof (unitsOf_nonneg (credits c)). lia.
Qed.

Lemma unitSum_filter_le (p q : Course -> bool) (l : list Course) :
  (forall c, p c = true -> q c = true) ->
  unitSum (filter p l) <= unitSum (filter q l).
Proof.
  intros Hpq. induction l as [ | c l IH]; simpl; [lia | ].
  pose proof (unitsOf_nonneg (credits c)).
  destruct (p c) eqn:Hp.
  - rewrite (Hpq c Hp). simpl. lia.
  - destruct (q c); simpl; lia.
Qed.

Lemma unitSum_perm (l l' : list Course) :
  Permutation l l' -> unitSum l = unitSum l'.
Proof. induction 1; simpl; lia. Qed.

Lemma filter_perm (p : Course -> bool) (l l' : list Course) :
  Permutation l l' -> Permutation (filter p l) (filter p l').
Proof.
  induction 1 as [ | x l l' _ IH | x y l | l l' l'' _ IH1 _ IH2]; simpl.
  - constructor.
  - destruct (p x); [constructor | ]; exact IH.
  - destruct (p x), (p y); try apply Permutation_refl. constructor.
  - eapply Permutation_trans; eassumption.
Qed.

Lemma inTotal_creditBearing (cur : bool) (c : Course) :
  inTotal cur c = true -> creditBearing c = true.
Proof. unfold inTotal. intros H. apply andb_prop in H. tauto. Qed.

Lemma inBucket_creditBearing (k : TargetKey) (cur : bool) (c : Course) :
  inBucket k cur c = true -> creditBearing c = true.
Proof.
  unfold inBucket. intros H. apply andb_prop in H.
  apply (inTotal_creditBearing cur). tauto.
Qed.

(** Adding a whole number to a whole accumulator is exact. *)
Lemma whole_add (a : Z) (x : float) :
  wholeNumber x -> 0 <= a -> a + unitsOf x < 2 ^ 53 ->
  (Z2F a + x)%float = Z2F (a + unitsOf x).
Proof.
  intros Hx Ha Hb. unfold wholeNumber in Hx.
  replace (Z2F a + x)%float with (Z2F a + Z2F (unitsOf x))%float
    by (rewrite <- Hx; reflexivity).
  apply Z2F_add; [assumption | apply unitsOf_nonneg | assumption].
Qed.

Lemma TargetKey_eqb_spec (a b : TargetKey) : reflect (a = b) (TargetKey_eqb a b).
Proof. destruct a, b; constructor; congruence. Qed.

Lemma getBucket_setBucket (k k' : TargetKey) (b : Bucket) (acc : Totals) :
  getBucket k (setBucket k' b acc)
  = if TargetKey_eqb k' k then b else getBucket k acc.
Proof. destruct k, k'; reflexivity. Qed.

Lemma getBucket_setTotal (k : TargetKey) (b : Bucket) (acc : Totals) :
  getBucket k (setTotal b acc) = getBucket k acc.
Proof. destruct k; reflexivity. Qed.

(** What the reducer does to each field of the accumulator. *)
Lemma reducer_skip (acc : Totals) (c : Course) :
  creditBearing c = false -> reducer acc c = acc.
Proof.
  unfold creditBearing, reducer. intros H.
  destruct (String.eqb (category c) PhysicalEducation); [reflexivity | discriminate H].
Qed.

Lemma reducer_bucket (acc : Totals) (c : Course) (k : TargetKey) :
  creditBearing c = true ->
  getBucket k (reducer acc c)
  = if TargetKey_eqb (targetKey (category c)) k
    then (if truthy (isCurrent c)
          then addProjected (credits c) (getBucket k acc)
          else addEarned (credits c) (getBucket k acc))
    else getBucket k acc.
Proof.
  unfold creditBearing, reducer. intros H.
  destruct (String.eqb (category c) PhysicalEducation); [discriminate H | ].
  destruct (truthy (isCurrent c));
    rewrite getBucket_setTotal, getBucket_setBucket;
    destruct (TargetKey_eqb_spec (targetKey (category c)) k) as [-> | ]; reflexivity.
Qed.

Lemma reducer_total (acc : Totals) (c : Course) :
  creditBearing c = true ->
  total (reducer acc c)
  = if truthy (isCurrent c)
    then addProjected (credits c) (total acc)
    else addEarned (credits c) (total acc).
Proof.
  unfold creditBearing, reducer. intros H.
  destruct (String.eqb (category c) PhysicalEducation); [discriminate H | ].
  destruct (truthy (isCurrent c)), (targetKey (category c)); reflexivity.
Qed.

(** One field, one more course: the field keeps its value when the course is
    not selected for it and grows by the course's credits when it is. *)
Lemma field_kept (p : Course -> bool) (l : list Course) (c : Course) :
  p c = false ->
  unitSum (filter p (l ++ [c])) = unitSum (filter p l).
Proof.
  intros Hp. rewrite filter_app, unitSum_app. simpl. rewrite Hp. simpl. lia.
Qed.

Lemma field_grown (p : Course -> bool) (l : list Course) (c : Course) :
  (forall x, p x = true -> creditBearing x = true) ->
  p c = true ->
  wholeNumber (credits c) ->
  unitSum (filter creditBearing (l ++ [c])) < 2 ^ 53 ->
  (Z2F (unitSum (filter p l)) + credits c)%float
  = Z2F (unitSum (filter p (l ++ [c]))).
Proof.
  intros Hsub Hp Hw Hb.
  pose proof (unitSum_filter_le p creditBearing l Hsub) as Hle.
  rewrite filter_app, unitSum_app in Hb |- *. simpl in Hb |- *.
  rewrite Hp. rewrite (Hsub c Hp) in Hb. simpl in Hb |- *.
  rewrite Z.add_0_r in Hb |- *.
  apply whole_add; [assumption | apply unitSum_nonneg | lia].
Qed.

Lemma totals_whole (l : list Course) :
  Forall (fun c => wholeNumber (credits c)) (filter creditBearing l) ->
  unitSum (filter creditBearing l) < 2 ^ 53 ->
  wholeTotals l (totals l).
Proof.
  induction l as [ | c l IH] using rev_ind; intros Hw Hb.
  - split; [intros k cur; destruct k, cur | intros cur; destruct cur]; reflexivity.
  - assert (Hb' : unitSum (filter creditBearing l) < 2 ^ 53).
    { rewrite filter_app, unitSum_app in Hb.
      pose proof (unitSum_nonneg (filter creditBearing [c])). lia. }
    assert (Hw' : Forall (fun c => wholeNumber (credits c)) (filter creditBearing l)).
    { rewrite filter_app, Forall_app in Hw. tauto. }
    destruct (IH Hw' Hb') as [IHk IHt].
    rewrite totals_snoc.
    destruct (creditBearing c) eqn:Hcb.
    + assert (Hc : wholeNumber (credits c)).
      { rewrite filter_app, Forall_app in Hw. destruct Hw as [_ Hw].
        simpl in Hw. rewrite Hcb in Hw. apply Forall_inv in Hw. exact Hw. }
      split.
      * intros k cur. rewrite reducer_bucket by assumption.
        destruct (inBucket k cur c) eqn:Hin.
        -- rewrite <- (field_grown (inBucket k cur) l c
                         (inBucket_creditBearing k cur) Hin Hc Hb).
           rewrite <- IHk.
           unfold inBucket, inTotal in Hin. rewrite Hcb in Hin. simpl in Hin.
           apply andb_prop in Hin. destruct Hin as [Hcur Hk]. rewrite Hk.
           apply Bool.eqb_prop in Hcur. rewrite Hcur. destruct cur; reflexivity.
        -- rewrite (field_kept _ l c Hin), <- IHk.
           unfold inBucket, inTotal in Hin. rewrite Hcb in Hin. simpl in Hin.
           destruct (TargetKey_eqb (targetKey (category c)) k); [ | reflexivity].
           rewrite andb_true_r in Hin.
           destruct (truthy (isCurrent c)), cur; try discriminate Hin; reflexivity.
      * intros cur. rewrite reducer_total by assumption.
        destruct (inTotal cur c) eqn:Hin.
        -- rewrite <- (field_grown (inTotal cur) l c
                         (inTotal_creditBearing cur) Hin Hc Hb).
           rewrite <- IHt.
           unfold inTotal in Hin. rewrite Hcb in Hin. simpl in Hin.
           apply Bool.eqb_prop in Hin. rewrite Hin. destruct cur; reflexivity.
        -- rewrite (field_kept _ l c Hin), <- IHt.
           unfold inTotal in Hin. rewrite Hcb in Hin. simpl in Hin.
           destruct (truthy (isCurrent c)), cur; try discriminate Hin; reflexivity.
    + rewrite reducer_skip by assumption.
      split.
      * intros k cur. rewrite field_kept; [apply IHk | ].
        unfold inBucket, inTotal. rewrite Hcb. reflexivity.
      * intros cur. rewrite field_kept; [apply IHt | ].
        unfold inTotal. rewrite Hcb. reflexivity.
Qed.

(** Every credit-bearing course is in exactly one bucket. *)
Lemma inTotal_split (cur : bool) (c : Course) :
  (if inTotal cur c then unitsOf (credits c) else 0)
  = (if inBucket KCommonRequired cur c then unitsOf (credits c) else 0)
    + (if inBucket KDeptRequired cur c then unitsOf (credits c) else 0)
    + (if inBucket KDesignatedElective cur c then unitsOf (credits c) else 0)
    + (if inBucket KGeneralElective cur c then unitsOf (credits c) else 0)
    + (if inBucket KGeneralEducation cur c then unitsOf (credits c) else 0).
Proof.
  unfold inBucket.
  destruct (inTotal cur c); simpl; [ | reflexivity].
  destruct (targetKey (category c)); simpl; lia.
Qed.

Lemma unitSum_filter_cons (p : Course -> bool) (c : Course) (l : list Course) :
  unitSum (filter p (c :: l))
  = (if p c then unitsOf (credits c) else 0) + unitSum (filter p l).
Proof. simpl. destruct (p c); reflexivity. Qed.

Lemma unitSum_buckets (cur : bool) (l : list Course) :
  unitSum (filter (inTotal cur) l)
  = unitSum (filter (inBucket KCommonRequired cur) l)
    + unitSum (filter (inBucket KDeptRequired cur) l)
    + unitSum (filter (inBucket KDesignatedElective cur) l)
    + unitSum (filter (inBucket KGeneralElective cur) l)
    + unitSum (filter (inBucket KGeneralEducation cur) l).
Proof.
  induction l as [ | c l IH].
  - reflexivity.
  - rewrite !unitSum_filter_cons, IH, (inTotal_split cur c). lia.
Qed.

Lemma sumBuckets_whole (cur : bool) (l : list Course) (acc : Totals) :
  wholeTotals l acc ->
  unitSum (filter creditBearing l) < 2 ^ 53 ->
  sumBuckets (if cur then projected else earned) acc
  = (if cur then projected else earned) (total acc).
Proof.
  intros [Hk Ht] Hb.
  unfold sumBuckets.
  change (commonRequired acc) with (getBucket KCommonRequired acc).
  change (deptRequired acc) with (getBucket KDeptRequired acc).
  change (designatedElective acc) with (getBucket KDesignatedElective acc).
  change (generalElective acc) with (getBucket KGeneralElective acc).
  change (generalEducation acc) with (getBucket KGeneralEducation acc).
  rewrite !Hk, Ht, (unitSum_buckets cur l).
  pose proof (unitSum_buckets cur l) as Hsum.
  pose proof (unitSum_filter_le (inTotal cur) creditBearing l
                (inTotal_creditBearing cur)) as Hle.
  pose proof (unitSum_nonneg (filter (inBucket KCommonRequired cur) l)).
  pose proof (unitSum_nonneg (filter (inBucket KDeptRequired cur) l)).
  pose proof (unitSum_nonneg (filter (inBucket KDesignatedElective cur) l)).
  pose proof (unitSum_nonneg (filter (inBucket KGeneralElective cur) l)).
  pose proof (unitSum_nonneg (filter (inBucket KGeneralEducation cur) l)).
  rewrite !Z2F_add by lia. reflexivity.
Qed.

(** C2, amended to whole-number credits: when every credit-bearing course has
    a whole number of credits and these add up to less than [2^53], the
    earned sums of the five buckets add up to [total.earned] and the projected
    sums to [total.projected]; both totals count the credits of the courses
    other than 體育, which contribute to no sum. *)
Theorem whole_credit_buckets_sum_to_total :
  forall (courses : list Course) (requirements : GraduationRequirements),
    Forall (fun c => wholeNumber (credits c)) (filter creditBearing courses) ->
    unitSum (filter creditBearing courses) < 2 ^ 53 ->
    let t := buckets (computeProgress courses requirements) in
    sumBuckets earned t = earned (total t) /\
    sumBuckets projected t = projected (total t) /\
    earned (total t) = Z2F (unitSum (filter (inTotal false) courses)) /\
    projected (total t) = Z2F (unitSum (filter (inTotal true) courses)).
Proof.
  intros courses requirements Hw Hb t. subst t. simpl buckets.
  pose proof (totals_whole courses Hw Hb) as Hinv.
  split; [exact (sumBuckets_whole false courses _ Hinv Hb) | ].
  split; [exact (sumBuckets_whole true courses _ Hinv Hb) | ].
  destruct Hinv as [_ Ht].
  split; [exact (Ht false) | exact (Ht true)].
Qed.

Lemma whole_credit_buckets_sum_to_total_witness :
  let courses := [sample_calculus; sample_swimming; sample_legacy] in
  let t := buckets (computeProgress courses ACCOUNTING_111_REQUIREMENTS) in
  Forall (fun c => wholeNumber (credits c)) (filter creditBearing courses) /\
  unitSum (filter creditBearing courses) < 2 ^ 53 /\
  sumBuckets earned t = earned (total t) /\
  sumBuckets projected t = projected (total t) /\
  earned (total t) = Z2F (unitSum (filter (inTotal false) courses)) /\
  projected (total t) = Z2F (unitSum (filter (inTotal true) courses)).
Proof.
  intros courses t.
  assert (Hw : Forall (fun c => wholeNumber (credits c))
                 (filter creditBearing courses)).
  { repeat constructor. }
  assert (Hb : unitSum (filter creditBearing courses) < 2 ^ 53).
  { reflexivity. }
  split; [exact Hw | ]. split; [exact Hb | ].
  exact (whole_credit_buckets_sum_to_total courses ACCOUNTING_111_REQUIREMENTS
           Hw Hb).
Defined.

(** ** Order of the course list *)

(** C7 as stated fails.  Grade points are accumulated in list order in
    binary64.  For A+ (1 credit), A (1 credit), A- (2 credits) the points are
    4.3 + 4 = 8.3, then 8.3 + 7.4 = 15.700000000000001, and
    15.700000000000001 / 4 = 3.9250000000000003 prints as 3.93.  Starting
    with the A- course they are 7.4 + 4.3 = 11.7, then 11.7 + 4 = 15.7, and
    15.7 / 4 is the binary64 number just below 3.925, which prints as 3.92.
    With fractional credits the credit sums depend on the order too:
    (0.3 + 0.2) + 0.1 = 0.6 but (0.1 + 0.2) + 0.3 = 0.6000000000000001. *)
Lemma permutation_changes_report :
  (Permutation tie_courses tie_courses_reordered /\
   earnedPoints (gpaPools tie_courses) = 15.700000000000001%float /\
   earnedPoints (gpaPools tie_courses_reordered) = 15.7%float /\
   earnedCredits (gpaPools tie_courses) = 4%float /\
   earnedCredits (gpaPools tie_courses_reordered) = 4%float /\
   currentGPA (computeProgress tie_courses ACCOUNTING_111_REQUIREMENTS) = "3.93" /\
   currentGPA (computeProgress tie_courses_reordered ACCOUNTING_111_REQUIREMENTS)
   = "3.92") /\
  (Permutation fractional_courses (rev fractional_courses) /\
   earned (total (totals fractional_courses)) = 0.6%float /\
   earned (total (totals (rev fractional_courses))) = 0.6000000000000001%float).
Proof.
  split; split.
  - apply Permutation_sym.
    exact (Permutation_cons_append
             [ mkCourse "t1" "111-1" "Economics" 1 DeptRequired "A+" None;
               mkCourse "t2" "111-1" "Statistics" 1 DeptRequired "A" None ]
             (mkCourse "t3" "111-2" "Commercial Law" 2 DeptRequired "A-" None)).
  - repeat split; vm_compute; reflexivity.
  - apply Permutation_rev.
  - split; vm_compute; reflexivity.
Qed.

Lemma Bucket_ext (a b : Bucket) :
  earned a = earned b -> projected a = projected b -> a = b.
Proof. destruct a, b; simpl; intros -> ->; reflexivity. Qed.

Lemma Totals_ext (a b : Totals) :
  (forall k, getBucket k a = getBucket k b) -> total a = total b -> a = b.
Proof.
  intros Hk Ht.
  pose proof (Hk KCommonRequired) as H1. pose proof (Hk KDeptRequired) as H2.
  pose proof (Hk KDesignatedElective) as H3. pose proof (Hk KGeneralElective) as H4.
  pose proof (Hk KGeneralEducation) as H5.
  destruct a, b; simpl in *. congruence.
Qed.

Lemma wholeTotals_perm (l l' : list Course) (acc acc' : Totals) :
  Permutation l l' -> wholeTotals l acc -> wholeTotals l' acc' -> acc = acc'.
Proof.
  intros Hp [Hk Ht] [Hk' Ht'].
  assert (Hsum : forall p, unitSum (filter p l) = unitSum (filter p l')).
  { intros p. apply unitSum_perm, filter_perm, Hp. }
  apply Totals_ext.
  - intros k. apply Bucket_ext.
    + rewrite (Hk k false), (Hk' k false), Hsum. reflexivity.
    + rewrite (Hk k true), (Hk' k true), Hsum. reflexivity.
  - apply Bucket_ext.
    + rewrite (Ht false), (Ht' false), Hsum. reflexivity.
    + rewrite (Ht true), (Ht' true), Hsum. reflexivity.
Qed.

Lemma gpaStep_part_congr (cur : bool) (st1 st2 : GpaPools) (c : Course) :
  poolPart cur st1 = poolPart cur st2 ->
  poolPart cur (gpaStep st1 c) = poolPart cur (gpaStep st2 c).
Proof.
  unfold poolPart, gpaStep. intros H.
  destruct (countsForGPA c) as [p | ]; [ | exact H].
  destruct cur, (truthy (isCurrent c)); simpl in *; congruence.
Qed.

Lemma gpaStep_other_pool (cur : bool) (st : GpaPools) (c : Course) :
  inPool cur c = false -> poolPart cur (gpaStep st c) = poolPart cur st.
Proof.
  unfold inPool, poolPart, gpaStep.
  destruct (countsForGPA c) as [p | ]; [ | reflexivity].
  destruct cur, (truthy (isCurrent c)); simpl; intros H;
    try discriminate H; reflexivity.
Qed.

Lemma fold_part_congr (cur : bool) (l : list Course) (st1 st2 : GpaPools) :
  poolPart cur st1 = poolPart cur st2 ->
  poolPart cur (fold_left gpaStep l st1) = poolPart cur (fold_left gpaStep l st2).
Proof.
  revert st1 st2. induction l as [ | c l IH]; intros st1 st2 H; simpl.
  - exact H.
  - apply IH, gpaStep_part_congr, H.
Qed.

Lemma fold_part_filter (cur : bool) (l : list Course) (st : GpaPools) :
  poolPart cur (fold_left gpaStep l st)
  = poolPart cur (fold_left gpaStep (filter (inPool cur) l) st).
Proof.
  revert st. induction l as [ | c l IH]; intros st; simpl.
  - reflexivity.
  - destruct (inPool cur c) eqn:Hin; simpl.
    + apply IH.
    + rewrite <- IH. apply fold_part_congr, gpaStep_other_pool, Hin.
Qed.

Lemma pool_same_order (cur : bool) (l l' : list Course) :
  filter (inPool cur) l' = filter (inPool cur) l ->
  poolPart cur (gpaPools l') = poolPart cur (gpaPools l).
Proof.
  intros H. unfold gpaPools.
  rewrite (fold_part_filter cur l'), (fold_part_filter cur l), H. reflexivity.
Qed.

(** C7, amended: the report is a function of the course list alone.  For
    every permutation of a list, the bucket and total sums are the same when
    the credit-bearing courses have whole-number credits adding up to less
    than [2^53]; [currentGPA] is the same when the permutation keeps the
    completed GPA-counted courses in their relative order, and
    [projectedGPA] when it also keeps the in-progress GPA-counted courses in
    theirs. *)
Theorem permutation_invariance :
  forall (courses courses' : list Course) (requirements : GraduationRequirements),
    Permutation courses courses' ->
    let r := computeProgress courses requirements in
    let r' := computeProgress courses' requirements in
    (Forall (fun c => wholeNumber (credits c)) (filter creditBearing courses) ->
     unitSum (filter creditBearing courses) < 2 ^ 53 ->
     buckets r' = buckets r) /\
    (filter (inPool false) courses' = filter (inPool false) courses ->
     currentGPA r' = currentGPA r) /\
    (filter (inPool false) courses' = filter (inPool false) courses ->
     filter (inPool true) courses' = filter (inPool true) courses ->
     projectedGPA r' = projectedGPA r).
Proof.
  intros courses courses' requirements Hp r r'. subst r r'.
  unfold computeProgress; simpl.
  split; [ | split].
  - intros Hw Hb.
    symmetry. apply (wholeTotals_perm courses courses'); [exact Hp | | ].
    + apply totals_whole; assumption.
    + apply totals_whole.
      * eapply Permutation_Forall; [ | exact Hw]. apply filter_perm, Hp.
      * rewrite <- (unitSum_perm _ _ (filter_perm creditBearing _ _ Hp)). exact Hb.
  - intros He. apply (pool_same_order false) in He.
    unfold poolPart in He. injection He as Hpts Hcr.
    unfold currentGPA_of. rewrite Hpts, Hcr. reflexivity.
  - intros He Hpr.
    apply (pool_same_order false) in He. apply (pool_same_order true) in Hpr.
    unfold poolPart in He, Hpr.
    injection He as Hpts Hcr. injection Hpr as Hpts' Hcr'.
    unfold projectedGPA_of. rewrite Hpts, Hcr, Hpts', Hcr'. reflexivity.
Qed.

Lemma permutation_invariance_witness :
  let courses := [sample_calculus; sample_swimming; sample_legacy] in
  let courses' := [sample_swimming; sample_calculus; sample_legacy] in
  let r := computeProgress courses ACCOUNTING_111_REQUIREMENTS in
  let r' := computeProgress courses' ACCOUNTING_111_REQUIREMENTS in
  Permutation courses courses' /\
  Forall (fun c => wholeNumber (credits c)) (filter creditBearing courses) /\
  unitSum (filter creditBearing courses) < 2 ^ 53 /\
  buckets r' = buckets r /\ currentGPA r' = currentGPA r /\
  projectedGPA r' = projectedGPA r.
Proof.
  intros courses courses' r r'.
  assert (Hp : Permutation courses courses') by apply perm_swap.
  assert (Hw : Forall (fun c => wholeNumber (credits c))
                 (filter creditBearing courses)) by repeat constructor.
  assert (Hb : unitSum (filter creditBearing courses) < 2 ^ 53) by reflexivity.
  split; [exact Hp | ]. split; [exact Hw | ]. split; [exact Hb | ].
  destruct (permutation_invariance courses courses' ACCOUNTING_111_REQUIREMENTS Hp)
    as (Hbk & Hcur & Hproj).
  split; [exact (Hbk Hw Hb) | ].
  split; [apply Hcur; reflexivity | apply Hproj; reflexivity].
Defined.

(** * Course list operations *)

Lemma delete_filter (i : string) (prev : list Course) :
  handleDeleteCourse true i prev
  = filter (fun c => negb (String.eqb (id c) i)) prev.
Proof. reflexivity. Qed.

Lemma delete_absent (i : string) (prev : list Course) :
  (forall x, In x prev -> id x <> i) -> handleDeleteCourse true i prev = prev.
Proof.
  intros Hfresh. rewrite delete_filter.
  induction prev as [ | x prev IH]; simpl; [reflexivity | ].
  destruct (String.eqb_spec (id x) i) as [E | N].
  - exfalso. apply (Hfresh x); [left; reflexivity | exact E].
  - simpl. f_equal. apply IH. intros y Hy. apply Hfresh. right; exact Hy.
Qed.

(** Adding a course under an identifier no course has, then deleting that
    identifier, gives back the list as it was. *)
Theorem delete_undoes_add :
  forall (c : Course) (prev : list Course),
    (forall x, In x prev -> id x <> id c) ->
    handleDeleteCourse true (id c) (handleAddCourse c prev) = prev.
Proof.
  intros c prev Hfresh. rewrite delete_filter. unfold handleAddCourse.
  rewrite filter_app. simpl. rewrite String.eqb_refl. simpl.
  rewrite app_nil_r. rewrite <- delete_filter. apply delete_absent, Hfresh.
Qed.

Lemma delete_undoes_add_witness :
  (forall x, In x [sample_calculus; sample_service] -> id x <> id sample_legacy) /\
  handleDeleteCourse true (id sample_legacy)
    (handleAddCourse sample_legacy [sample_calculus; sample_service])
  = [sample_calculus; sample_service].
Proof.
  assert (H : forall x, In x [sample_calculus; sample_service] ->
                        id x <> id sample_legacy).
  { intros x [<- | [<- | []]]; discriminate. }
  split; [exact H | ].
  exact (delete_undoes_add sample_legacy [sample_calculus; sample_service] H).
Defined.

(** A confirmed deletion removes every course carrying the identifier (also
    when several do), leaves a list without it as it was, is the same done
    twice as once, and two deletions can be done in either order. *)
Theorem delete_by_id_laws :
  forall (i j : string) (prev : list Course),
    ~ In i (map id (handleDeleteCourse true i prev)) /\
    (~ In i (map id prev) -> handleDeleteCourse true i prev = prev) /\
    handleDeleteCourse true i (handleDeleteCourse true i prev)
    = handleDeleteCourse true i prev /\
    handleDeleteCourse true i (handleDeleteCourse true j prev)
    = handleDeleteCourse true j (handleDeleteCourse true i prev).
Proof.
  intros i j prev.
  assert (Hgone : ~ In i (map id (handleDeleteCourse true i prev))).
  { rewrite delete_filter. intros H. apply in_map_iff in H.
    destruct H as (x & Hx & Hin). apply filter_In in Hin. destruct Hin as [_ Hne].
    rewrite Hx, String.eqb_refl in Hne. discriminate Hne. }
  split; [exact Hgone | ]. split; [ | split].
  - intros Hnot. apply delete_absent. intros x Hx E. apply Hnot.
    rewrite <- E. apply in_map, Hx.
  - apply delete_absent. intros x Hx E. apply Hgone.
    subst i. apply in_map, Hx.
  - clear Hgone. rewrite !delete_filter.
    induction prev as [ | x prev IH]; simpl; [reflexivity | ].
    destruct (String.eqb (id x) j) eqn:Ej, (String.eqb (id x) i) eqn:Ei; simpl;
      rewrite ?Ej, ?Ei; simpl; rewrite IH; reflexivity.
Qed.

Lemma delete_by_id_laws_witness :
  ~ In "ghost" (map id [sample_calculus; sample_service]) /\
  handleDeleteCourse true "ghost" [sample_calculus; sample_service]
  = [sample_calculus; sample_service].
Proof.
  assert (H : ~ In "ghost" (map id [sample_calculus; sample_service])).
  { intros [H | [H | []]]; discriminate H. }
  split; [exact H | ].
  destruct (delete_by_id_laws "ghost" "ghost" [sample_calculus; sample_service])
    as (_ & Habsent & _).
  exact (Habsent H).
Defined.

(** Updating a course and then deleting its identifier is the same as
    deleting it straight away: an update never moves a course to another
    identifier. *)
Theorem delete_after_update :
  forall (u : Course) (prev : list Course),
    handleDeleteCourse true (id u) (handleUpdateCourse u prev)
    = handleDeleteCourse true (id u) prev.
Proof.
  intros u prev. rewrite !delete_filter. unfold handleUpdateCourse.
  induction prev as [ | x prev IH]; simpl; [reflexivity | ].
  destruct (String.eqb (id x) (id u)) eqn:E; simpl.
  - rewrite String.eqb_refl. simpl. exact IH.
  - rewrite E. simpl. f_equal. exact IH.
Qed.

(** * Editing a row *)

Lemma same_id_same_course (courses : list Course) (x c : Course) :
  NoDup (map id courses) -> In x courses -> In c courses -> id x = id c -> x = c.
Proof.
  induction courses as [ | y courses IH]; simpl; intros Hnd Hx Hc E; [contradiction | ].
  inversion Hnd as [ | ? ? Hnotin Hnd']; subst.
  destruct Hx as [-> | Hx], Hc as [-> | Hc].
  - reflexivity.
  - exfalso. apply Hnotin. rewrite E. apply in_map, Hc.
  - exfalso. apply Hnotin. rewrite <- E. apply in_map, Hx.
  - apply IH; assumption.
Qed.

Lemma update_with_itself (courses : list Course) (c : Course) :
  NoDup (map id courses) -> In c courses -> handleUpdateCourse c courses = courses.
Proof.
  intros Hnd Hc. unfold handleUpdateCourse.
  rewrite <- (map_id courses) at 2. apply map_ext_in.
  intros x Hx. destruct (String.eqb_spec (id x) (id c)) as [E | ]; [ | reflexivity].
  symmetry. exact (same_id_same_course courses x c Hnd Hx Hc E).
Qed.

Lemma setField_keeps_id (c : Course) (f : CourseField) :
  touchesId f = false -> id (setField c f) = id c.
Proof. destruct f; simpl; intros H; try reflexivity; discriminate H. Qed.

Lemma edits_keep_id (fs : list CourseField) (c : Course) :
  Forall (fun f => touchesId f = false) fs -> id (fold_left setField fs c) = id c.
Proof.
  revert c. induction fs as [ | f fs IH]; intros c Hfs; simpl; [reflexivity | ].
  inversion Hfs as [ | ? ? Hf Hfs']; subst.
  rewrite IH by assumption. apply setField_keeps_id, Hf.
Qed.

Lemma edits_accumulate (fs : list CourseField) (st : EditState) (v : Course) :
  editValues st = Some v ->
  fold_left (fun st f => handleEditChange f st) fs st
  = {| editingId := editingId st; editValues := Some (fold_left setField fs v) |}.
Proof.
  revert st v. induction fs as [ | f fs IH]; intros st v Hv; simpl.
  - destruct st as [i e]. simpl in Hv. subst e. reflexivity.
  - rewrite (IH (handleEditChange f st) (setField v f)).
    + unfold handleEditChange. rewrite Hv. reflexivity.
    + unfold handleEditChange. rewrite Hv. reflexivity.
Qed.

(** Opening a row for editing and saving it untouched leaves the course list
    as it was, provided the identifiers in the list are distinct. *)
Theorem save_untouched_row :
  forall (c : Course) (courses : list Course),
    NoDup (map id courses) -> In c courses ->
    saveEdit (startEdit c) courses = (cancelEdit, courses).
Proof.
  intros c courses Hnd Hc. unfold saveEdit, startEdit; simpl.
  rewrite update_with_itself by assumption. reflexivity.
Qed.

Lemma save_untouched_row_witness :
  NoDup (map id [sample_calculus; sample_service; sample_legacy]) /\
  In sample_service [sample_calculus; sample_service; sample_legacy] /\
  saveEdit (startEdit sample_service) [sample_calculus; sample_service; sample_legacy]
  = (cancelEdit, [sample_calculus; sample_service; sample_legacy]).
Proof.
  assert (Hnd : NoDup (map id [sample_calculus; sample_service; sample_legacy])).
  { simpl. repeat constructor; simpl; intros H;
      repeat (destruct H as [H | H]; [discriminate H | ]); exact H. }
  assert (Hin : In sample_service [sample_calculus; sample_service; sample_legacy])
    by (right; left; reflexivity).
  split; [exact Hnd | ]. split; [exact Hin | ].
  exact (save_untouched_row sample_service
           [sample_calculus; sample_service; sample_legacy] Hnd Hin).
Defined.

(** An editing session - open a row, change any fields other than [id] any
    number of times, save - closes the editor and replaces exactly the
    courses that carry the row's identifier by the edited copy, which still
    carries that identifier; identifiers in the list are unchanged. *)
Theorem edit_session :
  forall (c : Course) (fs : list CourseField) (courses : list Course),
    Forall (fun f => touchesId f = false) fs ->
    let st := fold_left (fun st f => handleEditChange f st) fs (startEdit c) in
    let edited := fold_left setField fs c in
    saveEdit st courses
    = (cancelEdit,
       map (fun x => if String.eqb (id x) (id c) then edited else x) courses) /\
    id edited = id c /\
    map id (snd (saveEdit st courses)) = map id courses.
Proof.
  intros c fs courses Hfs st edited. subst st edited.
  rewrite (edits_accumulate fs (startEdit c) c eq_refl).
  pose proof (edits_keep_id fs c Hfs) as Hid.
  unfold saveEdit; simpl. unfold handleUpdateCourse. rewrite Hid.
  split; [reflexivity | ]. split; [reflexivity | ].
  rewrite map_map. apply map_ext. intros x.
  destruct (String.eqb_spec (id x) (id c)) as [E | ]; [ | reflexivity].
  rewrite Hid. symmetry. exact E.
Qed.

Lemma edit_session_witness :
  let fs := [FGrade "A"; FCredits 2; FIsCurrent true] in
  Forall (fun f => touchesId f = false) fs /\
  snd (saveEdit (fold_left (fun st f => handleEditChange f st) fs
                   (startEdit sample_service))
         [sample_calculus; sample_service])
  = [sample_calculus;
     mkCourse "b" "111-2" "Service Learning" 2 CommonRequired "A" (Some true)].
Proof.
  intros fs.
  assert (Hfs : Forall (fun f => touchesId f = false) fs) by repeat constructor.
  split; [exact Hfs | ].
  destruct (edit_session sample_service fs [sample_calculus; sample_service] Hfs)
    as (Hsave & _ & _).
  rewrite Hsave. reflexivity.
Defined.

(** * What the report reads *)

(** Adding a course of any category but 體育 adds its credits to [total]
    and to one bucket: the bucket named after its category for 共同必修,
    系訂必修, 指定選修 and 通識, and [generalElective] for every other
    category.  The credits go to the projected sums when the course is in
    progress and to the earned sums otherwise; the other side and the four
    other buckets stay as they were. *)
Theorem add_course_credits :
  forall (c : Course) (courses : list Course),
    category c <> PhysicalEducation ->
    let before := totals courses in
    let after := totals (handleAddCourse c courses) in
    let credited (field : Totals -> Bucket) :=
      (isCurrent c = Some true ->
       projected (field after) = (projected (field before) + credits c)%float /\
       earned (field after) = earned (field before)) /\
      (isCurrent c <> Some true ->
       earned (field after) = (earned (field before) + credits c)%float /\
       projected (field after) = projected (field before)) in
    let kept (field : Totals -> Bucket) := field after = field before in
    credited total /\
    (category c = CommonRequired ->
     credited commonRequired /\ kept deptRequired /\ kept designatedElective /\
     kept generalElective /\ kept generalEducation) /\
    (category c = DeptRequired ->
     credited deptRequired /\ kept commonRequired /\ kept designatedElective /\
     kept generalElective /\ kept generalEducation) /\
    (category c = DesignatedElective ->
     credited designatedElective /\ kept commonRequired /\ kept deptRequired /\
     kept generalElective /\ kept generalEducation) /\
    (category c = GeneralEducation ->
     credited generalEducation /\ kept commonRequired /\ kept deptRequired /\
     kept designatedElective /\ kept generalElective) /\
    (~ In (category c)
          [CommonRequired; DeptRequired; DesignatedElective; GeneralEducation] ->
     credited generalElective /\ kept commonRequired /\ kept deptRequired /\
     kept designatedElective /\ kept generalEducation).
Proof.
  intros c courses Hpe before after credited kept.
  subst before after credited kept. cbv beta.
  unfold handleAddCourse. rewrite totals_snoc.
  assert (Hall : forall k, targetKey (category c) = k ->
            ((isCurrent c = Some true ->
              projected (total (reducer (totals courses) c))
              = (projected (total (totals courses)) + credits c)%float /\
              earned (total (reducer (totals courses) c))
              = earned (total (totals courses))) /\
             (isCurrent c <> Some true ->
              earned (total (reducer (totals courses) c))
              = (earned (total (totals courses)) + credits c)%float /\
              projected (total (reducer (totals courses) c))
              = projected (total (totals courses)))) /\
            ((isCurrent c = Some true ->
              projected (getBucket k (reducer (totals courses) c))
              = (projected (getBucket k (totals courses)) + credits c)%float /\
              earned (getBucket k (reducer (totals courses) c))
              = earned (getBucket k (totals courses))) /\
             (isCurrent c <> Some true ->
              earned (getBucket k (reducer (totals courses) c))
              = (earned (getBucket k (totals courses)) + credits c)%float /\
              projected (getBucket k (reducer (totals courses) c))
              = projected (getBucket k (totals courses)))) /\
            (forall k', k' <> k ->
               getBucket k' (reducer (totals courses) c)
               = getBucket k' (totals courses))).
  { intros k Hk.
    destruct (reducer_credits (totals courses) c k Hpe Hk) as (Hcur & Hdone & Hrest).
    split; [ | split; [ | exact Hrest]]; split; intros H.
    - destruct (Hcur H) as (_ & H2 & _ & H4). split; assumption.
    - destruct (Hdone H) as (_ & H2 & _ & H4). split; assumption.
    - destruct (Hcur H) as (H1 & _ & H3 & _). split; assumption.
    - destruct (Hdone H) as (H1 & _ & H3 & _). split; assumption. }
  split; [exact (proj1 (Hall _ eq_refl)) | ].
  split; [ | split; [ | split; [ | split]]].
  - intros Hcat.
    destruct (Hall KCommonRequired) as (_ & Hk & Hrest);
      [rewrite Hcat; reflexivity | ].
    split; [exact Hk | ].
    split; [exact (Hrest KDeptRequired ltac:(discriminate)) | ].
    split; [exact (Hrest KDesignatedElective ltac:(discriminate)) | ].
    split; [exact (Hrest KGeneralElective ltac:(discriminate)) | ].
    exact (Hrest KGeneralEducation ltac:(discriminate)).
  - intros Hcat.
    destruct (Hall KDeptRequired) as (_ & Hk & Hrest);
      [rewrite Hcat; reflexivity | ].
    split; [exact Hk | ].
    split; [exact (Hrest KCommonRequired ltac:(discriminate)) | ].
    split; [exact (Hrest KDesignatedElective ltac:(discriminate)) | ].
    split; [exact (Hrest KGeneralElective ltac:(discriminate)) | ].
    exact (Hrest KGeneralEducation ltac:(discriminate)).
  - intros Hcat.
    destruct (Hall KDesignatedElective) as (_ & Hk & Hrest);
      [rewrite Hcat; reflexivity | ].
    split; [exact Hk | ].
    split; [exact (Hrest KCommonRequired ltac:(discriminate)) | ].
    split; [exact (Hrest KDeptRequired ltac:(discriminate)) | ].
    split; [exact (Hrest KGeneralElective ltac:(discriminate)) | ].
    exact (Hrest KGeneralEducation ltac:(discriminate)).
  - intros Hcat.
    destruct (Hall KGeneralEducation) as (_ & Hk & Hrest);
      [rewrite Hcat; reflexivity | ].
    split; [exact Hk | ].
    split; [exact (Hrest KCommonRequired ltac:(discriminate)) | ].
    split; [exact (Hrest KDeptRequired ltac:(discriminate)) | ].
    split; [exact (Hrest KDesignatedElective ltac:(discriminate)) | ].
    exact (Hrest KGeneralElective ltac:(discriminate)).
  - intros Hcat.
    destruct (Hall KGeneralElective) as (_ & Hk & Hrest).
    { unfold targetKey.
      destruct (String.eqb_spec (category c) CommonRequired) as [E | _];
        [exfalso; apply Hcat; rewrite E; simpl; tauto | ].
      destruct (String.eqb_spec (category c) DeptRequired) as [E | _];
        [exfalso; apply Hcat; rewrite E; simpl; tauto | ].
      destruct (String.eqb_spec (category c) DesignatedElective) as [E | _];
        [exfalso; apply Hcat; rewrite E; simpl; tauto | ].
      destruct (String.eqb_spec (category c) GeneralElective) as [_ | _];
        [reflexivity | ].
      destruct (String.eqb_spec (category c) GeneralEducation) as [E | _];
        [exfalso; apply Hcat; rewrite E; simpl; tauto | reflexivity]. }
    split; [exact Hk | ].
    split; [exact (Hrest KCommonRequired ltac:(discriminate)) | ].
    split; [exact (Hrest KDeptRequired ltac:(discriminate)) | ].
    split; [exact (Hrest KDesignatedElective ltac:(discriminate)) | ].
    exact (Hrest KGeneralEducation ltac:(discriminate)).
Qed.

Lemma add_course_credits_witness :
  category sample_internship <> PhysicalEducation /\
  category sample_internship = DeptRequired /\
  isCurrent sample_internship = Some true /\
  projected (deptRequired (totals (handleAddCourse sample_internship [sample_calculus])))
  = 6%float /\
  projected (total (totals (handleAddCourse sample_internship [sample_calculus])))
  = 6%float /\
  earned (total (totals (handleAddCourse sample_internship [sample_calculus])))
  = 3%float /\
  commonRequired (totals (handleAddCourse sample_internship [sample_calculus]))
  = commonRequired (totals [sample_calculus]) /\
  category sample_calculus <> PhysicalEducation /\
  category sample_calculus = CommonRequired /\
  isCurrent sample_calculus <> Some true /\
  earned (commonRequired (totals (handleAddCourse sample_calculus [sample_service])))
  = 10%float /\
  earned (total (totals (handleAddCourse sample_calculus [sample_service])))
  = 10%float.
Proof.
  assert (Hi : category sample_internship <> PhysicalEducation) by discriminate.
  assert (Hicat : category sample_internship = DeptRequired) by reflexivity.
  assert (Hicur : isCurrent sample_internship = Some true) by reflexivity.
  assert (Hc : category sample_calculus <> PhysicalEducation) by discriminate.
  assert (Hccat : category sample_calculus = CommonRequired) by reflexivity.
  assert (Hcdone : isCurrent sample_calculus <> Some true) by discriminate.
  destruct (add_course_credits sample_internship [sample_calculus] Hi)
    as (Hit & _ & Hidept & _).
  destruct Hit as [Hit _]. destruct (Hit Hicur) as [Hit1 Hit2].
  destruct (Hidept Hicat) as ([Hid _] & Hicommon & _).
  destruct (Hid Hicur) as [Hid1 _].
  destruct (add_course_credits sample_calculus [sample_service] Hc)
    as (Hct & Hccommon & _).
  destruct Hct as [_ Hct]. destruct (Hct Hcdone) as [Hct1 _].
  destruct (Hccommon Hccat) as ([_ Hcc] & _).
  destruct (Hcc Hcdone) as [Hcc1 _].
  split; [exact Hi | ]. split; [exact Hicat | ]. split; [exact Hicur | ].
  split; [rewrite Hid1; reflexivity | ]. split; [rewrite Hit1; reflexivity | ].
  split; [rewrite Hit2; reflexivity | ]. split; [exact Hicommon | ].
  split; [exact Hc | ]. split; [exact Hccat | ]. split; [exact Hcdone | ].
  split; [rewrite Hcc1; reflexivity | ]. rewrite Hct1. reflexivity.
Defined.

Lemma fold_reducer_skip (courses : list Course) (acc : Totals) :
  fold_left reducer courses acc
  = fold_left reducer (filter creditBearing courses) acc.
Proof.
  revert acc. induction courses as [ | c courses IH]; intros acc; simpl.
  - reflexivity.
  - destruct (creditBearing c) eqn:Hcb; simpl.
    + apply IH.
    + rewrite reducer_skip by assumption. apply IH.
Qed.

Lemma gpaStep_uncounted (st : GpaPools) (c : Course) :
  gpaCounted c = false -> gpaStep st c = st.
Proof.
  unfold gpaCounted, gpaStep.
  destruct (countsForGPA c); [discriminate | reflexivity].
Qed.

Lemma fold_gpaStep_skip (courses : list Course) (st : GpaPools) :
  fold_left gpaStep courses st
  = fold_left gpaStep (filter gpaCounted courses) st.
Proof.
  revert st. induction courses as [ | c courses IH]; intros st; simpl.
  - reflexivity.
  - destruct (gpaCounted c) eqn:Hc; simpl.
    + apply IH.
    + rewrite gpaStep_uncounted by assumption. apply IH.
Qed.

Lemma gpaCounted_creditBearing (c : Course) :
  gpaCounted c = true -> creditBearing c = true.
Proof.
  unfold gpaCounted, countsForGPA, creditBearing.
  destruct (lookup (grade c) GRADE_POINTS); [ | discriminate].
  destruct (negb (String.eqb (category c) PhysicalEducation));
    [reflexivity | rewrite andb_false_r; discriminate].
Qed.

Lemma filter_filter_sub (p q : Course -> bool) (l : list Course) :
  (forall c, p c = true -> q c = true) ->
  filter p (filter q l) = filter p l.
Proof.
  intros Hpq. induction l as [ | c l IH]; simpl; [reflexivity | ].
  destruct (q c) eqn:Hq; simpl.
  - rewrite IH. reflexivity.
  - destruct (p c) eqn:Hp; [ | exact IH].
    rewrite (Hpq c Hp) in Hq. discriminate Hq.
Qed.

(** 體育 courses are invisible to the report wherever they stand in the
    list: two lists with the same other courses in the same order have the
    same report, so adding, deleting, editing or moving 體育 courses never
    changes a sum or a GPA. *)
Theorem report_reads_credit_bearing_courses :
  forall (courses courses' : list Course) (requirements : GraduationRequirements),
    filter creditBearing courses' = filter creditBearing courses ->
    computeProgress courses' requirements = computeProgress courses requirements.
Proof.
  intros courses courses' requirements H.
  assert (Ht : totals courses' = totals courses).
  { unfold totals. rewrite (fold_reducer_skip courses'), (fold_reducer_skip courses), H.
    reflexivity. }
  assert (Hg : gpaPools courses' = gpaPools courses).
  { unfold gpaPools.
    rewrite (fold_gpaStep_skip courses'), (fold_gpaStep_skip courses).
    rewrite <- (filter_filter_sub gpaCounted creditBearing courses')
      by exact gpaCounted_creditBearing.
    rewrite <- (filter_filter_sub gpaCounted creditBearing courses)
      by exact gpaCounted_creditBearing.
    rewrite H. reflexivity. }
  unfold computeProgress. rewrite Ht, Hg. reflexivity.
Qed.

Lemma report_reads_credit_bearing_courses_witness :
  filter creditBearing [sample_swimming; sample_calculus; sample_swimming; sample_legacy]
  = filter creditBearing [sample_calculus; sample_legacy] /\
  computeProgress [sample_swimming; sample_calculus; sample_swimming; sample_legacy]
    ACCOUNTING_111_REQUIREMENTS
  = computeProgress [sample_calculus; sample_legacy] ACCOUNTING_111_REQUIREMENTS.
Proof.
  assert (H : filter creditBearing
                [sample_swimming; sample_calculus; sample_swimming; sample_legacy]
              = filter creditBearing [sample_calculus; sample_legacy])
    by reflexivity.
  split; [exact H | ].
  exact (report_reads_credit_bearing_courses _ _ ACCOUNTING_111_REQUIREMENTS H).
Defined.

(** The GPA strings only read the courses that pass the GPA guard, wherever
    they stand in the list; and a course fails the guard whenever its grade
    is not a letter grade, its credits are not greater than 0 (zero, negative
    or NaN), or its category is 體育. *)
Theorem gpa_reads_counted_courses :
  forall (courses : list Course) (requirements : GraduationRequirements),
    currentGPA (computeProgress (filter gpaCounted courses) requirements)
    = currentGPA (computeProgress courses requirements) /\
    projectedGPA (computeProgress (filter gpaCounted courses) requirements)
    = projectedGPA (computeProgress courses requirements) /\
    (forall c : Course,
        ~ In (grade c) letter_grades \/ (0 <? credits c)%float = false \/
        category c = PhysicalEducation ->
        gpaCounted c = false).
Proof.
  intros courses requirements.
  assert (Hg : gpaPools (filter gpaCounted courses) = gpaPools courses).
  { unfold gpaPools. symmetry.
    rewrite (fold_gpaStep_skip (filter gpaCounted courses)).
    rewrite filter_filter_sub by (intros; assumption).
    apply fold_gpaStep_skip. }
  unfold computeProgress; simpl. rewrite Hg.
  split; [reflexivity | ]. split; [reflexivity | ].
  intros c [Hgr | [Hcr | Hpe]]; unfold gpaCounted.
  - rewrite ungraded_not_counted; [reflexivity | right; exact Hgr].
  - unfold countsForGPA. destruct (lookup (grade c) GRADE_POINTS); [ | reflexivity].
    rewrite Hcr, andb_false_r. reflexivity.
  - unfold countsForGPA. destruct (lookup (grade c) GRADE_POINTS); [ | reflexivity].
    rewrite Hpe, String.eqb_refl, andb_false_r. reflexivity.
Qed.

Lemma gpa_reads_counted_courses_witness :
  let zero := mkCourse "z" "111-1" "Forum" 0 DeptRequired "F" None in
  (~ In (grade zero) letter_grades \/ (0 <? credits zero)%float = false \/
   category zero = PhysicalEducation) /\
  gpaCounted zero = false.
Proof.
  intros zero.
  assert (H : ~ In (grade zero) letter_grades \/ (0 <? credits zero)%float = false \/
              category zero = PhysicalEducation) by (right; left; reflexivity).
  split; [exact H | ].
  destruct (gpa_reads_counted_courses [] ACCOUNTING_111_REQUIREMENTS) as (_ & _ & Hc).
  exact (Hc zero H).
Defined.

Lemma reducer_side_congr (cur : bool) (acc1 acc2 : Totals) (c : Course) :
  sideView cur acc1 = sideView cur acc2 ->
  sideView cur (reducer acc1 c) = sideView cur (reducer acc2 c).
Proof.
  intros H. unfold reducer.
  destruct (String.eqb (category c) PhysicalEducation); [exact H | ].
  destruct acc1 as [[? ?] [? ?] [? ?] [? ?] [? ?] [? ?]],
           acc2 as [[? ?] [? ?] [? ?] [? ?] [? ?] [? ?]].
  destruct cur; simpl in H; injection H as -> -> -> -> -> ->;
    destruct (truthy (isCurrent c)), (targetKey (category c)); reflexivity.
Qed.

Lemma reducer_other_side (cur : bool) (acc : Totals) (c : Course) :
  Bool.eqb (truthy (isCurrent c)) cur = false ->
  sideView cur (reducer acc c) = sideView cur acc.
Proof.
  intros H. unfold reducer.
  destruct (String.eqb (category c) PhysicalEducation); [reflexivity | ].
  destruct (truthy (isCurrent c)), cur; try discriminate H;
    destruct (targetKey (category c)); reflexivity.
Qed.

Lemma fold_side_congr (cur : bool) (l : list Course) (acc1 acc2 : Totals) :
  sideView cur acc1 = sideView cur acc2 ->
  sideView cur (fold_left reducer l acc1) = sideView cur (fold_left reducer l acc2).
Proof.
  revert acc1 acc2. induction l as [ | c l IH]; intros acc1 acc2 H; simpl.
  - exact H.
  - apply IH, reducer_side_congr, H.
Qed.

Lemma fold_side_filter (cur : bool) (l : list Course) (acc : Totals) :
  sideView cur (fold_left reducer l acc)
  = sideView cur
      (fold_left reducer (filter (fun c => Bool.eqb (truthy (isCurrent c)) cur) l) acc).
Proof.
  revert acc. induction l as [ | c l IH]; intros acc; simpl.
  - reflexivity.
  - destruct (Bool.eqb (truthy (isCurrent c)) cur) eqn:Hc; simpl.
    + apply IH.
    + rewrite <- IH. apply fold_side_congr, reducer_other_side, Hc.
Qed.

(** Completed and in-progress courses are kept apart: the earned sums of the
    total and of every bucket, and the current GPA, are those of the
    completed courses alone; the projected sums are those of the in-progress
    courses alone.  Marking courses as in progress, or adding in-progress
    courses, never changes an earned sum or the current GPA. *)
Theorem earned_and_projected_are_separate :
  forall (courses : list Course) (requirements : GraduationRequirements),
    sideView false (totals courses) = sideView false (totals (filter completed courses)) /\
    sideView true (totals courses) = sideView true (totals (filter inProgress courses)) /\
    sideView true (totals (filter completed courses)) = sideView true initialAcc /\
    sideView false (totals (filter inProgress courses)) = sideView false initialAcc /\
    currentGPA (computeProgress courses requirements)
    = currentGPA (computeProgress (filter completed courses) requirements).
Proof.
  intros courses requirements.
  assert (Hcompleted : forall l,
             filter (fun c => Bool.eqb (truthy (isCurrent c)) false) l = filter completed l).
  { intros l. apply filter_ext. intros c. unfold completed.
    destruct (truthy (isCurrent c)); reflexivity. }
  assert (Hprogress : forall l,
             filter (fun c => Bool.eqb (truthy (isCurrent c)) true) l = filter inProgress l).
  { intros l. apply filter_ext. intros c. unfold inProgress.
    destruct (truthy (isCurrent c)); reflexivity. }
  split; [ | split; [ | split; [ | split]]].
  - unfold totals. rewrite (fold_side_filter false courses), Hcompleted. reflexivity.
  - unfold totals. rewrite (fold_side_filter true courses), Hprogress. reflexivity.
  - unfold totals. rewrite (fold_side_filter true (filter completed courses)), Hprogress.
    replace (filter inProgress (filter completed courses)) with (@nil Course);
      [reflexivity | ].
    symmetry. induction courses as [ | c l IH]; simpl; [reflexivity | ].
    unfold completed, inProgress in *.
    destruct (truthy (isCurrent c)) eqn:E; simpl; [exact IH | ].
    rewrite E. exact IH.
  - unfold totals. rewrite (fold_side_filter false (filter inProgress courses)), Hcompleted.
    replace (filter completed (filter inProgress courses)) with (@nil Course);
      [reflexivity | ].
    symmetry. induction courses as [ | c l IH]; simpl; [reflexivity | ].
    unfold completed, inProgress in *.
    destruct (truthy (isCurrent c)) eqn:E; simpl; [ | exact IH].
    rewrite E. exact IH.
  - unfold computeProgress; simpl.
    assert (Hpool : poolPart false (gpaPools courses)
                    = poolPart false (gpaPools (filter completed courses))).
    { apply pool_same_order. symmetry. apply filter_filter_sub.
      intros c. unfold inPool, completed.
      destruct (countsForGPA c); [ | discriminate].
      destruct (truthy (isCurrent c)); [discriminate | reflexivity]. }
    unfold poolPart in Hpool. injection Hpool as Hp Hc.
    unfold currentGPA_of. rewrite Hp, Hc. reflexivity.
Qed.

(** * Sign of the GPA accumulators *)

Lemma binary_round_aux_sign (sx : bool) (m e : Z) (l : location) :
  binary_round_aux prec emax sx m e l = S754_nan \/
  binary_round_aux prec emax sx m e l = S754_zero sx \/
  binary_round_aux prec emax sx m e l = S754_infinity sx \/
  exists m' e', binary_round_aux prec emax sx m e l = S754_finite sx m' e'.
Proof.
  unfold binary_round_aux.
  destruct (shr_fexp prec emax m e l) as [mrs' e'].
  destruct (shr_fexp prec emax _ e' loc_Exact) as [mrs'' e''].
  destruct (shr_m mrs'') as [ | p | p].
  - right; left; reflexivity.
  - destruct (e'' <=? emax - prec).
    + right; right; right. exists p, e''. reflexivity.
    + right; right; left; reflexivity.
  - left; reflexivity.
Qed.

Lemma binary_round_aux_clear (m e : Z) (l : location) :
  SFsignClear (binary_round_aux prec emax false m e l) = true.
Proof.
  destruct (binary_round_aux_sign false m e l) as [H | [H | [H | (m' & e' & H)]]];
    rewrite H; reflexivity.
Qed.

Lemma SFmul_clear (x y : spec_float) :
  SFsignClear x = true -> SFsignClear y = true -> SFsignClear (SF64mul x y) = true.
Proof.
  unfold SF64mul, SFmul.
  destruct x as [[ | ] | [ | ] | | [ | ] mx ex], y as [[ | ] | [ | ] | | [ | ] my ey];
    simpl; intros Hx Hy; try discriminate; try reflexivity.
  apply binary_round_aux_clear.
Qed.

Lemma SFadd_clear (x y : spec_float) :
  SFsignClear x = true -> SFsignClear y = true -> SFsignClear (SF64add x y) = true.
Proof.
  unfold SF64add, SFadd.
  destruct x as [[ | ] | [ | ] | | [ | ] mx ex], y as [[ | ] | [ | ] | | [ | ] my ey];
    simpl; intros Hx Hy; try discriminate; try reflexivity.
  unfold binary_round. 
  destruct (shl_align _ _ _) as [mz ez]. apply binary_round_aux_clear.
Qed.

Lemma add_clear (x y : float) :
  signClear x = true -> signClear y = true -> signClear (x + y)%float = true.
Proof. unfold signClear. rewrite FloatAxioms.add_spec. apply SFadd_clear. Qed.

Lemma mul_clear (x y : float) :
  signClear x = true -> signClear y = true -> signClear (x * y)%float = true.
Proof. unfold signClear. rewrite FloatAxioms.mul_spec. apply SFmul_clear. Qed.

Lemma positive_clear (x : float) : (0 <? x)%float = true -> signClear x = true.
Proof.
  unfold signClear. rewrite FloatAxioms.ltb_spec.
  change (Prim2SF 0) with (S754_zero false).
  destruct (Prim2SF x) as [[ | ] | [ | ] | | [ | ] m e]; simpl;
    intros H; try discriminate H; reflexivity.
Qed.

Lemma add_zero_r (x : float) : signClear x = true -> (x + 0)%float = x.
Proof.
  unfold signClear. intros Hx. apply Prim2SF_inj.
  rewrite FloatAxioms.add_spec. change (Prim2SF 0) with (S754_zero false).
  destruct (Prim2SF x) as [[ | ] | [ | ] | | [ | ] m e]; simpl in *;
    try discriminate Hx; reflexivity.
Qed.

Lemma lookup_in (g : string) (table : list (string * float)) (p : float) :
  lookup g table = Some p -> In p (map snd table).
Proof.
  induction table as [ | [k v] rest IH]; simpl; [discriminate | ].
  destruct (String.eqb k g); intros H.
  - left. injection H as ->. reflexivity.
  - right. apply IH, H.
Qed.

Lemma counted_points_clear (c : Course) (p : float) :
  countsForGPA c = Some p ->
  signClear p = true /\ signClear (credits c) = true.
Proof.
  unfold countsForGPA.
  destruct (lookup (grade c) GRADE_POINTS) as [q | ] eqn:Hl; [ | discriminate].
  destruct (0 <=? q)%float eqn:Hq; [ | discriminate].
  destruct (0 <? credits c)%float eqn:Hc; [ | discriminate].
  destruct (negb (String.eqb (category c) PhysicalEducation)); [ | discriminate].
  simpl. intros H. injection H as <-.
  split; [ | apply positive_clear, Hc].
  apply lookup_in in Hl. simpl in Hl.
  destruct Hl as [H|[H|[H|[H|[H|[H|[H|[H|[H|[H|[H|[]]]]]]]]]]]]; subst q;
    try reflexivity.
  vm_compute in Hq. discriminate Hq.
Qed.

Lemma gpaStep_clear (st : GpaPools) (c : Course) :
  poolsSignClear st = true -> poolsSignClear (gpaStep st c) = true.
Proof.
  unfold poolsSignClear, gpaStep. intros H.
  apply andb_prop in H. destruct H as [H H4].
  apply andb_prop in H. destruct H as [H H3].
  apply andb_prop in H. destruct H as [H1 H2].
  destruct (countsForGPA c) as [p | ] eqn:Hp.
  - destruct (counted_points_clear c p Hp) as [Hpc Hcc].
    destruct (truthy (isCurrent c)); simpl;
      rewrite ?H1, ?H2, ?H3, ?H4; simpl;
      rewrite !add_clear; auto using mul_clear.
  - simpl. rewrite H1, H2, H3, H4. reflexivity.
Qed.

Lemma gpaPools_clear (courses : list Course) :
  poolsSignClear (gpaPools courses) = true.
Proof.
  unfold gpaPools.
  assert (H : forall st, poolsSignClear st = true ->
                         poolsSignClear (fold_left gpaStep courses st) = true).
  { induction courses as [ | c l IH]; intros st Hst; simpl; [exact Hst | ].
    apply IH, gpaStep_clear, Hst. }
  apply H. reflexivity.
Qed.

(** With no in-progress course that passes the GPA guard, the projected GPA
    is the current GPA.  (The accumulators never hold -0, so adding the empty
    projected pool changes neither the points nor the weight.) *)
Theorem projected_gpa_without_courses_in_progress :
  forall (courses : list Course) (requirements : GraduationRequirements),
    filter (inPool true) courses = [] ->
    projectedGPA (computeProgress courses requirements)
    = currentGPA (computeProgress courses requirements).
Proof.
  intros courses requirements Hnone.
  assert (Hpool : poolPart true (gpaPools courses) = poolPart true (gpaPools [])).
  { apply pool_same_order. exact Hnone. }
  unfold poolPart in Hpool. simpl in Hpool. injection Hpool as Hp Hc.
  pose proof (gpaPools_clear courses) as Hclear.
  unfold poolsSignClear in Hclear.
  apply andb_prop in Hclear. destruct Hclear as [Hclear _].
  apply andb_prop in Hclear. destruct Hclear as [Hclear _].
  apply andb_prop in Hclear. destruct Hclear as [H1 H2].
  unfold computeProgress; simpl. unfold projectedGPA_of, currentGPA_of.
  rewrite Hp, Hc, !add_zero_r by assumption. reflexivity.
Qed.

Lemma projected_gpa_without_courses_in_progress_witness :
  filter (inPool true) tie_courses = [] /\
  projectedGPA (computeProgress tie_courses ACCOUNTING_111_REQUIREMENTS)
  = currentGPA (computeProgress tie_courses ACCOUNTING_111_REQUIREMENTS).
Proof.
  assert (H : filter (inPool true) tie_courses = []) by reflexivity.
  split; [exact H | ].
  exact (projected_gpa_without_courses_in_progress tie_courses
           ACCOUNTING_111_REQUIREMENTS H).
Defined.

(** * Order of whole binary64 numbers *)

Lemma SFcompare_canon (a b : positive) :
  Z.pos a < 2 ^ 53 -> Z.pos b < 2 ^ 53 ->
  SFcompare (canon false a) (canon false b) = Some (Z.pos a ?= Z.pos b).
Proof.
  intros Ha Hb.
  destruct (Binary64.digits_below a Ha) as [Ha0 Hda].
  destruct (Binary64.digits_below b Hb) as [Hb0 Hdb].
  pose proof (Binary64.digits2_pos_bounds a) as [Alo Ahi].
  pose proof (Binary64.digits2_pos_bounds b) as [Blo Bhi].
  unfold canon, SFcompare.
  set (da := Z.pos (digits2_pos a)) in *. set (db := Z.pos (digits2_pos b)) in *.
  destruct (Z.compare_spec (da - 53) (db - 53)) as [E | L | G].
  - assert (Hd : da = db) by lia.
    change (Pos.compare_cont Eq (pshl a (53 - da)) (pshl b (53 - db)))
      with (Z.pos (pshl a (53 - da)) ?= Z.pos (pshl b (53 - db))).
    rewrite !Binary64.pshl_value by lia. rewrite Hd.
    assert (Hpow : 0 < 2 ^ (53 - db)) by (apply Z.pow_pos_nonneg; lia).
    f_equal.
    destruct (Z.compare_spec (Z.pos a) (Z.pos b)) as [E' | L' | G'].
    + rewrite E'. apply Z.compare_refl.
    + apply Z.compare_lt_iff. nia.
    + apply Z.compare_gt_iff. nia.
  - assert (Hlt : Z.pos a < Z.pos b).
    { assert (2 ^ da <= 2 ^ (db - 1)) by (apply Z.pow_le_mono_r; lia). lia. }
    apply Z.compare_lt_iff in Hlt. rewrite Hlt. reflexivity.
  - assert (Hgt : Z.pos b < Z.pos a).
    { assert (2 ^ db <= 2 ^ (da - 1)) by (apply Z.pow_le_mono_r; lia). lia. }
    apply Z.compare_gt_iff in Hgt. rewrite Hgt. reflexivity.
Qed.

(** On whole numbers below [2^53] the binary64 comparison is the integer
    comparison. *)
Lemma Z2F_leb (a b : Z) :
  0 <= a < 2 ^ 53 -> 0 <= b < 2 ^ 53 ->
  (Z2F a <=? Z2F b)%float = (a <=? b).
Proof.
  intros Ha Hb. rewrite FloatAxioms.leb_spec, !Prim2SF_Z2F by lia.
  unfold SFleb.
  destruct a as [ | a | a], b as [ | b | b]; try lia.
  - reflexivity.
  - rewrite Binary64.Z2SF_pos by lia. reflexivity.
  - rewrite Binary64.Z2SF_pos by lia. reflexivity.
  - rewrite !Binary64.Z2SF_pos by lia. rewrite SFcompare_canon by lia.
    unfold Z.leb. destruct (Z.pos a ?= Z.pos b); reflexivity.
Qed.

Lemma unitSum_sides (l : list Course) (k : TargetKey) :
  unitSum (filter (inBucket k false) l) + unitSum (filter (inBucket k true) l)
  <= unitSum (filter creditBearing l).
Proof.
  induction l as [ | c l IH]; simpl; [lia | ].
  pose proof (unitsOf_nonneg (credits c)) as Hc.
  unfold inBucket, inTotal in *.
  destruct (creditBearing c), (truthy (isCurrent c)),
    (TargetKey_eqb (targetKey (category c)) k); simpl; lia.
Qed.

(** With whole-number credits (adding up to less than [2^53]) and a
    whole-number requirement, a progress bar is marked as met exactly when
    the earned credits of its bucket reach the requirement, and as met with
    projection exactly when earned plus projected credits do; so a bar that
    is met is also met with projection. *)
Theorem met_flags_on_whole_credits :
  forall (courses : list Course) (k : TargetKey) (m : Z),
    Forall (fun c => wholeNumber (credits c)) (filter creditBearing courses) ->
    unitSum (filter creditBearing courses) < 2 ^ 53 ->
    0 <= m < 2 ^ 53 ->
    let b := getBucket k (totals courses) in
    let e := unitSum (filter (inBucket k false) courses) in
    let p := unitSum (filter (inBucket k true) courses) in
    isMet b (Z2F m) = (m <=? e) /\
    isMetProjected b (Z2F m) = (m <=? e + p) /\
    (isMet b (Z2F m) = true -> isMetProjected b (Z2F m) = true).
Proof.
  intros courses k m Hw Hb Hm b e p. subst b e p.
  destruct (totals_whole courses Hw Hb) as [Hk _].
  pose proof (Hk k false) as He. pose proof (Hk k true) as Hp. simpl in He, Hp.
  pose proof (unitSum_sides courses k) as Hsum.
  pose proof (unitSum_nonneg (filter (inBucket k false) courses)) as He0.
  pose proof (unitSum_nonneg (filter (inBucket k true) courses)) as Hp0.
  unfold isMet, isMetProjected. rewrite He, Hp.
  rewrite Z2F_add by lia. rewrite !Z2F_leb by lia.
  split; [reflexivity | ]. split; [reflexivity | ].
  intros H. apply Z.leb_le in H. apply Z.leb_le. lia.
Qed.

Lemma met_flags_on_whole_credits_witness :
  let courses := [sample_calculus; sample_service; sample_swimming] in
  Forall (fun c => wholeNumber (credits c)) (filter creditBearing courses) /\
  unitSum (filter creditBearing courses) < 2 ^ 53 /\
  0 <= 9 < 2 ^ 53 /\
  isMet (commonRequired (totals courses)) (req_commonRequired ACCOUNTING_111_REQUIREMENTS)
  = true.
Proof.
  intros courses.
  assert (Hw : Forall (fun c => wholeNumber (credits c))
                 (filter creditBearing courses)) by repeat constructor.
  assert (Hb : unitSum (filter creditBearing courses) < 2 ^ 53) by reflexivity.
  assert (Hm : 0 <= 9 < 2 ^ 53) by (split; [discriminate | reflexivity]).
  split; [exact Hw | ]. split; [exact Hb | ]. split; [exact Hm | ].
  destruct (met_flags_on_whole_credits courses KCommonRequired 9 Hw Hb Hm)
    as (Hmet & _ & _).
  exact Hmet.
Defined.

(** * Semester labels *)

Lemma split_nonempty (s : string) : split s <> [].
Proof.
  destruct s as [ | c rest]; simpl; [discriminate | ].
  destruct (isDigit c); [ | discriminate].
  destruct (split rest); discriminate.
Qed.

(** The pieces of [split] that start with a digit write the values of the
    maximal digit runs of the label. *)
Lemma tokenValues_split_open (s : string) :
  (forall n : Z,
      digitRuns (Some n) s
      = match split s with
        | tok :: toks => parseDigits n tok :: tokenValues toks
        | [] => []
        end) /\
  digitRuns None s = tokenValues (split s).
Proof.
  induction s as [ | c rest [IHopen IHnone]]; [split; reflexivity | ].
  simpl digitRuns. simpl split.
  destruct (isDigit c) eqn:Hc.
  - pose proof (split_nonempty rest) as Hne.
    destruct (split rest) as [ | tok toks]; [contradiction | ].
    split.
    + intros n. rewrite IHopen. simpl. rewrite Hc. reflexivity.
    + rewrite IHopen. simpl. rewrite Hc. reflexivity.
  - split.
    + intros n. rewrite IHnone. reflexivity.
    + rewrite IHnone. reflexivity.
Qed.

Lemma tokenValues_split (s : string) : tokenValues (split s) = digitRuns None s.
Proof. symmetry. apply tokenValues_split_open. Qed.

Lemma is_nan_nan : PrimFloat.is_nan nan = true.
Proof. reflexivity. Qed.

Lemma numbers_tokenValues (toks : list string) :
  numbers toks
  = filter (fun n => negb (PrimFloat.is_nan n)) (map numberOf (tokenValues toks)).
Proof.
  unfold numbers. induction toks as [ | tok rest IH]; [reflexivity | ].
  destruct tok as [ | c r]; cbn [map tokenValues].
  - unfold parseInt at 1. cbn [filter]. rewrite is_nan_nan. exact IH.
  - unfold parseInt at 1. destruct (isDigit c); cbn [map filter].
    + rewrite IH. reflexivity.
    + rewrite is_nan_nan. exact IH.
Qed.

Lemma digitValue_nonneg (c : ascii) : isDigit c = true -> 0 <= digitValue c.
Proof.
  unfold isDigit, digitValue. intros H. apply andb_prop in H. destruct H as [H _].
  apply Nat.leb_le in H. lia.
Qed.

Lemma digitRuns_nonneg (s : string) (open : option Z) :
  match open with Some n => 0 <= n | None => True end ->
  Forall (fun n => 0 <= n) (digitRuns open s).
Proof.
  revert open. induction s as [ | c rest IH]; intros open Hopen; cbn [digitRuns].
  - destruct open; repeat constructor. exact Hopen.
  - destruct (isDigit c) eqn:Hc.
    + apply IH. pose proof (digitValue_nonneg c Hc). destruct open; cbv beta iota; lia.
    + destruct open; [constructor; [exact Hopen | ] | ]; apply IH; exact I.
Qed.

Lemma digitRuns_no_digit (s : string) :
  hasDigit s = false -> digitRuns None s = [].
Proof.
  induction s as [ | c rest IH]; simpl; [reflexivity | ].
  intros H. apply orb_false_elim in H. destruct H as [Hc Hrest].
  rewrite Hc. apply IH, Hrest.
Qed.

(** ** Whole numbers below [2^53] in binary64 *)

Lemma numberOf_exact (z : Z) : 0 <= z < 2 ^ 53 -> numberOf z = Z2F z.
Proof.
  intros Hz. unfold numberOf, JSNumber.Z2SF.
  rewrite <- Prim2SF_Z2F by assumption. apply SF2Prim_Prim2SF.
Qed.

Lemma Z2F_eqb (a b : Z) :
  0 <= a < 2 ^ 53 -> 0 <= b < 2 ^ 53 ->
  (Z2F a =? Z2F b)%float = (a =? b).
Proof.
  intros Ha Hb. rewrite FloatAxioms.eqb_spec, !Prim2SF_Z2F by lia.
  unfold SFeqb.
  destruct a as [ | a | a], b as [ | b | b]; try lia.
  - reflexivity.
  - rewrite Binary64.Z2SF_pos by lia. reflexivity.
  - rewrite Binary64.Z2SF_pos by lia. reflexivity.
  - rewrite !Binary64.Z2SF_pos by lia. rewrite SFcompare_canon by lia.
    unfold Z.eqb. destruct (Z.pos a ?= Z.pos b) eqn:E.
    + apply Z.compare_eq in E. injection E as ->. rewrite Pos.eqb_refl. reflexivity.
    + destruct (Pos.eqb_spec a b) as [-> | ]; [ | reflexivity].
      rewrite Z.compare_refl in E. discriminate E.
    + destruct (Pos.eqb_spec a b) as [-> | ]; [ | reflexivity].
      rewrite Z.compare_refl in E. discriminate E.
Qed.

Lemma Z2F_is_nan (n : Z) : 0 <= n < 2 ^ 53 -> PrimFloat.is_nan (Z2F n) = false.
Proof.
  intros Hn. unfold PrimFloat.is_nan. rewrite Z2F_eqb by assumption.
  rewrite Z.eqb_refl. reflexivity.
Qed.

Lemma Z2F_is_zero (n : Z) :
  0 <= n < 2 ^ 53 -> PrimFloat.is_zero (Z2F n) = (n =? 0).
Proof.
  intros Hn. unfold PrimFloat.is_zero. change zero with (Z2F 0).
  apply Z2F_eqb; [assumption | lia].
Qed.

Lemma SFsub_canon (a b : positive) :
  Z.pos a < 2 ^ 53 -> Z.pos b < 2 ^ 53 ->
  SF64sub (canon false a) (canon false b) = signedCanon (Z.pos a - Z.pos b).
Proof.
  intros Ha Hb.
  destruct (Binary64.digits_below a Ha) as [Ha0 Hda].
  destruct (Binary64.digits_below b Hb) as [Hb0 Hdb].
  unfold SF64sub, SFsub, canon.
  set (da := Z.pos (digits2_pos a)) in *.
  set (db := Z.pos (digits2_pos b)) in *.
  set (ez := Z.min (da - 53) (db - 53)).
  rewrite !Binary64.shl_align_fst by (unfold ez; lia).
  rewrite !Binary64.pshl_pshl by (unfold ez; lia).
  unfold cond_Zopp.
  replace (53 - da + (da - 53 - ez)) with (- ez) by lia.
  replace (53 - db + (db - 53 - ez)) with (- ez) by lia.
  assert (Hk : 0 <= - ez <= 1074) by (unfold ez; lia).
  assert (Hpow : 0 < 2 ^ (- ez)) by (apply Z.pow_pos_nonneg; lia).
  assert (Hdiff : Z.pos (pshl a (- ez)) - Z.pos (pshl b (- ez))
                  = match Z.pos a - Z.pos b with
                    | 0 => 0
                    | Z.pos p => Z.pos (pshl p (- ez))
                    | Z.neg p => Z.neg (pshl p (- ez))
                    end).
  { rewrite !Binary64.pshl_value by lia.
    destruct (Z.pos a - Z.pos b) as [ | p | p] eqn:E.
    - nia.
    - rewrite Binary64.pshl_value by lia. nia.
    - rewrite <- Pos2Z.opp_pos. rewrite Binary64.pshl_value by lia.
      assert (Z.pos a - Z.pos b = - Z.pos p) by (rewrite E; reflexivity). nia. }
  rewrite Hdiff.
  destruct (Z.pos a - Z.pos b) as [ | p | p] eqn:E.
  - reflexivity.
  - unfold binary_normalize, signedCanon.
    replace ez with (- - ez) at 2 by lia.
    apply Binary64.binary_round_exact; lia.
  - unfold binary_normalize, signedCanon.
    replace ez with (- - ez) at 2 by lia.
    assert (Z.pos a - Z.pos b = - Z.pos p) by (rewrite E; reflexivity).
    apply Binary64.binary_round_exact; lia.
Qed.

(** On whole numbers below [2^53] the binary64 subtraction is the integer
    subtraction. *)
Lemma Z2F_sub (a b : Z) :
  0 <= a < 2 ^ 53 -> 0 <= b < 2 ^ 53 ->
  Prim2SF (Z2F a - Z2F b)%float = signedCanon (a - b).
Proof.
  intros Ha Hb. rewrite FloatAxioms.sub_spec, !Prim2SF_Z2F by lia.
  destruct a as [ | a | a], b as [ | b | b]; try lia.
  - reflexivity.
  - rewrite Binary64.Z2SF_pos by lia. reflexivity.
  - rewrite Binary64.Z2SF_pos by lia. reflexivity.
  - rewrite !Binary64.Z2SF_pos by lia. apply SFsub_canon; lia.
Qed.

Lemma signedCanon_cases (z : Z) :
  (z = 0 /\ signedCanon z = S754_zero false) \/
  (z <> 0 /\ exists m e, signedCanon z = S754_finite (z <? 0) m e).
Proof.
  destruct z as [ | p | p].
  - left. split; reflexivity.
  - right. split; [discriminate | ]. unfold signedCanon, canon. eauto.
  - right. split; [discriminate | ]. unfold signedCanon, canon. eauto.
Qed.

Lemma Z2F_sub_signs (a b : Z) :
  0 <= a < 2 ^ 53 -> 0 <= b < 2 ^ 53 ->
  let d := (Z2F a - Z2F b)%float in
  (d =? 0)%float = (a =? b) /\
  (d <? 0)%float = (a <? b) /\
  (0 <? d)%float = (b <? a) /\
  PrimFloat.is_nan d = false.
Proof.
  intros Ha Hb d. subst d. unfold PrimFloat.is_nan.
  rewrite !FloatAxioms.eqb_spec, !FloatAxioms.ltb_spec, Z2F_sub by assumption.
  change (Prim2SF 0) with (S754_zero false).
  destruct (signedCanon_cases (a - b)) as [[Hz ->] | [Hz (m & e & ->)]].
  - assert (Hab : a = b) by lia. subst b.
    rewrite Z.eqb_refl, Z.ltb_irrefl. repeat split; reflexivity.
  - unfold SFeqb, SFltb, SFcompare.
    rewrite Z.compare_refl, Pos.compare_cont_refl.
    destruct (Z.ltb_spec (a - b) 0) as [Hneg | Hpos].
    + destruct (Z.eqb_spec a b); [lia | ].
      destruct (Z.ltb_spec a b); [ | lia].
      destruct (Z.ltb_spec b a); [lia | ]. repeat split; reflexivity.
    + destruct (Z.eqb_spec a b); [lia | ].
      destruct (Z.ltb_spec a b); [lia | ].
      destruct (Z.ltb_spec b a); [ | lia]. repeat split; reflexivity.
Qed.

(** ** Year and term of a label *)

Lemma orZero_runs (l : list Z) (i : nat) :
  Forall (fun n => 0 <= n) l ->
  (forall j, (j <= i)%nat -> nth j l 0 < 2 ^ 53) ->
  orZero (filter (fun n => negb (PrimFloat.is_nan n)) (map numberOf l)) i
  = Z2F (nth i l 0).
Proof.
  revert i. induction l as [ | a l IH]; intros i Hpos Hlt.
  - destruct i; reflexivity.
  - inversion Hpos as [ | ? ? Ha Hl]; subst.
    assert (Ha' : 0 <= a < 2 ^ 53).
    { split; [exact Ha | ]. apply (Hlt 0%nat). lia. }
    cbn [map filter].
    rewrite numberOf_exact, Z2F_is_nan by assumption. cbn [negb].
    destruct i as [ | i].
    + unfold orZero. cbn [nth_error nth].
      rewrite Z2F_is_nan, Z2F_is_zero by assumption. cbn [orb].
      destruct (Z.eqb_spec a 0) as [-> | ]; reflexivity.
    + specialize (IH i Hl). unfold orZero in IH |- *. cbn [nth_error nth].
      apply IH. intros j Hj. apply (Hlt (S j)). lia.
Qed.

Lemma exactLabel_bounds (sem : string) :
  exactLabel sem = true ->
  0 <= yearNumber sem < 2 ^ 53 /\ 0 <= termNumber sem < 2 ^ 53.
Proof.
  unfold exactLabel. intros H. apply andb_prop in H. destruct H as [Hy Ht].
  apply Z.ltb_lt in Hy, Ht.
  pose proof (digitRuns_nonneg sem None I) as Hpos.
  unfold yearNumber, termNumber in *.
  destruct (digitRuns None sem) as [ | y [ | t rest]]; simpl in *.
  - lia.
  - inversion Hpos; subst. lia.
  - inversion Hpos as [ | ? ? Hy0 Hrest]; subst.
    inversion Hrest; subst. lia.
Qed.

(** The year and the term the code computes for a label are the first and
    the second digit run, as binary64 numbers. *)
Lemma label_numbers (sem : string) :
  exactLabel sem = true ->
  yearOf sem = Z2F (yearNumber sem) /\ termOf sem = Z2F (termNumber sem).
Proof.
  intros Hexact. destruct (exactLabel_bounds sem Hexact) as [Hy Ht].
  pose proof (digitRuns_nonneg sem None I) as Hpos.
  unfold yearOf, termOf.
  rewrite numbers_tokenValues, tokenValues_split.
  unfold yearNumber, termNumber in *. split.
  - apply orZero_runs; [exact Hpos | ].
    intros j Hj. replace j with 0%nat by lia. lia.
  - apply orZero_runs; [exact Hpos | ].
    intros j Hj. assert (j = 0 \/ j = 1)%nat as [-> | ->] by lia; lia.
Qed.

Lemma no_digit_label (s : string) :
  hasDigit s = false ->
  exactLabel s = true /\ yearNumber s = 0 /\ termNumber s = 0.
Proof.
  intros H. unfold exactLabel, yearNumber, termNumber.
  rewrite (digitRuns_no_digit s H). repeat split.
Qed.

Lemma compareSemesters_cases (semA semB : string) :
  compareSemesters semA semB
  = (if negb (yearOf semA =? yearOf semB)%float
     then yearOf semA - yearOf semB
     else termOf semA - termOf semB)%float.
Proof. reflexivity. Qed.

(** ** The display comparator and the sort *)

Section OrderingProperties.

Variable localeCompare : string -> string -> Z.

Local Abbreviation cmp := (compareForDisplay localeCompare).
Local Abbreviation verdict a b := (sortCompare (compareForDisplay localeCompare a b)).

(** On labels with exact numbers the comparator never returns NaN, and the
    sort reads its result as the lexicographic comparison of year, term and
    name. *)
Lemma verdict_exact (a b : Course) :
  exactLabel (semester a) = true -> exactLabel (semester b) = true ->
  let ya := yearNumber (semester a) in
  let yb := yearNumber (semester b) in
  let ta := termNumber (semester a) in
  let tb := termNumber (semester b) in
  verdict a b
  = (if ya <? yb then -1 else if yb <? ya then 1
     else if ta <? tb then -1 else if tb <? ta then 1
     else localeCompare (name a) (name b)) /\
  notANumber (cmp a b) = false.
Proof.
  intros Ha Hb ya yb ta tb.
  destruct (exactLabel_bounds _ Ha) as [Hya Hta].
  destruct (exactLabel_bounds _ Hb) as [Hyb Htb].
  destruct (label_numbers _ Ha) as [Eya Eta].
  destruct (label_numbers _ Hb) as [Eyb Etb].
  fold ya in Hya, Eya. fold yb in Hyb, Eyb.
  fold ta in Hta, Eta. fold tb in Htb, Etb.
  unfold compareForDisplay. rewrite compareSemesters_cases.
  rewrite Eya, Eyb, Eta, Etb. rewrite Z2F_eqb by assumption.
  destruct (Z2F_sub_signs ya yb Hya Hyb) as (Yz & Yn & Yp & Ynan).
  destruct (Z2F_sub_signs ta tb Hta Htb) as (Tz & Tn & Tp & Tnan).
  destruct (Z.eqb_spec ya yb) as [Ey | Ny]; simpl negb; cbv iota.
  - rewrite Tz.
    destruct (Z.ltb_spec ya yb); [lia | ]. destruct (Z.ltb_spec yb ya); [lia | ].
    destruct (Z.eqb_spec ta tb) as [Et | Nt]; simpl negb; cbv iota.
    + destruct (Z.ltb_spec ta tb); [lia | ]. destruct (Z.ltb_spec tb ta); [lia | ].
      split; reflexivity.
    + unfold sortCompare, notANumber. rewrite Tn, Tp, Tnan.
      destruct (Z.ltb_spec ta tb); [split; reflexivity | ].
      destruct (Z.ltb_spec tb ta); [split; reflexivity | lia].
  - rewrite Yz.
    destruct (Z.eqb_spec ya yb) as [ | _]; [contradiction | ]. simpl negb. cbv iota.
    unfold sortCompare, notANumber. rewrite Yn, Yp, Ynan.
    destruct (Z.ltb_spec ya yb); [split; reflexivity | ].
    destruct (Z.ltb_spec yb ya); [split; reflexivity | lia].
Qed.

Lemma verdict_zero (a b : Course) :
  exactLabel (semester a) = true -> exactLabel (semester b) = true ->
  verdict a b = 0
  <-> yearNumber (semester a) = yearNumber (semester b) /\
      termNumber (semester a) = termNumber (semester b) /\
      localeCompare (name a) (name b) = 0.
Proof.
  intros Ha Hb. destruct (verdict_exact a b Ha Hb) as [-> _].
  destruct (Z.ltb_spec (yearNumber (semester a)) (yearNumber (semester b)));
    [lia | ].
  destruct (Z.ltb_spec (yearNumber (semester b)) (yearNumber (semester a)));
    [lia | ].
  destruct (Z.ltb_spec (termNumber (semester a)) (termNumber (semester b)));
    [lia | ].
  destruct (Z.ltb_spec (termNumber (semester b)) (termNumber (semester a)));
    [lia | ].
  lia.
Qed.

Lemma verdict_antisym (a b : Course) :
  (forall x y : string, localeCompare x y > 0 -> localeCompare y x <= 0) ->
  exactLabel (semester a) = true -> exactLabel (semester b) = true ->
  verdict a b > 0 -> verdict b a <= 0.
Proof.
  intros Hanti Ha Hb.
  destruct (verdict_exact a b Ha Hb) as [-> _].
  destruct (verdict_exact b a Hb Ha) as [-> _].
  destruct (Z.ltb_spec (yearNumber (semester a)) (yearNumber (semester b)));
    [lia | ].
  destruct (Z.ltb_spec (yearNumber (semester b)) (yearNumber (semester a)));
    [lia | ].
  destruct (Z.ltb_spec (termNumber (semester a)) (termNumber (semester b)));
    [lia | ].
  destruct (Z.ltb_spec (termNumber (semester b)) (termNumber (semester a)));
    [lia | ].
  apply Hanti.
Qed.

Lemma insert_exact (x : Course) (l : list Course) :
  exactLabel (semester x) = true -> Forall (fun c => exactLabel (semester c) = true) l -> Forall (fun c => exactLabel (semester c) = true) (insert localeCompare x l).
Proof.
  intros Hx Hl. induction Hl as [ | y l Hy Hl IH]; simpl.
  - repeat constructor. exact Hx.
  - destruct (verdict x y <=? 0); repeat constructor; assumption.
Qed.

Lemma insert_sorted (x : Course) (l : list Course) :
  (forall x y : string, localeCompare x y > 0 -> localeCompare y x <= 0) ->
  exactLabel (semester x) = true -> Forall (fun c => exactLabel (semester c) = true) l ->
  Sorted (fun a b => verdict a b <= 0) l ->
  Sorted (fun a b => verdict a b <= 0) (insert localeCompare x l).
Proof.
  intros Hanti Hx. induction l as [ | y l IH]; intros Hl Hs; simpl.
  - repeat constructor.
  - inversion Hl as [ | ? ? Hy Hl']; subst.
    destruct (Z.leb_spec (verdict x y) 0) as [Hle | Hgt].
    + constructor; [exact Hs | constructor; exact Hle].
    + apply Sorted_inv in Hs. destruct Hs as [Hsl Hhd].
      constructor; [apply IH; assumption | ].
      assert (Hyx : verdict y x <= 0)
        by (apply verdict_antisym; [exact Hanti | exact Hx | exact Hy | lia]).
      destruct l as [ | z l']; simpl.
      * constructor. exact Hyx.
      * destruct (verdict x z <=? 0); constructor;
          [exact Hyx | apply HdRel_inv in Hhd; exact Hhd].
Qed.

Lemma insert_perm (x : Course) (l : list Course) :
  Permutation (insert localeCompare x l) (x :: l).
Proof.
  induction l as [ | y l IH]; simpl.
  - apply Permutation_refl.
  - destruct (verdict x y <=? 0).
    + apply Permutation_refl.
    + eapply Permutation_trans; [apply perm_skip, IH | apply perm_swap].
Qed.

Lemma sort_perm (l : list Course) : Permutation (sort localeCompare l) l.
Proof.
  induction l as [ | x l IH]; simpl.
  - constructor.
  - eapply Permutation_trans; [apply insert_perm | apply perm_skip, IH].
Qed.

Lemma sort_exact (l : list Course) :
  Forall (fun c => exactLabel (semester c) = true) l -> Forall (fun c => exactLabel (semester c) = true) (sort localeCompare l).
Proof.
  intros Hl. induction Hl as [ | x l Hx Hl IH]; simpl.
  - constructor.
  - apply insert_exact; assumption.
Qed.

Lemma sort_Sorted (l : list Course) :
  (forall x y : string, localeCompare x y > 0 -> localeCompare y x <= 0) ->
  Forall (fun c => exactLabel (semester c) = true) l ->
  Sorted (fun a b => verdict a b <= 0) (sort localeCompare l).
Proof.
  intros Hanti Hl. induction Hl as [ | x l Hx Hl IH]; simpl.
  - constructor.
  - apply insert_sorted; [exact Hanti | exact Hx | apply sort_exact, Hl | exact IH].
Qed.

Lemma filter_insert (keep : Course -> bool) (x : Course) (l : list Course) :
  (forall y, In y l -> keep x = true -> keep y = true -> verdict x y <= 0) ->
  filter keep (insert localeCompare x l)
  = if keep x then x :: filter keep l else filter keep l.
Proof.
  intros Hkeep. induction l as [ | y l IH]; simpl.
  - reflexivity.
  - destruct (Z.leb_spec (verdict x y) 0) as [Hle | Hgt]; simpl.
    + reflexivity.
    + rewrite IH by (intros z Hz; apply Hkeep; right; exact Hz).
      destruct (keep x) eqn:Hx, (keep y) eqn:Hy; try reflexivity.
      specialize (Hkeep y (or_introl eq_refl) eq_refl Hy). lia.
Qed.

(** C8, amended: the code reads a label as the numbers written by its
    maximal digit runs (every non-digit character separates): the first is
    the academic year and the second the term, each 0 when missing, so a
    label without digits is year 0, term 0; characters before the first
    digit and digit runs after the second are ignored.  For labels whose
    year and term are below [2^53], where binary64 holds them exactly, the
    sort reads the comparator as ordering by year, then by term, then by
    [localeCompare] on the names, and it leaves every course before-or-equal
    to its right neighbour (given that [localeCompare] never puts both [x]
    after [y] and [y] after [x]).  The labels 111-2, 111-1, 112-1, 109 sort
    as 109, 111-1, 111-2, 112-1. *)
Theorem chronological_order :
  (forall sem : string,
      exactLabel sem = true ->
      yearOf sem = Z2F (nth 0 (digitRuns None sem) 0) /\
      termOf sem = Z2F (nth 1 (digitRuns None sem) 0)) /\
  (forall sem : string,
      hasDigit sem = false -> yearOf sem = 0%float /\ termOf sem = 0%float) /\
  (yearOf "111" = 111 /\ termOf "111" = 0 /\
   yearOf "AY111-1" = 111 /\ termOf "AY111-1" = 1 /\
   yearOf "111-2-3" = 111 /\ termOf "111-2-3" = 2)%float /\
  (forall a b : Course,
      exactLabel (semester a) = true -> exactLabel (semester b) = true ->
      let ya := yearNumber (semester a) in
      let yb := yearNumber (semester b) in
      let ta := termNumber (semester a) in
      let tb := termNumber (semester b) in
      (ya < yb -> verdict a b < 0) /\
      (ya > yb -> verdict a b > 0) /\
      (ya = yb ->
       (ta < tb -> verdict a b < 0) /\
       (ta > tb -> verdict a b > 0) /\
       (ta = tb -> cmp a b = NameOrder (localeCompare (name a) (name b))))) /\
  ((forall x y : string, localeCompare x y > 0 -> localeCompare y x <= 0) ->
   forall l : list Course,
     Forall (fun c => exactLabel (semester c) = true) l ->
     Sorted (fun a b => verdict a b <= 0) (sort localeCompare l)) /\
  (forall c1 c2 c3 c4 : Course,
      semester c1 = "111-2" -> semester c2 = "111-1" ->
      semester c3 = "112-1" -> semester c4 = "109" ->
      sort localeCompare [c1; c2; c3; c4] = [c4; c2; c1; c3]).
Proof.
  split; [ | split; [ | split; [ | split; [ | split]]]].
  - exact label_numbers.
  - intros sem H. destruct (no_digit_label sem H) as (Hexact & Hy & Ht).
    destruct (label_numbers sem Hexact) as [-> ->]. rewrite Hy, Ht.
    split; reflexivity.
  - vm_compute. repeat split.
  - intros a b Ha Hb ya yb ta tb.
    destruct (verdict_exact a b Ha Hb) as [Hv _].
    fold ya yb ta tb in Hv.
    split; [ | split].
    + intros H. rewrite Hv. destruct (Z.ltb_spec ya yb); lia.
    + intros H. rewrite Hv.
      destruct (Z.ltb_spec ya yb); [lia | ]. destruct (Z.ltb_spec yb ya); lia.
    + intros Hy. split; [ | split].
      * intros H. rewrite Hv.
        destruct (Z.ltb_spec ya yb); [lia | ]. destruct (Z.ltb_spec yb ya); [lia | ].
        destruct (Z.ltb_spec ta tb); lia.
      * intros H. rewrite Hv.
        destruct (Z.ltb_spec ya yb); [lia | ]. destruct (Z.ltb_spec yb ya); [lia | ].
        destruct (Z.ltb_spec ta tb); [lia | ]. destruct (Z.ltb_spec tb ta); lia.
      * intros Ht.
        destruct (exactLabel_bounds _ Ha) as [Hya Hta].
        destruct (exactLabel_bounds _ Hb) as [Hyb Htb].
        destruct (label_numbers _ Ha) as [Eya Eta].
        destruct (label_numbers _ Hb) as [Eyb Etb].
        unfold compareForDisplay. rewrite compareSemesters_cases.
        rewrite Eya, Eyb, Eta, Etb. rewrite Z2F_eqb by assumption.
        fold ya yb ta tb. rewrite Hy, Ht, Z.eqb_refl. simpl negb. cbv iota.
        destruct (Z2F_sub_signs tb tb) as (Tz & _); [fold tb in Htb; lia .. | ].
        rewrite Tz, Z.eqb_refl. reflexivity.
  - intros Hanti l Hl. apply sort_Sorted; assumption.
  - intros c1 c2 c3 c4 H1 H2 H3 H4.
    destruct c1, c2, c3, c4; simpl in H1, H2, H3, H4; subst.
    vm_compute. reflexivity.
Qed.

(** C9, amended: for labels whose year and term are below [2^53] the
    comparator always returns a number (never NaN), and the sort reads it as
    equal exactly when the two labels have the same year and term numbers
    and [localeCompare] is 0 on the names - the labels themselves may
    differ.  The sort rearranges the list, and when [localeCompare]'s zero
    verdicts are consistent the courses that compare equal to a given course
    appear after the sort in their original relative order. *)
Theorem comparator_equal_verdict :
  (forall a b : Course,
      exactLabel (semester a) = true -> exactLabel (semester b) = true ->
      notANumber (cmp a b) = false) /\
  (forall a b : Course,
      exactLabel (semester a) = true -> exactLabel (semester b) = true ->
      (verdict a b = 0
       <-> yearNumber (semester a) = yearNumber (semester b) /\
           termNumber (semester a) = termNumber (semester b) /\
           localeCompare (name a) (name b) = 0)) /\
  (forall l : list Course, Permutation (sort localeCompare l) l) /\
  ((forall n x y : string,
       localeCompare n x = 0 -> localeCompare n y = 0 -> localeCompare x y = 0) ->
   forall (l : list Course) (a : Course),
     exactLabel (semester a) = true -> Forall (fun c => exactLabel (semester c) = true) l ->
     filter (fun x => verdict a x =? 0) (sort localeCompare l)
     = filter (fun x => verdict a x =? 0) l).
Proof.
  split; [ | split; [ | split]].
  - intros a b Ha Hb. exact (proj2 (verdict_exact a b Ha Hb)).
  - exact verdict_zero.
  - exact sort_perm.
  - intros Hlc l a Ha Hl. induction Hl as [ | x l Hx Hl IH]; simpl sort.
    + reflexivity.
    + rewrite filter_insert.
      * simpl filter. rewrite IH. reflexivity.
      * intros y Hin Hkx Hky.
        assert (Hy : exactLabel (semester y) = true).
        { apply (Permutation_in _ (sort_perm l)) in Hin.
          rewrite Forall_forall in Hl. apply Hl, Hin. }
        apply Z.eqb_eq in Hkx, Hky.
        apply verdict_zero in Hkx; [ | assumption | assumption].
        apply verdict_zero in Hky; [ | assumption | assumption].
        destruct Hkx as (Hxy & Hxt & Hxn), Hky as (Hyy & Hyt & Hyn).
        assert (Hz : verdict x y = 0).
        { apply verdict_zero; [assumption | assumption | ].
          split; [congruence | ]. split; [congruence | ].
          exact (Hlc _ _ _ Hxn Hyn). }
        lia.
Qed.

End OrderingProperties.

(** C8 as stated fails on a label that starts with a non-digit: the
    specification cuts AY111-1 at its first run of non-digits and reads year
    0, the code skips the letters and reads year 111, term 1.  Of two courses
    labelled AY111-2 and AY111-1 the specification's reading has the same
    year and term and orders by name; the code orders by term. *)
Lemma first_token_after_letters :
  specYear "AY111-1" = 0 /\
  yearOf "AY111-1" = 111%float /\ termOf "AY111-1" = 1%float /\
  specYear (semester prefixed_later) = specYear (semester prefixed_earlier) /\
  specTerm (semester prefixed_later) = specTerm (semester prefixed_earlier) /\
  byteCompare (name prefixed_later) (name prefixed_earlier) < 0 /\
  sortCompare (compareForDisplay byteCompare prefixed_later prefixed_earlier) > 0 /\
  sort byteCompare [prefixed_later; prefixed_earlier]
  = [prefixed_earlier; prefixed_later].
Proof. vm_compute. repeat split. Qed.

(** C9 as stated fails: 111-1 and 111/1 are different labels with the same
    numbers, so two courses of the same name carrying them compare equal
    under every collation that returns 0 on identical names. *)
Lemma equal_verdict_with_different_labels :
  (forall localeCompare : string -> string -> Z,
      (forall n : string, localeCompare n n = 0) ->
      sortCompare (compareForDisplay localeCompare dash_label_course
                     slash_label_course) = 0) /\
  compareForDisplay byteCompare dash_label_course slash_label_course = NameOrder 0 /\
  semester dash_label_course <> semester slash_label_course.
Proof.
  split; [ | split].
  - intros localeCompare Hrefl.
    replace (compareForDisplay localeCompare dash_label_course slash_label_course)
      with (NameOrder (localeCompare "Calculus" "Calculus")) by (vm_compute; reflexivity).
    simpl. apply Hrefl.
  - vm_compute. reflexivity.
  - vm_compute. intros H. discriminate H.
Qed.

(** Beyond [2^53] the numbers of a label are rounded, and beyond the
    binary64 range they are Infinity: 9007199254740993 reads as
    9007199254740992, twenty nines read as [10^20], and on two labels whose
    year and term both overflow the comparator returns NaN. *)
Example labels_beyond_exact_range :
  compareSemesters "9007199254740993-1" "9007199254740992-2" = (-1)%float /\
  compareSemesters "99999999999999999999-1" "100000000000000000000-1" = 0%float /\
  exactLabel "9007199254740993-1" = false /\
  notANumber (compareForDisplay byteCompare overflowing_course overflowing_course)
  = true.
Proof. vm_compute. repeat split. Qed.

Lemma byteCompare_zero (a b : string) : byteCompare a b = 0 -> a = b.
Proof.
  unfold byteCompare. destruct (String.compare a b) eqn:E; try discriminate.
  intros _. apply String.compare_eq_iff, E.
Qed.

Lemma byteCompare_antisym (x y : string) :
  byteCompare x y > 0 -> byteCompare y x <= 0.
Proof.
  unfold byteCompare. rewrite (String.compare_antisym y x).
  destruct (String.compare x y); simpl; lia.
Qed.

Lemma byteCompare_consistent (n x y : string) :
  byteCompare n x = 0 -> byteCompare n y = 0 -> byteCompare x y = 0.
Proof.
  intros Hx Hy. apply byteCompare_zero in Hx, Hy. subst x y.
  unfold byteCompare.
  pose proof (String.compare_antisym n n) as Ha.
  destruct (String.compare n n); [reflexivity | discriminate Ha | discriminate Ha].
Qed.

Lemma chronological_order_witness :
  let orientation := mkCourse "z" "109" "Orientation" 0 Other "Pass" None in
  (forall x y : string, byteCompare x y > 0 -> byteCompare y x <= 0) /\
  Forall (fun c => exactLabel (semester c) = true)
         [sample_service; sample_calculus; sample_swimming; orientation] /\
  Sorted (fun a b => sortCompare (compareForDisplay byteCompare a b) <= 0)
         (sort byteCompare
            [sample_service; sample_calculus; sample_swimming; orientation]) /\
  sort byteCompare [sample_service; sample_calculus; sample_swimming; orientation]
  = [orientation; sample_calculus; sample_service; sample_swimming].
Proof.
  intros orientation.
  assert (Hl : Forall (fun c => exactLabel (semester c) = true)
                 [sample_service; sample_calculus; sample_swimming; orientation])
    by (repeat constructor).
  destruct (chronological_order byteCompare) as (_ & _ & _ & _ & Hsorted & Hsort).
  split; [exact byteCompare_antisym | ]. split; [exact Hl | ].
  split; [exact (Hsorted byteCompare_antisym _ Hl) | ].
  apply Hsort; reflexivity.
Defined.

Lemma comparator_equal_verdict_witness :
  (forall n x y : string,
      byteCompare n x = 0 -> byteCompare n y = 0 -> byteCompare x y = 0) /\
  exactLabel (semester dash_label_course) = true /\
  Forall (fun c => exactLabel (semester c) = true)
         [sample_service; slash_label_course; dash_label_course] /\
  filter (fun x => sortCompare (compareForDisplay byteCompare dash_label_course x) =? 0)
         (sort byteCompare [sample_service; slash_label_course; dash_label_course])
  = filter (fun x => sortCompare (compareForDisplay byteCompare dash_label_course x) =? 0)
           [sample_service; slash_label_course; dash_label_course].
Proof.
  assert (Ha : exactLabel (semester dash_label_course) = true) by reflexivity.
  assert (Hl : Forall (fun c => exactLabel (semester c) = true)
                 [sample_service; slash_label_course; dash_label_course])
    by (repeat constructor).
  split; [exact byteCompare_consistent | ]. split; [exact Ha | ]. split; [exact Hl | ].
  destruct (comparator_equal_verdict byteCompare) as (_ & _ & _ & Hstable).
  exact (Hstable byteCompare_consistent
           [sample_service; slash_label_course; dash_label_course]
           dash_label_course Ha Hl).
Defined.

(** * Grouping the table *)

Lemma memberb_In (k : string) (keys : list string) :
  memberb k keys = true <-> In k keys.
Proof.
  unfold memberb. rewrite existsb_exists. split.
  - intros (x & Hx & E). apply String.eqb_eq in E. subst x. exact Hx.
  - intros H. exists k. split; [exact H | apply String.eqb_refl].
Qed.

Lemma pushInto_keys (key : string) (c : Course) (groups : Groups) :
  map fst (pushInto key c groups) = map fst groups.
Proof.
  induction groups as [ | [k l] rest IH]; simpl; [reflexivity | ].
  destruct (String.eqb k key); simpl; [reflexivity | rewrite IH; reflexivity].
Qed.

Lemma groupOf_pushInto (key key' : string) (c : Course) (groups : Groups) :
  In key' (map fst groups) ->
  groupOf key (pushInto key' c groups)
  = if String.eqb key' key then (groupOf key groups ++ [c])%list
    else groupOf key groups.
Proof.
  induction groups as [ | [k l] rest IH]; simpl; [contradiction | ].
  intros Hin.
  destruct (String.eqb_spec k key') as [-> | Nk']; simpl.
  - destruct (String.eqb key' key); reflexivity.
  - destruct (String.eqb_spec k key) as [-> | Nk].
    + destruct (String.eqb_spec key' key) as [E | _]; [ | reflexivity].
      exfalso. apply Nk'. symmetry. exact E.
    + apply IH. destruct Hin as [E | Hin]; [contradiction | exact Hin].
Qed.

Lemma displayKey_own (c : Course) : In (displayKey c) groupKeys.
Proof.
  unfold displayKey.
  destruct (memberb (category c) groupKeys) eqn:E.
  - apply memberb_In, E.
  - simpl. tauto.
Qed.

Lemma groupStep_push (groups : Groups) (c : Course) :
  memberb (category c) groupKeys = true \/
  memberb (category c) objectPrototypeKeys = false ->
  groupStep groups c = Some (pushInto (displayKey c) c groups).
Proof.
  unfold groupStep, displayKey. intros [H | H].
  - rewrite H. reflexivity.
  - destruct (memberb (category c) groupKeys); [reflexivity | ].
    rewrite H. reflexivity.
Qed.

Lemma groupStep_throws (groups : Groups) (c : Course) :
  In (category c) objectPrototypeKeys -> groupStep groups c = None.
Proof.
  intros H. unfold groupStep.
  assert (Hown : memberb (category c) groupKeys = false).
  { destruct (memberb (category c) groupKeys) eqn:E; [ | reflexivity].
    apply memberb_In in E. exfalso.
    simpl in H, E.
    repeat (destruct E as [E | E]; [
      rewrite <- E in H;
      repeat (destruct H as [H | H]; [discriminate H | ]); exact H | ]).
    exact E. }
  rewrite Hown. apply memberb_In in H. rewrite H. reflexivity.
Qed.

Lemma groupFrom_ok (courses : list Course) (groups : Groups) :
  map fst groups = groupKeys ->
  Forall (fun c => ~ In (category c) objectPrototypeKeys) courses ->
  exists groups',
    groupFrom groups courses = Some groups' /\
    map fst groups' = groupKeys /\
    forall key,
      groupOf key groups'
      = (groupOf key groups
         ++ filter (fun c => String.eqb (displayKey c) key) courses)%list.
Proof.
  revert groups. induction courses as [ | c l IH]; intros groups Hkeys Hok; simpl.
  - exists groups. split; [reflexivity | ]. split; [exact Hkeys | ].
    intros key. rewrite app_nil_r. reflexivity.
  - inversion Hok as [ | ? ? Hc Hl]; subst.
    rewrite groupStep_push.
    + destruct (IH (pushInto (displayKey c) c groups)) as (g' & Hg & Hk & Hgroups).
      * rewrite pushInto_keys. exact Hkeys.
      * exact Hl.
      * exists g'. split; [exact Hg | ]. split; [exact Hk | ].
        intros key. rewrite Hgroups.
        rewrite groupOf_pushInto by (rewrite Hkeys; apply displayKey_own).
        destruct (String.eqb (displayKey c) key); simpl;
          [rewrite <- app_assoc | ]; reflexivity.
    + right. destruct (memberb (category c) objectPrototypeKeys) eqn:E; [ | reflexivity].
      apply memberb_In in E. contradiction.
Qed.

Lemma groupOf_empty (key : string) : groupOf key emptyGroups = [].
Proof.
  unfold emptyGroups. induction groupKeys as [ | k ks IH]; simpl; [reflexivity | ].
  destruct (String.eqb k key); [reflexivity | exact IH].
Qed.

(** When no course carries a category that names a property of
    [Object.prototype], grouping succeeds, and the group of each of the seven
    keys holds, in list order, the courses listed under it: those of that
    category and, for 其他, also those of any unrecognized category. *)
Theorem grouping_by_category :
  forall courses : list Course,
    Forall (fun c => ~ In (category c) objectPrototypeKeys) courses ->
    exists groups,
      groupedCourses courses = Some groups /\
      map fst groups = groupKeys /\
      (forall key,
          groupOf key groups
          = filter (fun c => String.eqb (displayKey c) key) courses) /\
      (forall c, In c courses ->
          (In (category c) groupKeys -> In c (groupOf (category c) groups)) /\
          (~ In (category c) groupKeys -> In c (groupOf Other groups))).
Proof.
  intros courses Hok.
  destruct (groupFrom_ok courses emptyGroups) as (g & Hg & Hk & Hgroups).
  - reflexivity.
  - exact Hok.
  - exists g. split; [exact Hg | ]. split; [exact Hk | ].
    assert (Hall : forall key,
               groupOf key g
               = filter (fun c => String.eqb (displayKey c) key) courses).
    { intros key. rewrite Hgroups, groupOf_empty. reflexivity. }
    split; [exact Hall | ].
    intros c Hc. split; intros Hcat; rewrite Hall; apply filter_In;
      (split; [exact Hc | ]); unfold displayKey.
    + apply memberb_In in Hcat. rewrite Hcat. apply String.eqb_refl.
    + destruct (memberb (category c) groupKeys) eqn:E;
        [apply memberb_In in E; contradiction | apply String.eqb_refl].
Qed.

Lemma grouping_by_category_aux (courses : list Course) :
  Forall (fun c => ~ In (category c) objectPrototypeKeys) courses ->
  exists groups, groupedCourses courses = Some groups.
Proof.
  intros Hok.
  destruct (groupFrom_ok courses emptyGroups) as (g & Hg & _).
  - reflexivity.
  - exact Hok.
  - exists g. exact Hg.
Qed.

Lemma grouping_by_category_witness :
  Forall (fun c => ~ In (category c) objectPrototypeKeys)
         [sample_calculus; sample_legacy; sample_swimming] /\
  exists groups,
    groupedCourses [sample_calculus; sample_legacy; sample_swimming] = Some groups /\
    groupOf Other groups = [sample_legacy].
Proof.
  assert (H : Forall (fun c => ~ In (category c) objectPrototypeKeys)
                [sample_calculus; sample_legacy; sample_swimming]).
  { repeat constructor; simpl; intros H;
      repeat (destruct H as [H | H]; [discriminate H | ]); exact H. }
  split; [exact H | ].
  destruct (grouping_by_category _ H) as (g & Hg & _ & Hall & _).
  exists g. split; [exact Hg | ]. rewrite Hall. reflexivity.
Defined.

Lemma groupFrom_throws (courses : list Course) (groups : Groups) :
  (exists c, In c courses /\ In (category c) objectPrototypeKeys) ->
  groupFrom groups courses = None.
Proof.
  revert groups. induction courses as [ | x l IH]; intros groups (c & Hc & Hcat).
  - contradiction.
  - simpl. destruct (groupStep groups x) as [g' | ] eqn:Hstep; [ | reflexivity].
    destruct Hc as [-> | Hc].
    + rewrite groupStep_throws in Hstep by assumption. discriminate Hstep.
    + apply IH. exists c. split; assumption.
Qed.

(** Rendering the table is aborted by a TypeError exactly when some course
    carries a category that names a property of [Object.prototype] (such as
    constructor or toString): the lookup finds the inherited property, which
    is truthy and has no [push].  The summary computes its report for the
    same list, counting that course as a general elective. *)
Theorem grouping_type_error :
  forall (localeCompare : string -> string -> Z) (courses : list Course),
    (courseTable localeCompare courses = None
     <-> exists c, In c courses /\ In (category c) objectPrototypeKeys) /\
    (forall c, In (category c) objectPrototypeKeys ->
               creditBearing c = true /\
               targetKey (category c) = KGeneralElective).
Proof.
  intros localeCompare courses. split.
  - split.
    + intros Hnone.
      destruct (Exists_dec (fun c => In (category c) objectPrototypeKeys) courses)
        as [Hex | Hno].
      * intros c. apply in_dec. exact string_dec.
      * apply Exists_exists in Hex. exact Hex.
      * exfalso. apply Forall_Exists_neg in Hno.
        destruct (grouping_by_category_aux courses Hno) as (g & Hg).
        unfold courseTable in Hnone. rewrite Hg in Hnone.
        destruct courses; discriminate Hnone.
    + intros Hex. unfold courseTable.
      destruct courses as [ | x l]; [destruct Hex as (c & [] & _) | ].
      unfold groupedCourses. rewrite groupFrom_throws by exact Hex. reflexivity.
  - intros c Hcat. simpl in Hcat.
    repeat (destruct Hcat as [Hcat | Hcat];
            [unfold creditBearing, targetKey; rewrite <- Hcat; split; reflexivity | ]).
    contradiction.
Qed.

Lemma grouping_type_error_witness :
  let c := mkCourse "x1" "112-1" "Seminar" 2 "toString" "A" (Some false) in
  (exists c', In c' [sample_calculus; c] /\ In (category c') objectPrototypeKeys) /\
  courseTable byteCompare [sample_calculus; c] = None.
Proof.
  intros c.
  assert (H : exists c', In c' [sample_calculus; c] /\
                         In (category c') objectPrototypeKeys).
  { exists c. split; [right; left; reflexivity | ].
    do 5 right. left. reflexivity. }
  split; [exact H | ].
  exact (proj2 (proj1 (grouping_type_error byteCompare [sample_calculus; c])) H).
Defined.

(** * The rendered table *)

Lemma filter_disjoint_perm (p q : Course -> bool) (l : list Course) :
  (forall c, p c = true -> q c = true -> False) ->
  Permutation (filter p l ++ filter q l) (filter (fun c => p c || q c) l).
Proof.
  intros Hdis. induction l as [ | c l IH]; simpl; [constructor | ].
  destruct (p c) eqn:Hp, (q c) eqn:Hq; simpl.
  - exfalso. exact (Hdis c Hp Hq).
  - constructor. exact IH.
  - eapply Permutation_trans; [apply Permutation_sym, Permutation_middle | ].
    constructor. exact IH.
  - exact IH.
Qed.

Lemma concat_filters_perm (keys : list string) (l : list Course) :
  NoDup keys ->
  Permutation
    (List.concat (map (fun k => filter (fun c => String.eqb (displayKey c) k) l) keys))
    (filter (fun c => memberb (displayKey c) keys) l).
Proof.
  induction keys as [ | k ks IH]; intros Hnd; simpl.
  - induction l as [ | c l IHl]; simpl; [constructor | exact IHl].
  - inversion Hnd as [ | ? ? Hk Hks]; subst.
    eapply Permutation_trans; [apply Permutation_app_head, IH, Hks | ].
    eapply Permutation_trans.
    + apply filter_disjoint_perm. intros c Hc Hm.
      apply String.eqb_eq in Hc. apply memberb_In in Hm. subst k. contradiction.
    + unfold memberb. simpl.
      erewrite filter_ext; [apply Permutation_refl | ].
      intros c. simpl. rewrite String.eqb_sym. reflexivity.
Qed.

Lemma sort_nil (localeCompare : string -> string -> Z) (l : list Course) :
  sort localeCompare l = [] -> l = [].
Proof.
  intros H. pose proof (sort_perm localeCompare l) as Hp. rewrite H in Hp.
  apply Permutation_nil, Hp.
Qed.

Lemma renderSections_spec (localeCompare : string -> string -> Z)
    (groups : Groups) (ks : list string) :
  renderSections localeCompare groups ks
  = map (fun k => (k, sort localeCompare (groupOf k groups)))
        (filter (hasRows groups) ks).
Proof.
  induction ks as [ | k ks IH]; simpl; [reflexivity | ].
  unfold renderSection, hasRows.
  destruct (groupOf k groups) as [ | c l] eqn:Hg.
  - simpl. exact IH.
  - destruct (sort localeCompare (c :: l)) as [ | c' l'] eqn:Hs.
    + apply sort_nil in Hs. discriminate Hs.
    + simpl. rewrite Hg, Hs, IH. reflexivity.
Qed.

Lemma concat_sorted_groups (localeCompare : string -> string -> Z)
    (groups : Groups) (ks : list string) :
  Permutation
    (List.concat (map snd (map (fun k => (k, sort localeCompare (groupOf k groups)))
                         (filter (hasRows groups) ks))))
    (List.concat (map (fun k => groupOf k groups) ks)).
Proof.
  induction ks as [ | k ks IH]; simpl; [constructor | ].
  unfold hasRows at 1.
  destruct (groupOf k groups) as [ | c l] eqn:Hg; simpl.
  - exact IH.
  - rewrite Hg. change (c :: l ++ ?x)%list with ((c :: l) ++ x)%list.
    apply Permutation_app; [apply sort_perm | exact IH].
Qed.

Lemma filter_all (p : Course -> bool) (l : list Course) :
  (forall c, p c = true) -> filter p l = l.
Proof.
  intros Hp. induction l as [ | c l IH]; simpl; [reflexivity | ].
  rewrite Hp, IH. reflexivity.
Qed.

Lemma sectionOrder_covers (c : Course) : memberb (displayKey c) sectionOrder = true.
Proof.
  apply memberb_In. pose proof (displayKey_own c) as H. simpl in H |- *. tauto.
Qed.

Lemma sectionOrder_NoDup : NoDup sectionOrder.
Proof.
  unfold sectionOrder.
  repeat constructor; simpl; intros H;
    repeat (destruct H as [H | H]; [discriminate H | ]); exact H.
Qed.

Lemma courseTable_nonempty (localeCompare : string -> string -> Z)
    (courses : list Course) :
  courses <> [] ->
  courseTable localeCompare courses
  = match groupedCourses courses with
    | Some groups =>
        Some (Sections (map (fun k => (k, sort localeCompare (groupOf k groups)))
                            (filter (hasRows groups) sectionOrder)))
    | None => None
    end.
Proof.
  intros Hne. destruct courses as [ | c l]; [contradiction | ].
  unfold courseTable.
  destruct (groupedCourses (c :: l)); [ | reflexivity].
  rewrite renderSections_spec. reflexivity.
Qed.

(** When the table renders, every course of the list is shown in exactly one
    row: the rows of all sections together are a rearrangement of the course
    list.  The sections shown are those of the categories that list a course,
    in the fixed section order; each section holds exactly the courses listed
    under its category, and its rows are in the order the sort reads off the
    comparator when [localeCompare] never puts both [x] after [y] and [y]
    after [x] and the year and term of every label are below [2^53].  An
    empty course list shows the empty notice instead. *)
Theorem table_lists_every_course_once :
  forall (localeCompare : string -> string -> Z) (courses : list Course)
         (view : TableView),
    courseTable localeCompare courses = Some view ->
    Permutation (rowsOf view) courses /\
    (courses = [] <-> view = NoRecords) /\
    (forall sections, view = Sections sections ->
       map fst sections = shownCategories courses /\
       Forall (fun section =>
                 snd section <> [] /\
                 Permutation (snd section)
                   (filter (fun c => String.eqb (displayKey c) (fst section)) courses) /\
                 ((forall x y : string,
                      localeCompare x y > 0 -> localeCompare y x <= 0) ->
                  Forall (fun c => exactLabel (semester c) = true) courses ->
                  Sorted (fun a b =>
                            sortCompare (compareForDisplay localeCompare a b) <= 0)
                         (snd section)))
              sections).
Proof.
  intros localeCompare courses view Hview.
  destruct courses as [ | c0 l0] eqn:Hcourses.
  { injection Hview as <-. split; [constructor | ].
    split; [split; reflexivity | ]. intros sections H. discriminate H. }
  rewrite <- Hcourses in *.
  rewrite courseTable_nonempty in Hview by (rewrite Hcourses; discriminate).
  destruct (groupedCourses courses) as [groups | ] eqn:Hg; [ | discriminate Hview].
  assert (Hv : view
               = Sections (map (fun k => (k, sort localeCompare (groupOf k groups)))
                               (filter (hasRows groups) sectionOrder)))
    by congruence.
  clear Hview. subst view.
  assert (Hok : Forall (fun c => ~ In (category c) objectPrototypeKeys) courses).
  { apply Forall_forall. intros c Hc Hcat.
    unfold groupedCourses in Hg.
    rewrite groupFrom_throws in Hg; [discriminate Hg | ].
    exists c. split; assumption. }
  destruct (groupFrom_ok courses emptyGroups eq_refl Hok) as (g & Hg' & _ & Hgroups).
  unfold groupedCourses in Hg. rewrite Hg' in Hg.
  assert (Hgg : g = groups) by congruence. clear Hg. subst g.
  assert (Hall : forall key,
             groupOf key groups
             = filter (fun c => String.eqb (displayKey c) key) courses).
  { intros key. rewrite Hgroups, groupOf_empty. reflexivity. }
  split; [ | split].
  - unfold rowsOf.
    eapply Permutation_trans; [apply concat_sorted_groups | ].
    erewrite map_ext; [ | intros k; apply Hall].
    eapply Permutation_trans; [apply concat_filters_perm, sectionOrder_NoDup | ].
    rewrite filter_all by exact sectionOrder_covers. apply Permutation_refl.
  - split; intros H; [rewrite H in Hcourses | ]; discriminate.
  - intros sections Hs.
    assert (Hsec : sections
                   = map (fun k => (k, sort localeCompare (groupOf k groups)))
                         (filter (hasRows groups) sectionOrder)) by congruence.
    clear Hs. subst sections. split.
    + rewrite map_map. unfold shownCategories.
      erewrite map_ext; [rewrite map_id | intros k; reflexivity].
      apply filter_ext. intros k. unfold hasRows. rewrite Hall.
      clear. induction courses as [ | c l IH]; simpl; [reflexivity | ].
      destruct (String.eqb (displayKey c) k); [reflexivity | exact IH].
    + apply Forall_forall. intros [k rows] Hin.
      apply in_map_iff in Hin. destruct Hin as (k' & Hk' & Hin).
      assert (Hkk : k' = k) by congruence. subst k'.
      assert (Hrr : rows = sort localeCompare (groupOf k groups)) by congruence.
      apply filter_In in Hin. destruct Hin as [_ Hrows].
      simpl. subst rows. split; [ | split].
      * intros Hnil. apply sort_nil in Hnil.
        unfold hasRows in Hrows. rewrite Hnil in Hrows. discriminate Hrows.
      * rewrite <- Hall. apply sort_perm.
      * intros Hanti Hexact. apply sort_Sorted; [exact Hanti | ].
        rewrite Hall. apply Forall_forall. intros c Hc.
        apply filter_In in Hc. rewrite Forall_forall in Hexact.
        apply Hexact. tauto.
Qed.

Lemma table_lists_every_course_once_witness :
  let courses := [sample_service; sample_swimming; sample_calculus] in
  let sections := [ (CommonRequired, [sample_calculus; sample_service]);
                    (PhysicalEducation, [sample_swimming]) ] in
  courseTable byteCompare courses = Some (Sections sections) /\
  Permutation (rowsOf (Sections sections)) courses /\
  map fst sections = shownCategories courses /\
  Sorted (fun a b => sortCompare (compareForDisplay byteCompare a b) <= 0)
         [sample_calculus; sample_service].
Proof.
  intros courses sections.
  assert (H : courseTable byteCompare courses = Some (Sections sections))
    by (vm_compute; reflexivity).
  assert (Hexact : Forall (fun c => exactLabel (semester c) = true) courses)
    by (repeat constructor).
  split; [exact H | ].
  destruct (table_lists_every_course_once byteCompare _ _ H) as (Hperm & _ & Hsec).
  split; [exact Hperm | ].
  destruct (Hsec sections eq_refl) as [Hkeys Hrows].
  split; [exact Hkeys | ].
  apply Forall_inv in Hrows. destruct Hrows as (_ & _ & Hsorted).
  exact (Hsorted byteCompare_antisym Hexact).
Defined.

(** * Transcript import *)

Section ImportProperties.

Variable trim : string -> string.
Variable toUpperCase : string -> string.
Variable clock : nat -> Z.
Variable generateId : nat -> string.

Lemma mapGrade_cases (raw : option string) :
  mapGrade trim toUpperCase raw = "Pass" \/
  exists r, raw = Some r /\ r <> "" /\
            mapGrade trim toUpperCase raw = toUpperCase (trim r) /\
            In (toUpperCase (trim r)) validGrades.
Proof.
  destruct raw as [[ | c r] | ]; [left; reflexivity | | left; reflexivity].
  unfold mapGrade.
  destruct (memberb (toUpperCase (trim (String c r))) validGrades) eqn:E.
  - right. exists (String c r). split; [reflexivity | ].
    split; [discriminate | ]. split; [reflexivity | apply memberb_In, E].
  - left. destruct (existsb _ passMarkers); reflexivity.
Qed.

(** [mapGrade] always returns a member of the closed grade set, so an
    imported grade always has an entry in [GRADE_POINTS].  It returns a
    letter grade only when the trimmed, upper-cased input is that letter
    grade, and then it returns exactly that; every other input, missing or
    empty or unrecognized, becomes Pass. *)
Theorem mapGrade_closed :
  forall raw : option string,
    In (mapGrade trim toUpperCase raw) validGrades /\
    lookup (mapGrade trim toUpperCase raw) GRADE_POINTS <> None /\
    (mapGrade trim toUpperCase raw <> "Pass" ->
     exists r, raw = Some r /\
               mapGrade trim toUpperCase raw = toUpperCase (trim r) /\
               In (toUpperCase (trim r)) letter_grades) /\
    (forall r, raw = Some r -> r <> "" ->
               In (toUpperCase (trim r)) letter_grades ->
               mapGrade trim toUpperCase raw = toUpperCase (trim r)).
Proof.
  intros raw.
  assert (Hin : In (mapGrade trim toUpperCase raw) validGrades).
  { destruct (mapGrade_cases raw) as [-> | (r & _ & _ & -> & H)];
      [simpl; tauto | exact H]. }
  split; [exact Hin | ]. split; [ | split].
  - simpl in Hin.
    repeat (destruct Hin as [Hin | Hin]; [rewrite <- Hin; discriminate | ]).
    contradiction.
  - intros Hne.
    destruct (mapGrade_cases raw) as [H | (r & Hr & _ & Hm & Hv)]; [contradiction | ].
    exists r. split; [exact Hr | ]. split; [exact Hm | ].
    unfold validGrades in Hv. apply in_app_or in Hv.
    destruct Hv as [Hv | [Hv | []]]; [exact Hv | ].
    exfalso. apply Hne. rewrite Hm, <- Hv. reflexivity.
  - intros r -> Hr Hl. destruct r as [ | c r]; [contradiction | ].
    unfold mapGrade.
    assert (Hm : memberb (toUpperCase (trim (String c r))) validGrades = true).
    { apply memberb_In. unfold validGrades. apply in_or_app. left. exact Hl. }
    rewrite Hm. reflexivity.
Qed.

Lemma numberOrZero_not_nan (value : option float) :
  PrimFloat.is_nan (numberOrZero value) = false.
Proof.
  unfold numberOrZero. destruct value as [v | ]; [ | reflexivity].
  destruct (PrimFloat.is_nan v) eqn:E; simpl; [reflexivity | ].
  destruct (PrimFloat.is_zero v); [reflexivity | exact E].
Qed.

Lemma orString_not_empty (value : option string) (fallback : string) :
  fallback <> "" -> orString value fallback <> "".
Proof.
  intros Hf. destruct value as [[ | c r] | ]; simpl; try exact Hf. discriminate.
Qed.

Lemma mapItem_valid (item : Item.t) (idx : nat) :
  validRow (mapItem trim toUpperCase clock item idx) = true.
Proof.
  unfold validRow, mapItem; simpl.
  rewrite numberOrZero_not_nan.
  destruct (String.eqb_spec (orString (Item.name item) "Unknown Course") "") as [E | ];
    [ | reflexivity].
  exfalso. revert E. apply orString_not_empty. discriminate.
Qed.

Lemma mapItemsFrom_length (idx : nat) (data : list Item.t) :
  List.length (mapItemsFrom trim toUpperCase clock idx data) = List.length data.
Proof.
  revert idx. induction data as [ | item rest IH]; intros idx; simpl;
    [reflexivity | rewrite IH; reflexivity].
Qed.

Lemma mapItemsFrom_valid (idx : nat) (data : list Item.t) :
  filter validRow (mapItemsFrom trim toUpperCase clock idx data)
  = mapItemsFrom trim toUpperCase clock idx data.
Proof.
  revert idx. induction data as [ | item rest IH]; intros idx; simpl; [reflexivity | ].
  rewrite mapItem_valid, IH. reflexivity.
Qed.

Lemma toCoursesFrom_length (k : nat) (rows : list Parsed.t) :
  List.length (toCoursesFrom generateId k rows) = List.length rows.
Proof.
  revert k. induction rows as [ | r rest IH]; intros k; simpl;
    [reflexivity | rewrite IH; reflexivity].
Qed.


(** Every row produced by the analysis passes the validation of the
    confirmation step - its name is not empty and its credits are not NaN,
    whatever the extraction returned - so confirming an unedited analysis
    imports one course per extracted element; each of them is a completed
    一般選修 course with a grade of the closed set.  An empty extraction is
    the "No courses found" error. *)
Theorem analysis_rows_are_importable :
  forall data : list Item.t,
    let rows := mapItemsFrom trim toUpperCase clock 0 data in
    List.length rows = List.length data /\
    Forall (fun r => validRow r = true /\
                     Parsed.name r <> "" /\
                     PrimFloat.is_nan (Parsed.credits r) = false /\
                     In (Parsed.grade r) validGrades) rows /\
    List.length (finalCourses generateId rows) = List.length data /\
    Forall (fun c => category c = GeneralElective /\ isCurrent c = Some false)
           (finalCourses generateId rows) /\
    (analyzedRows trim toUpperCase clock data = None <-> data = []).
Proof.
  intros data rows. subst rows.
  split; [apply mapItemsFrom_length | ].
  split; [ | split; [ | split]].
  - generalize 0%nat. induction data as [ | item rest IH]; intros idx; simpl;
      constructor; [ | apply IH].
    pose proof (mapItem_valid item idx) as Hv.
    split; [exact Hv | ].
    unfold validRow in Hv. apply andb_prop in Hv. destruct Hv as [Hn Hc].
    split; [ | split].
    + intros E. rewrite E in Hn. discriminate Hn.
    + apply negb_true_iff in Hc. exact Hc.
    + simpl. destruct (mapGrade_cases (Item.grade item)) as [-> | (r & _ & _ & -> & H)];
        [simpl; tauto | exact H].
  - unfold finalCourses. rewrite mapItemsFrom_valid, toCoursesFrom_length.
    apply mapItemsFrom_length.
  - unfold finalCourses. rewrite mapItemsFrom_valid.
    generalize 0%nat at 1. generalize 0%nat.
    induction data as [ | item rest IH]; intros idx k; simpl; constructor.
    + split; reflexivity.
    + apply IH.
  - destruct data; simpl; split; intros H; try reflexivity; discriminate H.
Qed.


End ImportProperties.

Lemma mapGrade_closed_witness :
  mapGrade asciiTrim asciiUpper (Some " b+ ") <> "Pass" /\
  exists r, Some " b+ " = Some r /\
            mapGrade asciiTrim asciiUpper (Some " b+ ") = asciiUpper (asciiTrim r) /\
            In (asciiUpper (asciiTrim r)) letter_grades.
Proof.
  assert (H : mapGrade asciiTrim asciiUpper (Some " b+ ") <> "Pass")
    by (vm_compute; discriminate).
  split; [exact H | ].
  destruct (mapGrade_closed asciiTrim asciiUpper (Some " b+ ")) as (_ & _ & Hletter & _).
  exact (Hletter H).
Defined.

(** ** Row identifiers of one analysis *)

Lemma string_of_uint_allDigits (d : Decimal.uint) :
  allDigits (NilEmpty.string_of_uint d) = true.
Proof. induction d; simpl; try reflexivity; exact IHd. Qed.

Lemma string_of_uint_inj (d d' : Decimal.uint) :
  NilEmpty.string_of_uint d = NilEmpty.string_of_uint d' -> d = d'.
Proof.
  intros E. apply (f_equal NilEmpty.uint_of_string) in E.
  rewrite !NilEmpty.usu in E. congruence.
Qed.

Lemma to_uint_nonnil (n : N) : N.to_uint n <> Decimal.Nil.
Proof.
  rewrite <- (DecimalN.Unsigned.of_to n) at 1.
  rewrite DecimalN.Unsigned.to_of. apply DecimalFacts.unorm_nonnil.
Qed.

Lemma digits_NilEmpty (z : Z) :
  Decimal10.digits z = NilEmpty.string_of_uint (N.to_uint (Z.to_N z)).
Proof.
  unfold Decimal10.digits, NilZero.string_of_uint.
  pose proof (to_uint_nonnil (Z.to_N z)) as H.
  destruct (N.to_uint (Z.to_N z)); [contradiction | reflexivity ..].
Qed.

Lemma digits_allDigits (z : Z) : allDigits (Decimal10.digits z) = true.
Proof. rewrite digits_NilEmpty. apply string_of_uint_allDigits. Qed.

Lemma digits_inj (a b : Z) :
  0 <= a -> 0 <= b -> Decimal10.digits a = Decimal10.digits b -> a = b.
Proof.
  intros Ha Hb E. rewrite !digits_NilEmpty in E.
  apply string_of_uint_inj, DecimalN.Unsigned.to_uint_inj in E.
  apply (f_equal Z.of_N) in E. rewrite !Z2N.id in E; assumption.
Qed.

Lemma digit_run_delimited (d d' r r' : string) :
  allDigits d = true -> allDigits d' = true ->
  (d ++ String "-" r = d' ++ String "-" r')%string -> d = d'.
Proof.
  revert d'. induction d as [ | c d IH]; intros [ | c' d'] Hd Hd' E; simpl in *.
  - reflexivity.
  - injection E as Ec _. subst c'. discriminate Hd'.
  - injection E as Ec _. subst c. discriminate Hd.
  - injection E as Ec E. subst c'.
    apply andb_prop in Hd, Hd'. f_equal. apply IH; tauto.
Qed.

Lemma tempId_determines_index (trim toUpperCase : string -> string)
    (clock : nat -> Z) (item item' : Item.t) (i j : nat) :
  Parsed.tempId (mapItem trim toUpperCase clock item i)
  = Parsed.tempId (mapItem trim toUpperCase clock item' j) -> i = j.
Proof.
  unfold mapItem; simpl. intros E. injection E as E.
  unfold numberString in E at 1 3.
  assert (Hi : (Z.of_nat i <? 0) = false) by (apply Z.ltb_ge; lia).
  assert (Hj : (Z.of_nat j <? 0) = false) by (apply Z.ltb_ge; lia).
  rewrite Hi, Hj in E.
  apply digit_run_delimited in E; try apply digits_allDigits.
  apply digits_inj in E; lia.
Qed.

Lemma mapItemsFrom_tempIds (trim toUpperCase : string -> string)
    (clock : nat -> Z) (data : list Item.t) (idx : nat) (r : Parsed.t) :
  In r (mapItemsFrom trim toUpperCase clock idx data) ->
  exists item j, (idx <= j)%nat /\ r = mapItem trim toUpperCase clock item j.
Proof.
  revert idx. induction data as [ | item rest IH]; intros idx; simpl; [tauto | ].
  intros [<- | H].
  - exists item, idx. split; [lia | reflexivity].
  - destruct (IH _ H) as (item' & j & Hj & ->). exists item', j. split; [lia | reflexivity].
Qed.

Lemma remove_unique_row (rows : list Parsed.t) (n : nat) (r : Parsed.t) :
  NoDup (map Parsed.tempId rows) -> nth_error rows n = Some r ->
  handleRemoveRow (Parsed.tempId r) rows = (firstn n rows ++ skipn (S n) rows)%list.
Proof.
  unfold handleRemoveRow. revert n.
  induction rows as [ | x rest IH]; intros n Hnd Hn; [destruct n; discriminate Hn | ].
  simpl in Hnd. inversion Hnd as [ | ? ? Hx Hrest]; subst.
  destruct n as [ | n]; simpl in Hn.
  - injection Hn as ->. simpl. rewrite String.eqb_refl. simpl.
    apply forallb_filter_id. apply forallb_forall. intros y Hy.
    destruct (String.eqb_spec (Parsed.tempId y) (Parsed.tempId r)) as [E | ];
      [ | reflexivity].
    exfalso. apply Hx. rewrite <- E. apply in_map. exact Hy.
  - simpl.
    destruct (String.eqb_spec (Parsed.tempId x) (Parsed.tempId r)) as [E | ].
    + exfalso. apply Hx. rewrite E. apply in_map. eapply nth_error_In. exact Hn.
    + simpl. f_equal. apply IH; assumption.
Qed.

Lemma change_unique_row (rows : list Parsed.t) (n : nat) (r : Parsed.t)
    (f : ParsedField) :
  NoDup (map Parsed.tempId rows) -> nth_error rows n = Some r ->
  handleFieldChange (Parsed.tempId r) f rows
  = (firstn n rows ++ setParsedField r f :: skipn (S n) rows)%list.
Proof.
  unfold handleFieldChange. revert n.
  induction rows as [ | x rest IH]; intros n Hnd Hn; [destruct n; discriminate Hn | ].
  simpl in Hnd. inversion Hnd as [ | ? ? Hx Hrest]; subst.
  destruct n as [ | n]; simpl in Hn.
  - injection Hn as ->. simpl. rewrite String.eqb_refl. f_equal.
    rewrite <- (map_id rest) at 2. apply map_ext_in. intros y Hy.
    destruct (String.eqb_spec (Parsed.tempId y) (Parsed.tempId r)) as [E | ];
      [ | reflexivity].
    exfalso. apply Hx. rewrite <- E. apply in_map. exact Hy.
  - simpl.
    destruct (String.eqb_spec (Parsed.tempId x) (Parsed.tempId r)) as [E | ].
    + exfalso. apply Hx. rewrite E. apply in_map. eapply nth_error_In. exact Hn.
    + f_equal. apply IH; assumption.
Qed.

Lemma mapItemsFrom_NoDup (trim toUpperCase : string -> string)
    (clock : nat -> Z) (data : list Item.t) (idx : nat) :
  NoDup (map Parsed.tempId (mapItemsFrom trim toUpperCase clock idx data)).
Proof.
  revert idx.
  induction data as [ | item rest IH]; intros idx; simpl; [constructor | ].
  constructor; [ | apply IH].
  intros Hin. apply in_map_iff in Hin. destruct Hin as (r & E & Hr).
  apply mapItemsFrom_tempIds in Hr. destruct Hr as (item' & j & Hj & ->).
  apply (tempId_determines_index trim toUpperCase clock item' item j idx) in E. lia.
Qed.

(** The rows of one analysis have pairwise different [tempId]s, whatever the
    clock returns while they are built: the index printed after "parsed-"
    ends at the next "-", and different indices print differently. *)
Theorem analysis_tempIds_distinct :
  forall (trim toUpperCase : string -> string) (clock : nat -> Z)
         (data : list Item.t),
    NoDup (map Parsed.tempId (mapItemsFrom trim toUpperCase clock 0 data)).
Proof. intros. apply mapItemsFrom_NoDup. Qed.

Lemma fieldChange_tempIds (i : string) (f : ParsedField) (rows : list Parsed.t) :
  editsTempId f = false ->
  map Parsed.tempId (handleFieldChange i f rows) = map Parsed.tempId rows.
Proof.
  intros Hf. unfold handleFieldChange. rewrite map_map. apply map_ext.
  intros c. destruct (String.eqb (Parsed.tempId c) i); [ | reflexivity].
  destruct f; try discriminate Hf; reflexivity.
Qed.

Lemma NoDup_map_filter {A B : Type} (g : A -> B) (p : A -> bool) (l : list A) :
  NoDup (map g l) -> NoDup (map g (filter p l)).
Proof.
  induction l as [ | x l IH]; simpl; intros Hnd; [constructor | ].
  inversion Hnd as [ | ? ? Hx Hl]; subst.
  destruct (p x); simpl; [ | apply IH, Hl].
  constructor; [ | apply IH, Hl].
  intros Hin. apply Hx. apply in_map_iff in Hin. destruct Hin as (y & E & Hy).
  apply in_map_iff. exists y. split; [exact E | ].
  apply filter_In in Hy. tauto.
Qed.

Lemma reviewTable_NoDup (trim toUpperCase : string -> string) (rows : list Parsed.t) :
  reviewTable trim toUpperCase rows -> NoDup (map Parsed.tempId rows).
Proof.
  intros H. induction H as [ | clock data | rows i f _ IH Hf | rows i _ IH].
  - constructor.
  - apply mapItemsFrom_NoDup.
  - rewrite fieldChange_tempIds by exact Hf. exact IH.
  - unfold handleRemoveRow. apply NoDup_map_filter, IH.
Qed.

(** In every state of the review table - after an analysis and any number
    of field changes and row removals - the rows have pairwise different
    [tempId]s, so removing the row at position [n] removes that row only,
    and changing a field of it changes that row only: the rows before and
    after it stay as they are, in their order. *)
Theorem review_edits_touch_one_row :
  forall (trim toUpperCase : string -> string) (rows : list Parsed.t)
         (n : nat) (r : Parsed.t) (f : ParsedField),
    reviewTable trim toUpperCase rows ->
    nth_error rows n = Some r ->
    NoDup (map Parsed.tempId rows) /\
    handleRemoveRow (Parsed.tempId r) rows = (firstn n rows ++ skipn (S n) rows)%list /\
    handleFieldChange (Parsed.tempId r) f rows
    = (firstn n rows ++ setParsedField r f :: skipn (S n) rows)%list.
Proof.
  intros trim toUpperCase rows n r f Hrows Hn.
  pose proof (reviewTable_NoDup trim toUpperCase rows Hrows) as Hnd.
  split; [exact Hnd | ].
  split; [apply remove_unique_row | apply change_unique_row]; assumption.
Qed.

Lemma review_edits_touch_one_row_witness :
  let analysis := mapItemsFrom asciiTrim asciiUpper (fun _ => 1700000000000) 0
                    sample_items in
  let rows := handleRemoveRow "parsed-1-1700000000000"
                (handleFieldChange "parsed-0-1700000000000" (PName "Auditing")
                   analysis) in
  let r := setParsedField
             (mapItem asciiTrim asciiUpper (fun _ => 1700000000000)
                {| Item.semester := Some "111-1"; Item.name := Some "Accounting";
                   Item.credits := Some 3%float; Item.grade := Some " a+ " |} 0)
             (PName "Auditing") in
  reviewTable asciiTrim asciiUpper rows /\
  nth_error rows 0 = Some r /\
  rows = [r] /\
  handleRemoveRow (Parsed.tempId r) rows = (firstn 0 rows ++ skipn 1 rows)%list /\
  handleFieldChange (Parsed.tempId r) (PGrade "B") rows
  = (firstn 0 rows ++ setParsedField r (PGrade "B") :: skipn 1 rows)%list.
Proof.
  intros analysis rows r.
  assert (Hrows : reviewTable asciiTrim asciiUpper rows).
  { apply rowRemoved, fieldChanged; [apply analysed | reflexivity]. }
  assert (Hn : nth_error rows 0 = Some r) by reflexivity.
  split; [exact Hrows | ]. split; [exact Hn | ]. split; [reflexivity | ].
  exact (proj2 (review_edits_touch_one_row asciiTrim asciiUpper rows 0 r
                  (PGrade "B") Hrows Hn)).
Defined.

(** * The five category bars and the total bar *)

Lemma unitSum_total_sides (l : list Course) :
  unitSum (filter (inTotal false) l) + unitSum (filter (inTotal true) l)
  <= unitSum (filter creditBearing l).
Proof.
  induction l as [ | c l IH]; simpl; [lia | ].
  pose proof (unitsOf_nonneg (credits c)) as Hc.
  unfold inTotal in *.
  destruct (creditBearing c), (truthy (isCurrent c)); simpl; lia.
Qed.

(** The requirements of the five category bars of
    [ACCOUNTING_111_REQUIREMENTS] add up to the requirement of the total
    bar; so with whole-number credits (adding up to less than [2^53]), a
    student whose five category bars are all met has the total bar met as
    well, and the same holds for the bars met with projection. *)
Theorem category_bars_met_imply_total_met :
  forall courses : list Course,
    Forall (fun c => wholeNumber (credits c)) (filter creditBearing courses) ->
    unitSum (filter creditBearing courses) < 2 ^ 53 ->
    let t := totals courses in
    let r := ACCOUNTING_111_REQUIREMENTS in
    (isMet (commonRequired t) (req_commonRequired r) = true ->
     isMet (deptRequired t) (req_deptRequired r) = true ->
     isMet (designatedElective t) (req_designatedElective r) = true ->
     isMet (generalElective t) (req_generalElective r) = true ->
     isMet (generalEducation t) (req_generalEducation r) = true ->
     isMet (total t) (req_total r) = true) /\
    (isMetProjected (commonRequired t) (req_commonRequired r) = true ->
     isMetProjected (deptRequired t) (req_deptRequired r) = true ->
     isMetProjected (designatedElective t) (req_designatedElective r) = true ->
     isMetProjected (generalElective t) (req_generalElective r) = true ->
     isMetProjected (generalEducation t) (req_generalEducation r) = true ->
     isMetProjected (total t) (req_total r) = true).
Proof.
  intros courses Hw Hb t r. subst t r.
  destruct (totals_whole courses Hw Hb) as [Hk Ht].
  pose proof (Ht false) as Hte. pose proof (Ht true) as Htp. simpl in Hte, Htp.
  pose proof (fun k => Hk k false) as Hke. pose proof (fun k => Hk k true) as Hkp.
  simpl in Hke, Hkp.
  pose proof (unitSum_buckets false courses) as Hse.
  pose proof (unitSum_buckets true courses) as Hsp.
  pose proof (unitSum_total_sides courses) as Hsides.
  pose proof (unitSum_nonneg (filter (inTotal false) courses)) as Hte0.
  pose proof (unitSum_nonneg (filter (inTotal true) courses)) as Htp0.
  assert (Hnn : forall k cur, 0 <= unitSum (filter (inBucket k cur) courses))
    by (intros; apply unitSum_nonneg).
  pose proof (fun k => unitSum_sides courses k) as Hks.
  change (req_total ACCOUNTING_111_REQUIREMENTS) with (Z2F 133).
  change (req_commonRequired ACCOUNTING_111_REQUIREMENTS) with (Z2F 9).
  change (req_deptRequired ACCOUNTING_111_REQUIREMENTS) with (Z2F 69).
  change (req_designatedElective ACCOUNTING_111_REQUIREMENTS) with (Z2F 21).
  change (req_generalElective ACCOUNTING_111_REQUIREMENTS) with (Z2F 19).
  change (req_generalEducation ACCOUNTING_111_REQUIREMENTS) with (Z2F 15).
  change (commonRequired (totals courses))
    with (getBucket KCommonRequired (totals courses)).
  change (deptRequired (totals courses))
    with (getBucket KDeptRequired (totals courses)).
  change (designatedElective (totals courses))
    with (getBucket KDesignatedElective (totals courses)).
  change (generalElective (totals courses))
    with (getBucket KGeneralElective (totals courses)).
  change (generalEducation (totals courses))
    with (getBucket KGeneralEducation (totals courses)).
  pose proof (Hnn KCommonRequired false). pose proof (Hnn KCommonRequired true).
  pose proof (Hnn KDeptRequired false). pose proof (Hnn KDeptRequired true).
  pose proof (Hnn KDesignatedElective false). pose proof (Hnn KDesignatedElective true).
  pose proof (Hnn KGeneralElective false). pose proof (Hnn KGeneralElective true).
  pose proof (Hnn KGeneralEducation false). pose proof (Hnn KGeneralEducation true).
  pose proof (Hks KCommonRequired). pose proof (Hks KDeptRequired).
  pose proof (Hks KDesignatedElective). pose proof (Hks KGeneralElective).
  pose proof (Hks KGeneralEducation).
  unfold isMet, isMetProjected. rewrite !Hke, !Hkp, Hte, Htp.
  rewrite !Z2F_add by lia. rewrite !Z2F_leb by lia.
  rewrite !Z.leb_le. split; intros; lia.
Qed.

Lemma category_bars_met_imply_total_met_witness :
  let courses := map (fun k => mkCourse "id" "111-1" "Course" 69
                                 k "A" (Some false))
                     [CommonRequired; DeptRequired; DesignatedElective;
                      GeneralElective; GeneralEducation] in
  Forall (fun c => wholeNumber (credits c)) (filter creditBearing courses) /\
  unitSum (filter creditBearing courses) < 2 ^ 53 /\
  isMet (total (totals courses)) (req_total ACCOUNTING_111_REQUIREMENTS) = true.
Proof.
  intros courses.
  assert (Hw : Forall (fun c => wholeNumber (credits c))
                 (filter creditBearing courses)) by repeat constructor.
  assert (Hb : unitSum (filter creditBearing courses) < 2 ^ 53) by reflexivity.
  split; [exact Hw | ]. split; [exact Hb | ].
  destruct (category_bars_met_imply_total_met courses Hw Hb) as [Hmet _].
  exact (Hmet eq_refl eq_refl eq_refl eq_refl eq_refl).
Defined.

(** * The GPA strings *)




(** ** Decimal digits *)















(** The quotient that is rounded is the binary64 one.  For an A- of one
    credit and a B of three the pools are 12.7 and 4; the binary64 quotient
    lies just below 3.175 and prints as 3.17. *)
Example gpa_rounds_the_binary64_quotient :
  let courses :=
    [ mkCourse "r1" "111-1" "Auditing" 1 DeptRequired "A-" None;
      mkCourse "r2" "111-1" "Taxation" 3 DeptRequired "B" None ] in
  let st := gpaPools courses in
  currentGPA (computeProgress courses ACCOUNTING_111_REQUIREMENTS) = "3.17"%string /\
  earnedCredits st = 4%float /\
  exists (m : positive) (e : Z),
    Prim2SF (earnedPoints st / earnedCredits st) = S754_finite false m e /\
    1000 * JSNumber.num m e < 3175 * JSNumber.den e.
Proof.
  vm_compute. split; [reflexivity | ]. split; [reflexivity | ].
  eexists _, _. split; reflexivity.
Qed.
